(** * Real-time transport and stream reconstruction of the legal-assistant client

    A shallow embedding of the client-side transport layer:
    - [frontend/js/chat.js]: [sendStreamingMessage] and the message helpers
      it calls ([addAssistantMessage], [updateStreamingMessage],
      [finalizeStreamingMessage]);
    - the [useWebSocket] hook (workflow channel, reconnect after 3000 ms);
    - [initializeWebSocket] of the main script (notification channel,
      reconnect after 5000 ms);
    - [frontend/lib/mockData.ts] ([getMockResponse]) and the fallback branch
      of [handleStartWorkflow] in [frontend/app/page.tsx];
    - the request path of [chat.js] ([sendEnhancedMessage] up to its request,
      [addUserMessage], [getConversationContext], [regenerateResponse]);
    - the chat of the main script ([sendMessage], [addMessage], the typing
      indicator, [clearChatHistory], [exportChatHistory], [toggleTheme]) and
      its [debounce] and [throttle].

    JavaScript strings are modelled as Rocq [string]s (byte strings holding
    UTF-8).  Every string operation the code performs uses an ASCII pattern
    (the newline, the marker [data: ], the scenario keywords), so byte-wise
    and code-unit-wise results agree. *)

From Stdlib Require Import ZArith List String Ascii Bool Arith Lia.
Import ListNotations.

Open Scope string_scope.

#[local] Set Warnings "-register-all".

(* ================================================================== *)
(** ** JavaScript values and the string primitives the sources use *)
(* ================================================================== *)

Module JS.

(** The values [JSON.parse] can return.  A number keeps its source lexeme:
    no code modelled here computes with numbers received from the wire. *)
Inductive JSValue : Type :=
| JNull
| JBool (b : bool)
| JNum (lexeme : string)
| JStr (s : string)
| JArr (items : list JSValue)
| JObj (fields : list (string * JSValue)).

(** Errors a handler can see. *)
Inductive JSError : Type :=
| SyntaxError   (* JSON.parse on malformed text *)
| TypeError     (* property read on null or undefined *)
| OtherError.   (* raised by a rendering collaborator *)

(** Own-property lookup in a parsed object: with duplicate keys the last
    binding wins, as in [JSON.parse]. *)
Fixpoint lookup_field (k : string) (fs : list (string * JSValue))
  : option JSValue :=
  match fs with
  | [] => None
  | (k', v) :: rest =>
      match lookup_field k rest with
      | Some w => Some w
      | None => if String.eqb k k' then Some v else None
      end
  end.

(** [v.k] for a data key [k] (none of [type], [content], [analysis] is a
    built-in property of strings, arrays, numbers or booleans):
    [inl TypeError] when [v] is null, [inr None] for [undefined]. *)
Definition get_prop (v : JSValue) (k : string) : JSError + option JSValue :=
  match v with
  | JNull => inl TypeError
  | JObj fs => inr (lookup_field k fs)
  | _ => inr None
  end.

(** [x === 'lit'] for a property value [x] (possibly undefined). *)
Definition strict_eq_str (x : option JSValue) (lit : string) : bool :=
  match x with
  | Some (JStr s) => String.eqb s lit
  | _ => false
  end.

(** A number lexeme denotes zero when no digit of its mantissa differs
    from [0]. *)
Fixpoint mantissa_zero (s : string) : bool :=
  match s with
  | EmptyString => true
  | String c rest =>
      if Ascii.eqb c "e" || Ascii.eqb c "E" then true
      else if Ascii.eqb c "-" || Ascii.eqb c "." || Ascii.eqb c "0"
      then mantissa_zero rest
      else false
  end.

(** Truthiness of a property value. *)
Definition truthy (x : option JSValue) : bool :=
  match x with
  | None | Some JNull => false
  | Some (JBool b) => b
  | Some (JNum l) => negb (mantissa_zero l)
  | Some (JStr s) => negb (String.eqb s EmptyString)
  | Some (JArr _) | Some (JObj _) => true
  end.

(** [s.startsWith(p)] *)
Definition startsWith (s p : string) : bool := String.prefix p s.

(** [s.slice(n)] for [n >= 0]. *)
Fixpoint slice (n : nat) (s : string) : string :=
  match n, s with
  | O, _ => s
  | S n', String _ rest => slice n' rest
  | S _, EmptyString => EmptyString
  end.

(** [s.split(sep)] for a one-character separator: never empty, and a
    trailing separator yields a trailing empty segment. *)
Fixpoint split (sep : ascii) (s : string) : list string :=
  match s with
  | EmptyString => [EmptyString]
  | String c rest =>
      if Ascii.eqb c sep then EmptyString :: split sep rest
      else match split sep rest with
           | [] => [String c EmptyString]
           | seg :: segs => String c seg :: segs
           end
  end.

(** [s.includes(p)] *)
Fixpoint includes (s p : string) : bool :=
  String.prefix p s ||
  match s with
  | EmptyString => false
  | String _ rest => includes rest p
  end.

Definition is_upper (c : ascii) : bool :=
  let n := nat_of_ascii c in (65 <=? n)%nat && (n <=? 90)%nat.

Definition lower_ascii (c : ascii) : ascii :=
  if is_upper c then ascii_of_nat (nat_of_ascii c + 32) else c.

(** [s.toLowerCase()], exact on ASCII.  Two non-ASCII characters lower to
    text that contains an ASCII letter and are handled so that searching
    the result for an ASCII keyword agrees with JavaScript: KELVIN SIGN
    (E2 84 AA) becomes [k], and LATIN CAPITAL I WITH DOT ABOVE (C4 B0)
    becomes [i] followed by COMBINING DOT ABOVE (CC 87).  Other non-ASCII
    bytes are kept; their lower-case forms contain no ASCII. *)
Fixpoint toLowerCase (s : string) : string :=
  match s with
  | EmptyString => EmptyString
  | String c rest =>
      match rest with
      | String c1 rest1 =>
          if Ascii.eqb c "196" && Ascii.eqb c1 "176"
          then String "i" (String "204" (String "135" (toLowerCase rest1)))
          else
            match rest1 with
            | String c2 rest2 =>
                if Ascii.eqb c "226" && Ascii.eqb c1 "132" && Ascii.eqb c2 "170"
                then String "k" (toLowerCase rest2)
                else String (lower_ascii c) (toLowerCase rest)
            | EmptyString => String (lower_ascii c) (toLowerCase rest)
            end
      | EmptyString => String (lower_ascii c) EmptyString
      end
  end.

(** [xs.join(sep)] *)
Fixpoint join (sep : string) (xs : list string) : string :=
  match xs with
  | [] => EmptyString
  | [x] => x
  | x :: rest => x ++ sep ++ join sep rest
  end.

(** The interface to the host: what the sources call but do not define. *)
Class Platform : Type := {
  (** [JSON.parse]: [None] when it raises a SyntaxError. *)
  JSON_parse : string -> option JSValue;
  (** [Number.prototype.toString] on the number denoted by a lexeme. *)
  number_to_string : string -> string
}.

(** Conversion of a parsed value to a string raises a TypeError exactly
    when it meets an object with an own [toString] property (which,
    coming from JSON, is not callable); an array converts its items. *)
Fixpoint printable (v : JSValue) : bool :=
  match v with
  | JArr items =>
      (fix all (l : list JSValue) : bool :=
         match l with
         | [] => true
         | x :: l' => printable x && all l'
         end) items
  | JObj fields =>
      match lookup_field "toString" fields with
      | Some _ => false
      | None => true
      end
  | _ => true
  end.

(** [ToString] of a printable value, as string concatenation and
    template literals perform it. *)
Fixpoint ToString `{Platform} (v : JSValue) : string :=
  match v with
  | JNull => "null"
  | JBool true => "true"
  | JBool false => "false"
  | JNum l => number_to_string l
  | JStr s => s
  | JArr items =>
      join ","
        ((fix each (l : list JSValue) : list string :=
            match l with
            | [] => []
            | JNull :: l' => EmptyString :: each l'
            | x :: l' => ToString x :: each l'
            end) items)
  | JObj _ => "[object Object]"
  end.

(** [acc + x] where [acc] is a string and [x] a property value. *)
Definition concat_value `{Platform} (acc : string) (x : option JSValue)
  : JSError + string :=
  match x with
  | None => inr (acc ++ "undefined")
  | Some v => if printable v then inr (acc ++ ToString v) else inl TypeError
  end.

(** [`${x}`] completes. *)
Definition interpolates (x : option JSValue) : bool :=
  match x with
  | None => true
  | Some v => printable v
  end.

End JS.

(* ================================================================== *)
(** ** A reference [JSON.parse]

    A recursive-descent reader of the JSON grammar (RFC 8259), used as
    the concrete host when a statement is evaluated on a literal
    payload.  The general theorems hold for every [Platform]. *)
(* ================================================================== *)

Module JSONRef.
Import JS.

Definition is_ws (c : ascii) : bool :=
  Ascii.eqb c " " || Ascii.eqb c "009" || Ascii.eqb c "010" || Ascii.eqb c "013".

Fixpoint skip_ws (s : string) : string :=
  match s with
  | String c rest => if is_ws c then skip_ws rest else s
  | EmptyString => s
  end.

Definition is_digit (c : ascii) : bool :=
  let n := nat_of_ascii c in (48 <=? n)%nat && (n <=? 57)%nat.

(** Longest prefix of digits, and the rest. *)
Fixpoint span_digits (s : string) : string * string :=
  match s with
  | String c rest =>
      if is_digit c
      then let (d, r) := span_digits rest in (String c d, r)
      else (EmptyString, s)
  | EmptyString => (EmptyString, s)
  end.

Definition hex_val (c : ascii) : option nat :=
  let n := nat_of_ascii c in
  if (48 <=? n)%nat && (n <=? 57)%nat then Some (n - 48)
  else if (65 <=? n)%nat && (n <=? 70)%nat then Some (n - 55)
  else if (97 <=? n)%nat && (n <=? 102)%nat then Some (n - 87)
  else None.

(** UTF-8 bytes of a code unit below 65536 (a surrogate is encoded on
    its own, three bytes). *)
Definition utf8 (u : nat) : string :=
  if (u <? 128)%nat then String (ascii_of_nat u) EmptyString
  else if (u <? 2048)%nat then
    String (ascii_of_nat (192 + u / 64))
      (String (ascii_of_nat (128 + u mod 64)) EmptyString)
  else
    String (ascii_of_nat (224 + u / 4096))
      (String (ascii_of_nat (128 + (u / 64) mod 64))
         (String (ascii_of_nat (128 + u mod 64)) EmptyString)).

(** The characters of a string literal after its opening quote, up to
    and including the closing quote. *)
Fixpoint parse_chars (s : string) : option (string * string) :=
  match s with
  | EmptyString => None
  | String c rest =>
      if Ascii.eqb c "034" then Some (EmptyString, rest)
      else if Ascii.eqb c "092" then
        match rest with
        | String e rest' =>
            let simple (d : ascii) :=
              match parse_chars rest' with
              | Some (t, r) => Some (String d t, r)
              | None => None
              end in
            if Ascii.eqb e "034" then simple "034"%char
            else if Ascii.eqb e "092" then simple "092"%char
            else if Ascii.eqb e "/" then simple "/"%char
            else if Ascii.eqb e "b" then simple "008"%char
            else if Ascii.eqb e "f" then simple "012"%char
            else if Ascii.eqb e "n" then simple "010"%char
            else if Ascii.eqb e "r" then simple "013"%char
            else if Ascii.eqb e "t" then simple "009"%char
            else if Ascii.eqb e "u" then
              match rest' with
              | String h1 (String h2 (String h3 (String h4 r4))) =>
                  match hex_val h1, hex_val h2, hex_val h3, hex_val h4 with
                  | Some a, Some b, Some c', Some d =>
                      match parse_chars r4 with
                      | Some (t, r) =>
                          Some (utf8 (a * 4096 + b * 256 + c' * 16 + d) ++ t, r)
                      | None => None
                      end
                  | _, _, _, _ => None
                  end
              | _ => None
              end
            else None
        | EmptyString => None
        end
      else if (nat_of_ascii c <? 32)%nat then None
      else
        match parse_chars rest with
        | Some (t, r) => Some (String c t, r)
        | None => None
        end
  end.

(** A number lexeme: [-]? int frac? exp? *)
Definition parse_number (s : string) : option (string * string) :=
  let (sign, s1) :=
    match s with
    | String "-" r => ("-", r)
    | _ => (EmptyString, s)
    end in
  let (int, s2) := span_digits s1 in
  match int with
  | EmptyString => None
  | String d ds =>
      if Ascii.eqb d "0" && negb (String.eqb ds EmptyString) then None
      else
        let frac :=
          match s2 with
          | String "." r =>
              let (f, r') := span_digits r in
              match f with
              | EmptyString => None
              | _ => Some ("." ++ f, r')
              end
          | _ => Some (EmptyString, s2)
          end in
        match frac with
        | None => None
        | Some (f, s3) =>
            let exp (e : ascii) (r : string) :=
              let (sg, r1) :=
                match r with
                | String "+" r' => ("+", r')
                | String "-" r' => ("-", r')
                | _ => (EmptyString, r)
                end in
              let (x, r2) := span_digits r1 in
              match x with
              | EmptyString => None
              | _ => Some (String e (sg ++ x), r2)
              end in
            let ex :=
              match s3 with
              | String "e" r => exp "e"%char r
              | String "E" r => exp "E"%char r
              | _ => Some (EmptyString, s3)
              end in
            match ex with
            | None => None
            | Some (x, s4) => Some (sign ++ int ++ f ++ x, s4)
            end
        end
  end.

Definition expect (lit : string) (v : JSValue) (s : string)
  : option (JSValue * string) :=
  if String.prefix lit s then Some (v, slice (String.length lit) s) else None.

(** One value, then the elements of an array after a first value or a
    comma, then the members of an object likewise.  [fuel] bounds the
    depth of calls. *)
Fixpoint parse_value (fuel : nat) (s : string) : option (JSValue * string) :=
  match fuel with
  | O => None
  | S f =>
      match skip_ws s with
      | EmptyString => None
      | String c rest as s' =>
          if Ascii.eqb c "{" then
            match skip_ws rest with
            | String "}" r => Some (JObj [], r)
            | r => parse_members f r []
            end
          else if Ascii.eqb c "[" then
            match skip_ws rest with
            | String "]" r => Some (JArr [], r)
            | r => parse_elements f r []
            end
          else if Ascii.eqb c "034" then
            match parse_chars rest with
            | Some (t, r) => Some (JStr t, r)
            | None => None
            end
          else if Ascii.eqb c "t" then expect "true" (JBool true) s'
          else if Ascii.eqb c "f" then expect "false" (JBool false) s'
          else if Ascii.eqb c "n" then expect "null" JNull s'
          else
            match parse_number s' with
            | Some (l, r) => Some (JNum l, r)
            | None => None
            end
      end
  end

with parse_elements (fuel : nat) (s : string) (acc : list JSValue)
  : option (JSValue * string) :=
  match fuel with
  | O => None
  | S f =>
      match parse_value f s with
      | Some (v, r) =>
          match skip_ws r with
          | String "," r' => parse_elements f r' (v :: acc)
          | String "]" r' => Some (JArr (rev (v :: acc)), r')
          | _ => None
          end
      | None => None
      end
  end

with parse_members (fuel : nat) (s : string) (acc : list (string * JSValue))
  : option (JSValue * string) :=
  match fuel with
  | O => None
  | S f =>
      match skip_ws s with
      | String "034" r =>
          match parse_chars r with
          | Some (k, r1) =>
              match skip_ws r1 with
              | String ":" r2 =>
                  match parse_value f r2 with
                  | Some (v, r3) =>
                      match skip_ws r3 with
                      | String "," r4 => parse_members f r4 ((k, v) :: acc)
                      | String "}" r4 => Some (JObj (rev ((k, v) :: acc)), r4)
                      | _ => None
                      end
                  | None => None
                  end
              | _ => None
              end
          | None => None
          end
      | _ => None
      end
  end.

(** The whole text must be one value, surrounding white space allowed.
    Every call of the reader consumes a character or is one of at most
    two calls that do not, so twice the length is enough fuel. *)
Definition parse (s : string) : option JSValue :=
  match parse_value (2 * String.length s + 2) s with
  | Some (v, r) =>
      match skip_ws r with
      | EmptyString => Some v
      | _ => None
      end
  | None => None
  end.

#[export] Instance reference_platform : Platform := {|
  JSON_parse := parse;
  number_to_string := fun lexeme => lexeme
|}.

End JSONRef.

(* ================================================================== *)
(** ** Statements that may raise: a state-and-exception monad

    A JavaScript statement changes the state and either completes with
    a value or raises; what it changed before raising stays changed. *)
(* ================================================================== *)

Module Exn.
Import JS.

Inductive result (A : Type) : Type :=
| Ret (a : A)
| Throw (e : JSError).
Arguments Ret {A} a.
Arguments Throw {A} e.

Definition M (S A : Type) : Type := S -> result A * S.

Definition ret {S A} (a : A) : M S A := fun s => (Ret a, s).

Definition throw {S A} (e : JSError) : M S A := fun s => (Throw e, s).

Definition bind {S A B} (c : M S A) (k : A -> M S B) : M S B :=
  fun s =>
    match c s with
    | (Ret a, s') => k a s'
    | (Throw e, s') => (Throw e, s')
    end.

Definition modify {S} (f : S -> S) : M S unit := fun s => (Ret tt, f s).

Definition gets {S A} (f : S -> A) : M S A := fun s => (Ret (f s), s).

(** [try { body } catch (e) { handler(e) }] *)
Definition try_catch {S A} (body : M S A) (handler : JSError -> M S A)
  : M S A :=
  fun s =>
    match body s with
    | (Ret a, s') => (Ret a, s')
    | (Throw e, s') => handler e s'
    end.

(** A value or a raise, lifted. *)
Definition lift {S A} (x : JSError + A) : M S A :=
  match x with
  | inl e => throw e
  | inr a => ret a
  end.

Declare Scope exn_scope.
Delimit Scope exn_scope with exn.
Notation "x <- c ;; k" := (bind c (fun x => k))
  (at level 61, c at next level, right associativity) : exn_scope.
Notation "c ;;; k" := (bind c (fun _ => k))
  (at level 61, right associativity) : exn_scope.

End Exn.

(* ================================================================== *)
(** ** The stream accumulator: [frontend/js/chat.js] *)
(* ================================================================== *)

Module Stream.
Import JS Exn.
Open Scope exn_scope.

(** An entry of [ChatState.messages].  A message id is the string
    ['msg_' + Date.now()]; it is represented by that time stamp. *)
Record ChatMessage : Type := {
  msg_id : Z;
  msg_type : string;
  msg_content : string;
  msg_isStreaming : bool
}.

(** A message element of the document: its id, whether its class list
    holds [streaming], the source text shown in its bubble and whether
    the bubble ends with the [typing-cursor] span. *)
Record Element : Type := {
  el_id : Z;
  el_streaming : bool;
  el_bubble : string;
  el_cursor : bool
}.

(** Calls observed, in order (instrumentation of the model: the source
    notifies by calling these functions). *)
Inductive Call : Type :=
| CallAddAssistant (content : string) (isStreaming : bool)
| CallUpdate (messageId : option Z) (content : string)
| CallAnalysis (analysis : option JSValue)
| CallFinalize (messageId : option Z).

(** What [sendStreamingMessage] reads and writes: its two locals and
    the globals its callees touch. *)
Record State : Type := {
  (* locals of sendStreamingMessage *)
  assistantMessageId : option Z;
  accumulatedContent : string;
  (* ChatState.messages; None when the property is undefined *)
  messages : option (list ChatMessage);
  (* the document *)
  has_chatMessages : bool;      (* the #chatMessages container exists *)
  has_analysisTab : bool;       (* the #analysisTab element exists *)
  has_marked : bool;            (* window.marked is set *)
  dom : list Element;           (* message elements, document order *)
  panel : list JSValue;         (* analyses rendered into the tab *)
  (* the host *)
  now : Z;                      (* Date.now() *)
  console : list JSError;       (* console.error('Error parsing stream data:', e) *)
  calls : list Call
}.

Definition set_local (id : option Z) (acc : string) (s : State) : State :=
  {| assistantMessageId := id; accumulatedContent := acc;
     messages := messages s; has_chatMessages := has_chatMessages s;
     has_analysisTab := has_analysisTab s; has_marked := has_marked s;
     dom := dom s; panel := panel s; now := now s;
     console := console s; calls := calls s |}.

Definition set_messages (m : option (list ChatMessage)) (s : State) : State :=
  {| assistantMessageId := assistantMessageId s;
     accumulatedContent := accumulatedContent s;
     messages := m; has_chatMessages := has_chatMessages s;
     has_analysisTab := has_analysisTab s; has_marked := has_marked s;
     dom := dom s; panel := panel s; now := now s;
     console := console s; calls := calls s |}.

Definition set_dom (d : list Element) (s : State) : State :=
  {| assistantMessageId := assistantMessageId s;
     accumulatedContent := accumulatedContent s;
     messages := messages s; has_chatMessages := has_chatMessages s;
     has_analysisTab := has_analysisTab s; has_marked := has_marked s;
     dom := d; panel := panel s; now := now s;
     console := console s; calls := calls s |}.

Definition set_panel (p : list JSValue) (s : State) : State :=
  {| assistantMessageId := assistantMessageId s;
     accumulatedContent := accumulatedContent s;
     messages := messages s; has_chatMessages := has_chatMessages s;
     has_analysisTab := has_analysisTab s; has_marked := has_marked s;
     dom := dom s; panel := p; now := now s;
     console := console s; calls := calls s |}.

Definition log_error (e : JSError) (s : State) : State :=
  {| assistantMessageId := assistantMessageId s;
     accumulatedContent := accumulatedContent s;
     messages := messages s; has_chatMessages := has_chatMessages s;
     has_analysisTab := has_analysisTab s; has_marked := has_marked s;
     dom := dom s; panel := panel s; now := now s;
     console := (console s ++ [e])%list; calls := calls s |}.

Definition record_call (c : Call) (s : State) : State :=
  {| assistantMessageId := assistantMessageId s;
     accumulatedContent := accumulatedContent s;
     messages := messages s; has_chatMessages := has_chatMessages s;
     has_analysisTab := has_analysisTab s; has_marked := has_marked s;
     dom := dom s; panel := panel s; now := now s;
     console := console s; calls := (calls s ++ [c])%list |}.

(** The module-level [ChatState] literal (chat.js, lines 5-12) declares
    [currentSession], [sessions], [isTyping], [uploadedFiles],
    [streamingResponse] and [messageQueue]: it has no [messages]
    property, and no source assigns one. *)
Definition ChatState_messages_initial : option (list ChatMessage) := None.

(** The state in which [sendStreamingMessage] starts on a loaded page:
    [let assistantMessageId = null; let accumulatedContent = '']. *)
Definition start (marked : bool) (t : Z) : State :=
  {| assistantMessageId := None; accumulatedContent := EmptyString;
     messages := ChatState_messages_initial;
     has_chatMessages := true; has_analysisTab := true; has_marked := marked;
     dom := []; panel := []; now := t; console := []; calls := [] |}.

(** [document.getElementById(messageId)]: the first element, in document
    order, with that id.  A [null] argument names the id [null], which no
    element carries. *)
Definition getElementById (id : option Z) (d : list Element) : option Element :=
  match id with
  | None => None
  | Some t => find (fun e => Z.eqb (el_id e) t) d
  end.

(** Replace the first element whose id is [t]. *)
Fixpoint update_element (t : Z) (f : Element -> Element) (d : list Element)
  : list Element :=
  match d with
  | [] => []
  | e :: rest =>
      if Z.eqb (el_id e) t then f e :: rest
      else e :: update_element t f rest
  end.

(** Apply [f] to the first stored message whose id is [t]
    ([ChatState.messages.find(m => m.id === messageId)]). *)
Fixpoint update_message (t : Z) (f : ChatMessage -> ChatMessage)
  (ms : list ChatMessage) : list ChatMessage :=
  match ms with
  | [] => []
  | m :: rest =>
      if Z.eqb (msg_id m) t then f m :: rest
      else m :: update_message t f rest
  end.

(** [appendMessage(messageElement)] *)
Definition appendMessage (e : Element) : M State unit :=
  modify (fun s =>
    if has_chatMessages s then set_dom (dom s ++ [e])%list s else s).

(** [addAssistantMessage(content, isStreaming)]: the element is appended
    before [ChatState.messages.push] is evaluated, which raises a
    TypeError when [ChatState.messages] is undefined. *)
Definition addAssistantMessage (content : string) (isStreaming : bool)
  : M State Z :=
  modify (record_call (CallAddAssistant content isStreaming)) ;;;
  messageId <- gets now ;;
  appendMessage {| el_id := messageId; el_streaming := isStreaming;
                   el_bubble := content; el_cursor := false |} ;;;
  ms <- gets messages ;;
  match ms with
  | None => throw TypeError
  | Some l =>
      modify (set_messages
                (Some (l ++ [{| msg_id := messageId; msg_type := "assistant";
                                msg_content := content;
                                msg_isStreaming := isStreaming |}])%list)) ;;;
      ret messageId
  end.

(** [updateStreamingMessage(messageId, content)] *)
Definition updateStreamingMessage (messageId : option Z) (content : string)
  : M State unit :=
  modify (record_call (CallUpdate messageId content)) ;;;
  d <- gets dom ;;
  match messageId, getElementById messageId d with
  | Some t, Some _ =>
      marked <- gets has_marked ;;
      modify (fun s =>
        set_dom (update_element t
                   (fun e => {| el_id := el_id e;
                                el_streaming := el_streaming e;
                                el_bubble := content;
                                el_cursor := marked |}) (dom s)) s)
  | _, _ => ret tt
  end.

(** [finalizeStreamingMessage(messageId)] *)
Definition finalizeStreamingMessage (messageId : option Z) : M State unit :=
  modify (record_call (CallFinalize messageId)) ;;;
  d <- gets dom ;;
  match messageId, getElementById messageId d with
  | Some t, Some _ =>
      modify (fun s =>
        set_dom (update_element t
                   (fun e => {| el_id := el_id e;
                                el_streaming := false;
                                el_bubble := el_bubble e;
                                el_cursor := false |}) (dom s)) s) ;;;
      ms <- gets messages ;;
      match ms with
      | None => throw TypeError
      | Some l =>
          modify (set_messages
                    (Some (update_message t
                             (fun m => {| msg_id := msg_id m;
                                          msg_type := msg_type m;
                                          msg_content := msg_content m;
                                          msg_isStreaming := false |}) l)))
      end
  | _, _ => ret tt
  end.

(** [${x ? ... x.map(item => ...).join('') ... : ''}]: completes when
    [x] is falsy, or an array each of whose items the item template
    accepts. *)
Definition section_completes (x : option JSValue) (item_ok : JSValue -> bool)
  : bool :=
  if truthy x then
    match x with
    | Some (JArr items) => forallb item_ok items
    | _ => false
    end
  else true.

(** The item template of the risks: it reads [risk.level] (twice) and
    [risk.description] and interpolates them. *)
Definition risk_ok (risk : JSValue) : bool :=
  match get_prop risk "level", get_prop risk "description" with
  | inr level, inr description =>
      interpolates level && interpolates description
  | _, _ => false
  end.

(** [updateAnalysisPanel(analysis)] of the main script.  Evaluating its
    template raises a TypeError when [analysis] is null or undefined,
    when a truthy [risks] or [recommendations] is not an array, or when
    an interpolated value is not printable; the panel is then left as
    it was. *)
Definition updateAnalysisPanel (analysis : option JSValue) : M State unit :=
  modify (record_call (CallAnalysis analysis)) ;;;
  tab <- gets has_analysisTab ;;
  if tab then
    match analysis with
    | None => throw TypeError
    | Some a =>
        summary <- lift (get_prop a "summary") ;;
        risks <- lift (get_prop a "risks") ;;
        recs <- lift (get_prop a "recommendations") ;;
        if (negb (truthy summary) || interpolates summary)
           && section_completes risks risk_ok
           && section_completes recs printable
        then modify (fun s => set_panel (panel s ++ [a])%list s)
        else throw TypeError
    end
  else ret tt.

Section WithPlatform.
Context `{Platform}.

(** The body of the [try] block for one line that starts with the
    marker. *)
Definition handle_data (line : string) : M State unit :=
  data <- lift (match JSON_parse (slice 6 line) with
                | Some v => inr v
                | None => inl SyntaxError
                end) ;;
  ty <- lift (get_prop data "type") ;;
  if strict_eq_str ty "content" then
    content <- lift (get_prop data "content") ;;
    acc0 <- gets accumulatedContent ;;
    acc1 <- lift (concat_value acc0 content) ;;
    modify (fun s => set_local (assistantMessageId s) acc1 s) ;;;
    id <- gets assistantMessageId ;;
    match id with
    | None =>
        fresh <- addAssistantMessage EmptyString true ;;
        modify (fun s => set_local (Some fresh) (accumulatedContent s) s)
    | Some _ => ret tt
    end ;;;
    id' <- gets assistantMessageId ;;
    acc <- gets accumulatedContent ;;
    updateStreamingMessage id' acc
  else if strict_eq_str ty "analysis" then
    analysis <- lift (get_prop data "analysis") ;;
    updateAnalysisPanel analysis
  else if strict_eq_str ty "complete" then
    id <- gets assistantMessageId ;;
    finalizeStreamingMessage id
  else ret tt.

(** One iteration of [for (const line of lines)]. *)
Definition process_line (line : string) : M State unit :=
  if startsWith line "data: " then
    try_catch (handle_data line) (fun e => modify (log_error e))
  else ret tt.

(** The [for] loop over the lines of one read. *)
Fixpoint process_lines (lines : list string) : M State unit :=
  match lines with
  | [] => ret tt
  | l :: rest => process_line l ;;; process_lines rest
  end.

(** One iteration of [while (true)] with a read that is not [done]:
    the text decoded from the read is split on the newline. *)
Definition process_read (chunk : string) : M State unit :=
  process_lines (split "010" chunk).

(** The loop of [sendStreamingMessage] over the texts its reads deliver
    until the body is done. *)
Fixpoint consume (reads : list string) : M State unit :=
  match reads with
  | [] => ret tt
  | r :: rest => process_read r ;;; consume rest
  end.

End WithPlatform.

End Stream.

(* ================================================================== *)
(** ** The canned scenarios: [frontend/lib/mockData.ts] *)
(* ================================================================== *)

Module Mock.
Import JS.

(** The double quote, for the fixture texts that contain one. *)
Definition dq : string := String "034" EmptyString.

(** The event shapes of the hook's interface file.  Each carries a
    constant [type] tag, which the record type stands for. *)
Record ArgumentGenerated : Type := {
  agent : string;
  content : string;
  thinking : string;
  timestamp : Z
}.

Record Prosecutor : Type := {
  argument : string;
  prosecutor_thinking : string
}.

Record Defender : Type := {
  response : string;
  defender_thinking : string
}.

Record DebateTurn : Type := {
  turn : Z;
  prosecutor : Prosecutor;
  defender : Defender
}.

Record FeedbackReady : Type := {
  recommendations : list string;
  strengths : list string;
  weaknesses : list string
}.

Inductive Mode : Type := single | debate.

(** [mode === m] *)
Definition mode_eqb (a b : Mode) : bool :=
  match a, b with
  | single, single | debate, debate => true
  | _, _ => false
  end.

(** What [getMockResponse] returns: an object with [arguments] and
    [feedback], or one with [turns] and [feedback]. *)
Inductive MockResponse : Type :=
| SingleScenario (arguments : list ArgumentGenerated) (feedback : FeedbackReady)
| DebateScenario (turns : list DebateTurn) (feedback : FeedbackReady).

Section Fixture.

(** [mockResponses] is built once, when the module is evaluated; its
    two time stamps come from two calls of [Date.now()] then. *)
Variables (loaded_first loaded_second : Z).

Definition personalInjury : MockResponse :=
  SingleScenario
    [ {| agent := "Legal Analyst";
         content := "After analyzing your argument, I can see you're establishing the property owner's duty of care despite contributory negligence. This is a strong foundation.

Your argument correctly focuses on the property owner's independent duty to maintain safe premises. Under premises liability law, property owners have a non-delegable duty to keep their property reasonably safe for lawful visitors, regardless of the visitor's potential negligence.";
         thinking := "The user is dealing with a contributory/comparative negligence defense. I need to help them strengthen their premises liability argument while addressing the defendant's texting defense.";
         timestamp := loaded_first |};
      {| agent := "Legal Strategist";
         content := "To strengthen your argument, consider these key points:

1. **Separate Duties Doctrine**: Emphasize that the property owner's duty to maintain safe conditions exists independently of any contributory negligence by the plaintiff.

2. **Foreseeability**: Argue that distracted pedestrians are foreseeable, and property owners must account for this reality when maintaining their premises.

3. **Comparative Negligence**: Even if the plaintiff was partially at fault, in most jurisdictions this only reduces damages proportionally, not eliminate liability entirely.

4. **Notice and Knowledge**: Focus on whether the property owner knew or should have known about the hazardous condition and failed to remedy it or provide adequate warning.";
         thinking := "Providing specific legal doctrines and strategic approaches to counter the contributory negligence defense.";
         timestamp := loaded_second + 1000 |} ]
    {| recommendations :=
        [ "Gather evidence of how long the hazardous condition existed";
        "Document similar incidents or complaints about the same hazard";
        "Obtain expert testimony on property maintenance standards";
        "Research local precedents on comparative negligence in premises liability cases" ];
       strengths :=
        [ "Correctly identifies the independent duty of property owners";
        "Understands that contributory negligence doesn't eliminate liability";
        "Focus on premises liability law is appropriate" ];
       weaknesses :=
        [ "Need more specific case law citations";
        "Should address the degree of plaintiff's distraction";
        "Could strengthen causation argument between hazard and injury" ] |}.

Definition nonCompete : MockResponse :=
  DebateScenario
    [ {| turn := 1;
       prosecutor :=
         {| argument := "Your Honor, the non-compete clause in question is a valid, negotiated agreement between sophisticated parties. The employee received valuable consideration including access to proprietary information, specialized training, and client relationships. 

The clause is narrowly tailored: it's limited to 12 months, covers only direct competitors, and applies solely within the specific geographic region where the company operates. This reasonable restriction protects legitimate business interests without unduly restraining trade.

The employee cannot now claim ignorance or unfairness after benefiting from the company's investments in their development.";
            prosecutor_thinking := "Opening with contract validity and reasonable restrictions. Need to emphasize the exchange of value and narrow scope to counter California's strong anti-noncompete stance." |};
       defender :=
         {| response := ("Your Honor, California Business and Professions Code Section 16600 is unequivocal: " ++ dq ++ "Except as provided in this chapter, every contract by which anyone is restrained from engaging in a lawful profession, trade, or business of any kind is to that extent void." ++ dq ++ "

This statute reflects California's fundamental public policy favoring employee mobility and competition. The California Supreme Court in Edwards v. Arthur Andersen (2008) explicitly rejected the " ++ dq ++ "narrow restraint" ++ dq ++ " exception that other states recognize.

No amount of consideration or claimed business interests can overcome California's statutory prohibition. The law protects not just the employee's right to work, but also promotes innovation and economic growth through free movement of talent.");
            defender_thinking := "Leading with the statutory prohibition and Supreme Court precedent. California law is clear and leaves little room for exceptions." |} |};
      {| turn := 2;
       prosecutor :=
         {| argument := "Counsel misapplies Section 16600. The statute has recognized exceptions, particularly for trade secret protection and ownership interests. Our client isn't seeking to prevent all employment, merely protecting confidential information and customer relationships developed at significant expense.

Furthermore, if the employment agreement contains a choice-of-law provision selecting another state's law, California courts have enforced such provisions when the employer has substantial contacts with that state. Application Group, Inc. v. Hunter Group established this principle.

The employee acknowledged these restrictions and received substantial compensation accordingly. Allowing them to immediately join a competitor would constitute unjust enrichment.";
            prosecutor_thinking := "Pivoting to the trade secret exception and choice-of-law arguments. These are the narrow paths that might work even in California." |};
       defender :=
         {| response := ("The trade secret exception is precisely that - an exception for trade secrets, not a backdoor for general non-compete agreements. California's Uniform Trade Secrets Act provides the exclusive remedy for trade secret misappropriation. The employer cannot use a non-compete clause to achieve what trade secret law specifically addresses.

Regarding choice-of-law, the California Supreme Court in Whitewater West Industries v. Alleshouse held that California's prohibition on non-compete agreements reflects a fundamental public policy that cannot be circumvented through choice-of-law provisions when California has a material interest.

The " ++ dq ++ "unjust enrichment" ++ dq ++ " argument fails because the employee earned their compensation through past services rendered. Future employment rights cannot be bargained away under California law, regardless of consideration.");
            defender_thinking := "Distinguishing trade secret law from non-compete enforcement and addressing the choice-of-law argument with recent California Supreme Court precedent." |} |};
      {| turn := 3;
       prosecutor :=
         {| argument := "Even accepting California's strict approach, equitable remedies remain available. The doctrine of inevitable disclosure, while limited, can prevent an employee from taking a position where they would inevitably use or disclose trade secrets.

Additionally, non-solicitation provisions targeting specific clients with whom the employee worked are more likely to survive scrutiny than broad non-compete clauses. We seek only to protect established client relationships, not to prevent competition entirely.

The employee's bad faith is relevant here - evidence shows they downloaded client lists and proprietary data before resignation, suggesting intentional misappropriation rather than innocent job mobility.";
            prosecutor_thinking := "Final attempt focusing on narrower theories: inevitable disclosure and non-solicitation, plus introducing bad faith conduct to strengthen the equitable argument." |};
       defender :=
         {| response := ("The " ++ dq ++ "inevitable disclosure" ++ dq ++ " doctrine has been largely rejected in California. In Schlage Lock v. Whyte, the court held that this doctrine cannot create an implied non-compete agreement where express agreements are void.

Non-solicitation agreements face the same scrutiny under Section 16600 when they substantially restrict business operations. The California Supreme Court in Dowell v. Biosense Webster confirmed that even client-specific restrictions are void if they restrain business competition.

As for the alleged bad faith conduct, if the employer has evidence of trade secret theft, they should pursue appropriate remedies under the Uniform Trade Secrets Act or criminal law, not attempt to enforce an illegal non-compete agreement. The validity of the contract clause stands independent of any alleged misconduct.

California's policy is clear: promote innovation and competition through employee mobility. This court should void the non-compete clause as required by law.");
            defender_thinking := "Closing by dismantling each remaining argument and returning to California's fundamental policy. The law strongly favors my position." |} |} ]
    {| recommendations :=
        [ "Lawyer A should focus more on federal law preemption arguments if applicable";
        "Lawyer B could strengthen position with economic impact studies on non-compete agreements";
        "Both sides should address recent FTC proposed rules on non-compete agreements";
        "Consider alternative protective mechanisms like garden leave or retention bonuses" ];
       strengths :=
        [ "Lawyer A: Creative arguments using choice-of-law and trade secret exceptions";
        "Lawyer B: Strong command of California statutory and case law";
        "Both: Well-structured arguments with appropriate legal citations" ];
       weaknesses :=
        [ "Lawyer A: Fighting uphill battle against clear statutory prohibition";
        "Lawyer B: Could address more policy considerations";
        "Both: Limited discussion of practical business alternatives" ] |}.

(** The default answers are built at each call, at time [called]. *)
Definition default_single (called : Z) : MockResponse :=
  SingleScenario
    [ {| agent := "Legal Analyst";
         content := "I've analyzed your legal argument. While I cannot connect to the backend system currently, here's a general framework for strengthening your position:

1. Establish the legal foundation with relevant statutes and case law
2. Address potential counterarguments preemptively  
3. Ensure your facts support each element of your legal theory
4. Consider procedural requirements and deadlines";
         thinking := "Providing general legal analysis framework as fallback.";
         timestamp := called |} ]
    {| recommendations :=
        [ "Research relevant case law in your jurisdiction";
        "Strengthen factual support for key claims";
        "Consider alternative legal theories";
        "Prepare for likely counterarguments" ];
       strengths :=
        [ "Clear legal theory";
        "Organized presentation" ];
       weaknesses :=
        [ "Needs more specific case citations";
        "Could address more counterarguments" ] |}.

Definition default_debate : MockResponse :=
  DebateScenario
    [ {| turn := 1;
       prosecutor :=
         {| argument := "Opening argument establishing the primary legal position...";
            prosecutor_thinking := "Setting up the foundation of the argument." |};
       defender :=
         {| response := "Counter-argument addressing the key legal issues...";
            defender_thinking := "Identifying weaknesses in the opposing position." |} |} ]
    {| recommendations :=
        [ "Consider additional legal theories";
        "Strengthen factual support" ];
       strengths :=
        [ "Clear arguments from both sides" ];
       weaknesses :=
        [ "Could use more specific case law" ] |}.

(** [getMockResponse(mode, userInput)] *)
Definition getMockResponse (called : Z) (mode : Mode) (userInput : string)
  : MockResponse :=
  let isPersonalInjury :=
    includes (toLowerCase userInput) "personal injury"
    || includes (toLowerCase userInput) "texting while walking" in
  let isNonCompete :=
    includes (toLowerCase userInput) "non-compete"
    || includes (toLowerCase userInput) "california" in
  if mode_eqb mode single && isPersonalInjury then personalInjury
  else if mode_eqb mode debate && isNonCompete then nonCompete
  else if mode_eqb mode single then default_single called
  else default_debate.

End Fixture.

End Mock.

(* ================================================================== *)
(** ** The workflow channel and its page

    The [useWebSocket] hook together with the component that owns it
    ([Home] of [frontend/app/page.tsx]) and the part of the browser
    they act on: the sockets the hook created and the timer queue.

    A state setter is modelled by applying its update, in call order.
    (React drops the updates of a component that is no longer mounted;
    the records of an unmounted page then stand for what the setters
    were called with.)  An effect's cleanup closes over the values of
    the render in which the effect ran; [cleanup_socket] holds the
    [socket] that render saw. *)
(* ================================================================== *)

Module Workflow.
Import JS Exn Mock.
Open Scope exn_scope.

Inductive ReadyState : Type := CONNECTING | OPEN | CLOSING | CLOSED.

(** A socket made by [connect]: its handlers close over the workflow
    id [connect] was created for. *)
Record Socket : Type := {
  sock_id : nat;
  sock_workflowId : string;
  readyState : ReadyState
}.

(** What a timer callback does when it fires. *)
Inductive TimerAction : Type :=
| Reconnect (workflowId : string)
    (* () => { console.log('Attempting to reconnect...'); connect() } *)
| AppendMockArgument (arg : ArgumentGenerated)
    (* () => setMockArguments(prev => [...prev, arg]) *)
| AppendMockTurn (t : DebateTurn)
    (* () => setMockDebateTurns(prev => [...prev, turn]) *)
| SetMockFeedback (fb : FeedbackReady).
    (* () => setMockFeedback(mockData.feedback) *)

(** A [setTimeout] registration.  Handles are positive integers. *)
Record Timer : Type := {
  timer_id : nat;
  delay : Z;
  action : TimerAction
}.

Inductive LogEntry : Type :=
| LogConnected            (* 'WebSocket connected' *)
| LogParseError (e : JSError)   (* 'Error parsing WebSocket message:' *)
| LogSocketError          (* 'WebSocket error:' *)
| LogDisconnected         (* 'WebSocket disconnected' *)
| LogReconnecting         (* 'Attempting to reconnect...' *)
| LogWorkflowCreated      (* 'Workflow created:' and what follows *)
| LogAlert                (* alert('Please enter a legal argument ...') *)
| LogUncaught (e : JSError).

(** State of one [useWebSocket] instance. *)
Record Hook : Type := {
  workflowId : option string;          (* the argument of the last render *)
  socket : option nat;
  isConnected : bool;
  messages : list JSValue;
  workflowStatus : option JSValue;
  wsArguments : list JSValue;
  debateTurns : list JSValue;
  feedback : option JSValue;
  reconnectTimeoutRef : option nat;    (* reconnectTimeoutRef.current *)
  cleanup_socket : option nat          (* [socket] as the installed cleanup sees it *)
}.

(** State of [Home]. *)
Record Page : Type := {
  mounted : bool;
  mode : Mode;
  workflowStarted : bool;
  userInput : string;
  useMockData : bool;
  mockArguments : list ArgumentGenerated;
  mockDebateTurns : list DebateTurn;
  mockFeedback : option FeedbackReady;
  (* a call of handleStartWorkflow suspended at an [await], with the
     [mode] and [userInput] its closure holds *)
  awaiting : option (Mode * string)
}.

Record World : Type := {
  hook : Hook;
  page : Page;
  sockets : list Socket;       (* every socket created, by creation *)
  timers : list Timer;         (* the pending timers, by registration *)
  scheduled : list Timer;      (* every registration so far *)
  console : list LogEntry
}.

Definition with_hook (f : Hook -> Hook) (w : World) : World :=
  {| hook := f (hook w); page := page w; sockets := sockets w;
     timers := timers w; scheduled := scheduled w; console := console w |}.

Definition with_page (f : Page -> Page) (w : World) : World :=
  {| hook := hook w; page := f (page w); sockets := sockets w;
     timers := timers w; scheduled := scheduled w; console := console w |}.

Definition with_sockets (f : list Socket -> list Socket) (w : World) : World :=
  {| hook := hook w; page := page w; sockets := f (sockets w);
     timers := timers w; scheduled := scheduled w; console := console w |}.

Definition with_timers (f : list Timer -> list Timer) (w : World) : World :=
  {| hook := hook w; page := page w; sockets := sockets w;
     timers := f (timers w); scheduled := scheduled w; console := console w |}.

Definition log (e : LogEntry) (w : World) : World :=
  {| hook := hook w; page := page w; sockets := sockets w;
     timers := timers w; scheduled := scheduled w;
     console := (console w ++ [e])%list |}.

(** *** Browser primitives *)

(** [setTimeout(callback, ms)]: registers the timer and returns its
    handle. *)
Definition setTimeout (a : TimerAction) (ms : Z) (w : World) : nat * World :=
  let t := {| timer_id := S (List.length (scheduled w)); delay := ms;
              action := a |} in
  (timer_id t,
   {| hook := hook w; page := page w; sockets := sockets w;
      timers := (timers w ++ [t])%list;
      scheduled := (scheduled w ++ [t])%list; console := console w |}).

(** [clearTimeout(handle)] *)
Definition clearTimeout (h : nat) : World -> World :=
  with_timers (filter (fun t => negb (Nat.eqb (timer_id t) h))).

(** [new WebSocket(url)]: a socket in state CONNECTING. *)
Definition new_WebSocket (id : string) (w : World) : nat * World :=
  let s := {| sock_id := List.length (sockets w); sock_workflowId := id;
              readyState := CONNECTING |} in
  (sock_id s, with_sockets (fun l => (l ++ [s])%list) w).

Definition find_socket (sid : nat) (w : World) : option Socket :=
  find (fun s => Nat.eqb (sock_id s) sid) (sockets w).

(** The socket [sid] (the first with that id) changes state. *)
Fixpoint set_first (sid : nat) (r : ReadyState) (l : list Socket)
  : list Socket :=
  match l with
  | [] => []
  | s :: rest =>
      if Nat.eqb (sock_id s) sid
      then {| sock_id := sock_id s; sock_workflowId := sock_workflowId s;
              readyState := r |} :: rest
      else s :: set_first sid r rest
  end.

Definition set_readyState (sid : nat) (r : ReadyState) : World -> World :=
  with_sockets (set_first sid r).

(** [socket.close()]: an open or connecting socket starts closing; the
    close event is delivered later. *)
Definition socket_close (sid : nat) (w : World) : World :=
  match find_socket sid w with
  | Some s =>
      match readyState s with
      | CONNECTING | OPEN => set_readyState sid CLOSING w
      | CLOSING | CLOSED => w
      end
  | None => w
  end.

(** *** State setters of the hook *)

Definition setSocket (v : option nat) (h : Hook) : Hook :=
  {| workflowId := workflowId h; socket := v; isConnected := isConnected h;
     messages := messages h; workflowStatus := workflowStatus h;
     wsArguments := wsArguments h; debateTurns := debateTurns h;
     feedback := feedback h; reconnectTimeoutRef := reconnectTimeoutRef h;
     cleanup_socket := cleanup_socket h |}.

Definition setIsConnected (v : bool) (h : Hook) : Hook :=
  {| workflowId := workflowId h; socket := socket h; isConnected := v;
     messages := messages h; workflowStatus := workflowStatus h;
     wsArguments := wsArguments h; debateTurns := debateTurns h;
     feedback := feedback h; reconnectTimeoutRef := reconnectTimeoutRef h;
     cleanup_socket := cleanup_socket h |}.

Definition setMessages (f : list JSValue -> list JSValue) (h : Hook) : Hook :=
  {| workflowId := workflowId h; socket := socket h;
     isConnected := isConnected h;
     messages := f (messages h); workflowStatus := workflowStatus h;
     wsArguments := wsArguments h; debateTurns := debateTurns h;
     feedback := feedback h; reconnectTimeoutRef := reconnectTimeoutRef h;
     cleanup_socket := cleanup_socket h |}.

Definition setWorkflowStatus (v : option JSValue) (h : Hook) : Hook :=
  {| workflowId := workflowId h; socket := socket h;
     isConnected := isConnected h;
     messages := messages h; workflowStatus := v;
     wsArguments := wsArguments h; debateTurns := debateTurns h;
     feedback := feedback h; reconnectTimeoutRef := reconnectTimeoutRef h;
     cleanup_socket := cleanup_socket h |}.

Definition setWsArguments (f : list JSValue -> list JSValue) (h : Hook) : Hook :=
  {| workflowId := workflowId h; socket := socket h;
     isConnected := isConnected h;
     messages := messages h; workflowStatus := workflowStatus h;
     wsArguments := f (wsArguments h); debateTurns := debateTurns h;
     feedback := feedback h; reconnectTimeoutRef := reconnectTimeoutRef h;
     cleanup_socket := cleanup_socket h |}.

Definition setDebateTurns (f : list JSValue -> list JSValue) (h : Hook) : Hook :=
  {| workflowId := workflowId h; socket := socket h;
     isConnected := isConnected h;
     messages := messages h; workflowStatus := workflowStatus h;
     wsArguments := wsArguments h; debateTurns := f (debateTurns h);
     feedback := feedback h; reconnectTimeoutRef := reconnectTimeoutRef h;
     cleanup_socket := cleanup_socket h |}.

Definition setFeedback (v : option JSValue) (h : Hook) : Hook :=
  {| workflowId := workflowId h; socket := socket h;
     isConnected := isConnected h;
     messages := messages h; workflowStatus := workflowStatus h;
     wsArguments := wsArguments h; debateTurns := debateTurns h;
     feedback := v; reconnectTimeoutRef := reconnectTimeoutRef h;
     cleanup_socket := cleanup_socket h |}.

Definition set_reconnectTimeoutRef (v : option nat) (h : Hook) : Hook :=
  {| workflowId := workflowId h; socket := socket h;
     isConnected := isConnected h;
     messages := messages h; workflowStatus := workflowStatus h;
     wsArguments := wsArguments h; debateTurns := debateTurns h;
     feedback := feedback h; reconnectTimeoutRef := v;
     cleanup_socket := cleanup_socket h |}.

(** A render with a new id installs a new effect: its cleanup sees the
    [socket] of that render. *)
Definition install_effect (id : option string) (h : Hook) : Hook :=
  {| workflowId := id; socket := socket h; isConnected := isConnected h;
     messages := messages h; workflowStatus := workflowStatus h;
     wsArguments := wsArguments h; debateTurns := debateTurns h;
     feedback := feedback h; reconnectTimeoutRef := reconnectTimeoutRef h;
     cleanup_socket := socket h |}.

(** *** The hook: [connect] and the four socket callbacks *)

(** [connect()], closed over [workflowId].  The URL built from the id is
    one the [WebSocket] constructor accepts. *)
Definition connect (id : option string) (w : World) : World :=
  match id with
  | None => w                                   (* if (!workflowId) return *)
  | Some i =>
      if String.eqb i EmptyString then w
      else
        let (ws, w1) := new_WebSocket i w in
        with_hook (setSocket (Some ws)) w1       (* setSocket(ws) *)
  end.

(** [ws.onopen] *)
Definition ws_onopen (w : World) : World :=
  let w1 := log LogConnected w in
  let w2 := with_hook (setIsConnected true) w1 in
  match reconnectTimeoutRef (hook w2) with
  | Some h => clearTimeout h w2
  | None => w2
  end.

Section WithPlatform.
Context `{Platform}.

(** The body of the [try] block of [ws.onmessage]. *)
Definition route (raw : string) : M World unit :=
  data <- lift (match JSON_parse raw with
                | Some v => inr v
                | None => inl SyntaxError
                end) ;;
  modify (with_hook (setMessages (fun prev => (prev ++ [data])%list))) ;;;
  ty <- lift (get_prop data "type") ;;
  if strict_eq_str ty "workflow_update" then
    modify (with_hook (setWorkflowStatus (Some data)))
  else if strict_eq_str ty "argument_generated" then
    modify (with_hook (setWsArguments (fun prev => (prev ++ [data])%list)))
  else if strict_eq_str ty "debate_turn" then
    modify (with_hook (setDebateTurns (fun prev => (prev ++ [data])%list)))
  else if strict_eq_str ty "feedback_ready" then
    modify (with_hook (setFeedback (Some data)))
  else ret tt.

(** [ws.onmessage] *)
Definition ws_onmessage (raw : string) : M World unit :=
  try_catch (route raw) (fun e => modify (log (LogParseError e))).

End WithPlatform.

(** [ws.onerror] *)
Definition ws_onerror (w : World) : World := log LogSocketError w.

(** [ws.onclose] of a socket made for workflow [id] *)
Definition ws_onclose (id : string) (w : World) : World :=
  let w1 := log LogDisconnected w in
  let w2 := with_hook (setIsConnected false) w1 in
  let w3 := with_hook (setSocket None) w2 in
  let (h, w4) := setTimeout (Reconnect id) 3000 w3 in
  with_hook (set_reconnectTimeoutRef (Some h)) w4.

(** The cleanup returned by the effect. *)
Definition cleanup (w : World) : World :=
  let w1 :=
    match cleanup_socket (hook w) with
    | Some s => socket_close s w
    | None => w
    end in
  match reconnectTimeoutRef (hook w1) with
  | Some h => clearTimeout h w1
  | None => w1
  end.

Definition option_string_eqb (a b : option string) : bool :=
  match a, b with
  | None, None => true
  | Some x, Some y => String.eqb x y
  | _, _ => false
  end.

(** A render of the hook with argument [id].  The effect depends on
    [workflowId] alone: when it changed, the previous cleanup runs and
    then the effect body, [connect()]. *)
Definition render (id : option string) (w : World) : World :=
  if option_string_eqb id (workflowId (hook w)) then w
  else connect id (with_hook (install_effect id) (cleanup w)).

(** *** The page: [Home] of [frontend/app/page.tsx] *)

Definition MOCK_WORKFLOW_ID : string := "demo-workflow-123".

(** The argument [Home] passes to the hook:
    [workflowStarted && !useMockData ? MOCK_WORKFLOW_ID : undefined]. *)
Definition hook_argument (p : Page) : option string :=
  if workflowStarted p && negb (useMockData p) then Some MOCK_WORKFLOW_ID
  else None.

(** A re-render of [Home] after its state changed. *)
Definition rerender (w : World) : World := render (hook_argument (page w)) w.

Definition ascii_space (c : ascii) : bool :=
  let n := nat_of_ascii c in
  ((9 <=? n)%nat && (n <=? 13)%nat) || Nat.eqb n 32.

(** The three-byte UTF-8 forms of the white space and line terminators
    above U+07FF: U+1680, U+2000 to U+200A, U+2028, U+2029, U+202F,
    U+205F, U+3000 and U+FEFF. *)
Definition wide_space (a b c : ascii) : bool :=
  let x := nat_of_ascii a in
  let y := nat_of_ascii b in
  let z := nat_of_ascii c in
  (Nat.eqb x 225 && Nat.eqb y 154 && Nat.eqb z 128)
  || (Nat.eqb x 226 && Nat.eqb y 128
      && (((128 <=? z)%nat && (z <=? 138)%nat)
          || Nat.eqb z 168 || Nat.eqb z 169 || Nat.eqb z 175))
  || (Nat.eqb x 226 && Nat.eqb y 129 && Nat.eqb z 159)
  || (Nat.eqb x 227 && Nat.eqb y 128 && Nat.eqb z 128)
  || (Nat.eqb x 239 && Nat.eqb y 187 && Nat.eqb z 191).

(** [!s.trim()]: the string holds white space only. *)
Fixpoint blank (s : string) : bool :=
  match s with
  | EmptyString => true
  | String c r =>
      if ascii_space c then blank r
      else
        match r with
        | String c1 r1 =>
            if Nat.eqb (nat_of_ascii c) 194 && Nat.eqb (nat_of_ascii c1) 160
            then blank r1
            else
              match r1 with
              | String c2 r2 => if wide_space c c1 c2 then blank r2 else false
              | EmptyString => false
              end
        | EmptyString => false
        end
  end.

Definition set_mode (m : Mode) (p : Page) : Page :=
  {| mounted := mounted p; mode := m; workflowStarted := workflowStarted p;
     userInput := userInput p; useMockData := useMockData p;
     mockArguments := mockArguments p; mockDebateTurns := mockDebateTurns p;
     mockFeedback := mockFeedback p; awaiting := awaiting p |}.

Definition set_userInput (v : string) (p : Page) : Page :=
  {| mounted := mounted p; mode := mode p;
     workflowStarted := workflowStarted p;
     userInput := v; useMockData := useMockData p;
     mockArguments := mockArguments p; mockDebateTurns := mockDebateTurns p;
     mockFeedback := mockFeedback p; awaiting := awaiting p |}.

Definition set_mounted (v : bool) (p : Page) : Page :=
  {| mounted := v; mode := mode p; workflowStarted := workflowStarted p;
     userInput := userInput p; useMockData := useMockData p;
     mockArguments := mockArguments p; mockDebateTurns := mockDebateTurns p;
     mockFeedback := mockFeedback p; awaiting := awaiting p |}.

Definition set_awaiting (v : option (Mode * string)) (p : Page) : Page :=
  {| mounted := mounted p; mode := mode p;
     workflowStarted := workflowStarted p;
     userInput := userInput p; useMockData := useMockData p;
     mockArguments := mockArguments p; mockDebateTurns := mockDebateTurns p;
     mockFeedback := mockFeedback p; awaiting := v |}.

Definition setUseMockData (v : bool) (p : Page) : Page :=
  {| mounted := mounted p; mode := mode p;
     workflowStarted := workflowStarted p;
     userInput := userInput p; useMockData := v;
     mockArguments := mockArguments p; mockDebateTurns := mockDebateTurns p;
     mockFeedback := mockFeedback p; awaiting := awaiting p |}.

Definition setMockArguments
  (f : list ArgumentGenerated -> list ArgumentGenerated) (p : Page) : Page :=
  {| mounted := mounted p; mode := mode p;
     workflowStarted := workflowStarted p;
     userInput := userInput p; useMockData := useMockData p;
     mockArguments := f (mockArguments p);
     mockDebateTurns := mockDebateTurns p;
     mockFeedback := mockFeedback p; awaiting := awaiting p |}.

Definition setMockDebateTurns
  (f : list DebateTurn -> list DebateTurn) (p : Page) : Page :=
  {| mounted := mounted p; mode := mode p;
     workflowStarted := workflowStarted p;
     userInput := userInput p; useMockData := useMockData p;
     mockArguments := mockArguments p;
     mockDebateTurns := f (mockDebateTurns p);
     mockFeedback := mockFeedback p; awaiting := awaiting p |}.

Definition setMockFeedback (v : option FeedbackReady) (p : Page) : Page :=
  {| mounted := mounted p; mode := mode p;
     workflowStarted := workflowStarted p;
     userInput := userInput p; useMockData := useMockData p;
     mockArguments := mockArguments p; mockDebateTurns := mockDebateTurns p;
     mockFeedback := v; awaiting := awaiting p |}.

(** The "Reset states" block of [handleStartWorkflow]. *)
Definition reset_states (p : Page) : Page :=
  {| mounted := mounted p; mode := mode p; workflowStarted := true;
     userInput := userInput p; useMockData := false;
     mockArguments := []; mockDebateTurns := []; mockFeedback := None;
     awaiting := awaiting p |}.

(** [handleStartWorkflow] up to its first [await]. *)
Definition handleStartWorkflow_begin (w : World) : World :=
  let p := page w in
  if blank (userInput p) then log LogAlert w
  else
    with_page (fun q => set_awaiting (Some (mode p, userInput p))
                          (reset_states q)) w.

(** [items.forEach((item, index) => setTimeout(..., interval * (index + 1)))],
    from position [index] on. *)
Fixpoint schedule_each {A : Type} (callback : A -> TimerAction)
  (interval : Z) (items : list A) (index : Z) (w : World) : World :=
  match items with
  | [] => w
  | item :: rest =>
      let (_, w1) := setTimeout (callback item) (interval * (index + 1)) w in
      schedule_each callback interval rest (index + 1) w1
  end.

Section Fallback.
Variables (loaded_first loaded_second : Z).

(** The [catch] block of [handleStartWorkflow], run at time [called]
    by a call whose closure holds [m] and [input]. *)
Definition handleStartWorkflow_catch (called : Z) (m : Mode) (input : string)
  (w : World) : World :=
  let w1 := with_page (setUseMockData true) w in
  let mockData := getMockResponse loaded_first loaded_second called m input in
  match m, mockData with
  | single, SingleScenario arguments feedback =>
      let w2 := schedule_each AppendMockArgument 1000 arguments 0 w1 in
      snd (setTimeout (SetMockFeedback feedback)
             (1000 * (Z.of_nat (List.length arguments) + 1)) w2)
  | debate, DebateScenario turns feedback =>
      let w2 := schedule_each AppendMockTurn 2000 turns 0 w1 in
      snd (setTimeout (SetMockFeedback feedback)
             (2000 * (Z.of_nat (List.length turns) + 1)) w2)
  | _, _ => log (LogUncaught TypeError) w1
  end.

End Fallback.

(** A timer callback. *)
Definition run_action (a : TimerAction) (w : World) : World :=
  match a with
  | Reconnect id => connect (Some id) (log LogReconnecting w)
  | AppendMockArgument arg =>
      with_page (setMockArguments (fun prev => (prev ++ [arg])%list)) w
  | AppendMockTurn t =>
      with_page (setMockDebateTurns (fun prev => (prev ++ [t])%list)) w
  | SetMockFeedback fb => with_page (setMockFeedback (Some fb)) w
  end.

(** *** Events

    What the user, the network and the timer queue can do to a mounted
    page.  The start button and the input box are rendered only while
    [workflowStarted] is false, and the button is disabled on blank
    input. *)
Inductive Event : Type :=
| SetMode (m : Mode)
| SetUserInput (text : string)
| StartClicked
| StartSucceeded             (* both requests were answered *)
| StartFailed (called : Z)   (* an awaited step raised: the catch block runs *)
| Unmount
| SockOpen (s : nat)
| SockMessage (s : nat) (raw : string)
| SockError (s : nat)
| SockClose (s : nat)
| TimerFire (t : nat).

Definition find_timer (h : nat) (w : World) : option Timer :=
  find (fun t => Nat.eqb (timer_id t) h) (timers w).

Definition ready_eqb (a b : ReadyState) : bool :=
  match a, b with
  | CONNECTING, CONNECTING | OPEN, OPEN
  | CLOSING, CLOSING | CLOSED, CLOSED => true
  | _, _ => false
  end.

Section Step.
Context `{Platform}.
Variables (loaded_first loaded_second : Z).

(** The browser delivers an error to a socket that is not yet closed
    as an error event followed by a close event, the socket being
    CLOSED when they fire; a close is delivered as the close event
    alone.  The [catch] block of a call of [handleStartWorkflow] that
    fails after the page was unmounted still runs and registers its
    timers, but an unmounted component is not rendered again. *)
Definition step (e : Event) (w : World) : World :=
  match e with
  | SetMode m =>
      if mounted (page w) then with_page (set_mode m) w else w
  | SetUserInput text =>
      if mounted (page w) && negb (workflowStarted (page w))
      then with_page (set_userInput text) w else w
  | StartClicked =>
      if mounted (page w) && negb (workflowStarted (page w))
         && negb (blank (userInput (page w)))
      then rerender (handleStartWorkflow_begin w) else w
  | StartSucceeded =>
      match awaiting (page w) with
      | Some _ => log LogWorkflowCreated (with_page (set_awaiting None) w)
      | None => w
      end
  | StartFailed called =>
      match awaiting (page w) with
      | Some (m, input) =>
          let w1 := handleStartWorkflow_catch loaded_first loaded_second
                      called m input (with_page (set_awaiting None) w) in
          if mounted (page w) then rerender w1 else w1
      | None => w
      end
  | Unmount =>
      if mounted (page w) then cleanup (with_page (set_mounted false) w)
      else w
  | SockOpen s =>
      match find_socket s w with
      | Some sk =>
          if ready_eqb (readyState sk) CONNECTING
          then ws_onopen (set_readyState s OPEN w) else w
      | None => w
      end
  | SockMessage s raw =>
      match find_socket s w with
      | Some sk =>
          if ready_eqb (readyState sk) OPEN
             || ready_eqb (readyState sk) CLOSING
          then snd (ws_onmessage raw w) else w
      | None => w
      end
  | SockError s =>
      match find_socket s w with
      | Some sk =>
          if ready_eqb (readyState sk) CLOSED then w
          else ws_onclose (sock_workflowId sk)
                 (ws_onerror (set_readyState s CLOSED w))
      | None => w
      end
  | SockClose s =>
      match find_socket s w with
      | Some sk =>
          if ready_eqb (readyState sk) CLOSED then w
          else ws_onclose (sock_workflowId sk) (set_readyState s CLOSED w)
      | None => w
      end
  | TimerFire t =>
      match find_timer t w with
      | Some tm => run_action (action tm) (clearTimeout t w)
      | None => w
      end
  end.

Fixpoint run (es : list Event) (w : World) : World :=
  match es with
  | [] => w
  | e :: rest => run rest (step e w)
  end.

End Step.

(** [Home] after its first render: every [useState] at its initial
    value, the hook rendered with [undefined] (its effect ran and
    [connect()] returned at once). *)
Definition initial : World :=
  {| hook := {| workflowId := None; socket := None; isConnected := false;
                messages := []; workflowStatus := None; wsArguments := [];
                debateTurns := []; feedback := None;
                reconnectTimeoutRef := None; cleanup_socket := None |};
     page := {| mounted := true; mode := single; workflowStarted := false;
                userInput := EmptyString; useMockData := false;
                mockArguments := []; mockDebateTurns := [];
                mockFeedback := None; awaiting := None |};
     sockets := []; timers := []; scheduled := []; console := [] |}.

End Workflow.

(* ================================================================== *)
(** ** The notification channel: [initializeWebSocket] of the main script *)
(* ================================================================== *)

Module Notification.
Import JS Exn.
Open Scope exn_scope.

Definition WS_URL : string := "ws://localhost:8000/ws".

(** The only timer callback this channel registers is
    [initializeWebSocket] itself. *)
Record Timer : Type := {
  timer_id : nat;
  delay : Z
}.

(** Calls into the rendering collaborators, in order.  What a
    collaborator does with its argument is outside this model; an
    exception it raised would leave the handler as well, since nothing
    catches it. *)
Inductive Effect : Type :=
| AnalysisPanel (analysis : option JSValue)    (* updateAnalysisPanel(data.analysis) *)
| CaseList (cases : option JSValue)            (* updateCaseList(data.cases) *)
| Toast (message : option JSValue) (level : JSValue).
    (* showToast(data.message, data.level || 'info') *)

Inductive LogEntry : Type :=
| LogConnected
| LogSocketError
| LogDisconnected
| LogInitFailed
| LogUncaught (e : JSError).   (* an exception that left an event handler *)

Record World : Type := {
  websocket : option nat;              (* AppState.websocket *)
  sockets : list Workflow.ReadyState;  (* socket [n] is the n-th created *)
  timers : list Timer;
  scheduled : list Timer;
  effects : list Effect;
  console : list LogEntry
}.

Definition log (e : LogEntry) (w : World) : World :=
  {| websocket := websocket w; sockets := sockets w; timers := timers w;
     scheduled := scheduled w; effects := effects w;
     console := (console w ++ [e])%list |}.

Definition emit (e : Effect) (w : World) : World :=
  {| websocket := websocket w; sockets := sockets w; timers := timers w;
     scheduled := scheduled w; effects := (effects w ++ [e])%list;
     console := console w |}.

(** [initializeWebSocket()]: [new WebSocket(WS_URL)] accepts the
    constant URL, so the [catch] branch is not taken. *)
Definition initializeWebSocket (w : World) : World :=
  {| websocket := Some (List.length (sockets w));
     sockets := (sockets w ++ [Workflow.CONNECTING])%list;
     timers := timers w; scheduled := scheduled w; effects := effects w;
     console := console w |}.

(** [setTimeout(initializeWebSocket, ms)] *)
Definition setTimeout (ms : Z) (w : World) : World :=
  let t := {| timer_id := S (List.length (scheduled w)); delay := ms |} in
  {| websocket := websocket w; sockets := sockets w;
     timers := (timers w ++ [t])%list;
     scheduled := (scheduled w ++ [t])%list;
     effects := effects w; console := console w |}.

Definition remove_timer (h : nat) (w : World) : World :=
  {| websocket := websocket w; sockets := sockets w;
     timers := filter (fun t => negb (Nat.eqb (timer_id t) h)) (timers w);
     scheduled := scheduled w; effects := effects w; console := console w |}.

Fixpoint set_nth (n : nat) (r : Workflow.ReadyState)
  (l : list Workflow.ReadyState) : list Workflow.ReadyState :=
  match n, l with
  | _, [] => []
  | O, _ :: rest => r :: rest
  | S n', x :: rest => x :: set_nth n' r rest
  end.

Definition set_readyState (s : nat) (r : Workflow.ReadyState) (w : World)
  : World :=
  {| websocket := websocket w; sockets := set_nth s r (sockets w);
     timers := timers w; scheduled := scheduled w; effects := effects w;
     console := console w |}.

(** [x || 'info'] *)
Definition or_info (x : option JSValue) : JSValue :=
  match x with
  | Some v => if truthy x then v else JStr "info"
  | None => JStr "info"
  end.

(** [handleWebSocketMessage(data)] *)
Definition handleWebSocketMessage (data : JSValue) : M World unit :=
  ty <- lift (get_prop data "type") ;;
  if strict_eq_str ty "analysis_update" then
    analysis <- lift (get_prop data "analysis") ;;
    modify (emit (AnalysisPanel analysis))
  else if strict_eq_str ty "case_update" then
    cases <- lift (get_prop data "cases") ;;
    modify (emit (CaseList cases))
  else if strict_eq_str ty "notification" then
    message <- lift (get_prop data "message") ;;
    level <- lift (get_prop data "level") ;;
    modify (emit (Toast message (or_info level)))
  else ret tt.

Section WithPlatform.
Context `{Platform}.

(** [AppState.websocket.onmessage]: no [try] surrounds the parse. *)
Definition onmessage (raw : string) : M World unit :=
  data <- lift (match JSON_parse raw with
                | Some v => inr v
                | None => inl SyntaxError
                end) ;;
  handleWebSocketMessage data.

End WithPlatform.

(** [AppState.websocket.onopen] *)
Definition onopen (w : World) : World := log LogConnected w.

(** [AppState.websocket.onerror] *)
Definition onerror (w : World) : World := log LogSocketError w.

(** [AppState.websocket.onclose] *)
Definition onclose (w : World) : World :=
  setTimeout 5000 (log LogDisconnected w).

Inductive Event : Type :=
| SockOpen (s : nat)
| SockMessage (s : nat) (raw : string)
| SockError (s : nat)
| SockClose (s : nat)
| TimerFire (t : nat).

Section Step.
Context `{Platform}.

(** Delivery of events as in the workflow channel; an exception that
    leaves a handler is reported by the browser and the handler's
    earlier effects stay. *)
Definition step (e : Event) (w : World) : World :=
  match e with
  | SockOpen s =>
      match nth_error (sockets w) s with
      | Some Workflow.CONNECTING => onopen (set_readyState s Workflow.OPEN w)
      | _ => w
      end
  | SockMessage s raw =>
      match nth_error (sockets w) s with
      | Some Workflow.OPEN =>
          match onmessage raw w with
          | (Ret _, w') => w'
          | (Throw err, w') => log (LogUncaught err) w'
          end
      | _ => w
      end
  | SockError s =>
      match nth_error (sockets w) s with
      | Some Workflow.CLOSED | None => w
      | Some _ => onclose (onerror (set_readyState s Workflow.CLOSED w))
      end
  | SockClose s =>
      match nth_error (sockets w) s with
      | Some Workflow.CLOSED | None => w
      | Some _ => onclose (set_readyState s Workflow.CLOSED w)
      end
  | TimerFire t =>
      if existsb (fun tm => Nat.eqb (timer_id tm) t) (timers w)
      then initializeWebSocket (remove_timer t w) else w
  end.

Fixpoint run (es : list Event) (w : World) : World :=
  match es with
  | [] => w
  | e :: rest => run rest (step e w)
  end.

End Step.

(** The page once [DOMContentLoaded] has called [initializeWebSocket]. *)
Definition initial : World :=
  initializeWebSocket
    {| websocket := None; sockets := []; timers := []; scheduled := [];
       effects := []; console := [] |}.

End Notification.

(* ================================================================== *)
(** ** Vocabulary for the statements about the stream accumulator *)
(* ================================================================== *)

Module StreamSpec.
Import JS Exn Stream.

Section WithPlatform.
Context `{Platform}.

(** The delta of a valid [content] line: the line starts with the
    marker, its payload parses, its [type] is ['content'] and its
    [content] is a string. *)
Definition content_of (line : string) : option string :=
  if startsWith line "data: " then
    match JSON_parse (slice 6 line) with
    | Some data =>
        match get_prop data "type", get_prop data "content" with
        | inr ty, inr (Some (JStr c)) =>
            if strict_eq_str ty "content" then Some c else None
        | _, _ => None
        end
    | None => None
    end
  else None.

(** A [complete] line. *)
Definition is_complete (line : string) : bool :=
  startsWith line "data: " &&
  match JSON_parse (slice 6 line) with
  | Some data =>
      match get_prop data "type" with
      | inr ty => strict_eq_str ty "complete"
      | inl _ => false
      end
  | None => false
  end.

(** A malformed line: no marker, or a payload that is not JSON. *)
Definition malformed (line : string) : bool :=
  negb (startsWith line "data: ") ||
  match JSON_parse (slice 6 line) with
  | Some _ => false
  | None => true
  end.

(** The state after one line, and after a list of lines. *)
Definition exec_line (line : string) (s : State) : State :=
  snd (process_line line s).

Definition exec_lines (lines : list string) (s : State) : State :=
  snd (process_lines lines s).

(** What a valid content line with delta [c] does to a state. *)
Definition after_content (c : string) (s : State) : State :=
  let s1 := set_local (assistantMessageId s) (accumulatedContent s ++ c) s in
  match assistantMessageId s with
  | Some t => snd (updateStreamingMessage (Some t) (accumulatedContent s ++ c) s1)
  | None =>
      match addAssistantMessage EmptyString true s1 with
      | (Ret fresh, s2) =>
          snd (updateStreamingMessage (Some fresh) (accumulatedContent s ++ c)
                 (set_local (Some fresh) (accumulatedContent s2) s2))
      | (Throw e, s2) => log_error e s2
      end
  end.

(** What a complete line does to a state. *)
Definition after_complete (s : State) : State :=
  match finalizeStreamingMessage (assistantMessageId s) s with
  | (Ret _, s') => s'
  | (Throw e, s') => log_error e s'
  end.

(** The accumulator the specification describes: the text of a read is
    appended to the retained segment, the result is split on the
    newline, the complete lines are parsed and the trailing segment is
    retained for the next read. *)
Fixpoint consume_buffered (buffer : string) (reads : list string)
  : M State unit :=
  match reads with
  | [] => ret tt
  | r :: rest =>
      let segments := split "010" (buffer ++ r) in
      bind (process_lines (removelast segments))
           (fun _ => consume_buffered (last segments EmptyString) rest)
  end.

End WithPlatform.

(** [c1 ++ c2 ++ ... ++ cn] *)
Definition concat_deltas (cs : list string) : string :=
  fold_right append EmptyString cs.

(** The running accumulations [acc ++ c1], [acc ++ c1 ++ c2], ... *)
Fixpoint running (acc : string) (cs : list string) : list string :=
  match cs with
  | [] => []
  | c :: rest => (acc ++ c) :: running (acc ++ c) rest
  end.

Definition is_update (c : Call) : bool :=
  match c with
  | CallUpdate _ _ => true
  | _ => false
  end.

Definition is_finalize (c : Call) : bool :=
  match c with
  | CallFinalize _ => true
  | _ => false
  end.

(** The incremental updates, and the finalizations, emitted so far. *)
Definition updates_of (s : State) : list Call := filter is_update (calls s).

Definition finalizes_of (s : State) : list Call :=
  filter is_finalize (calls s).


Fixpoint ends_with_newline (s : string) : bool :=
  match s with
  | EmptyString => false
  | String c EmptyString => Ascii.eqb c "010"
  | String _ rest => ends_with_newline rest
  end.

(** The session's message is finalized: its element carries neither the
    [streaming] class nor the cursor, and its stored entry, when the
    store holds one, has [isStreaming] false. *)
Definition session_complete (s : State) : bool :=
  match assistantMessageId s with
  | Some t =>
      match getElementById (Some t) (dom s) with
      | Some e =>
          negb (el_streaming e) && negb (el_cursor e) &&
          match messages s with
          | Some l =>
              match find (fun m => Z.eqb (msg_id m) t) l with
              | Some m => negb (msg_isStreaming m)
              | None => true
              end
          | None => false
          end
      | None => false
      end
  | None => false
  end.

(** Lines used to evaluate the accumulator on literal input. *)
Definition content_line (c : string) : string :=
  "data: {" ++ Mock.dq ++ "type" ++ Mock.dq ++ ":" ++ Mock.dq ++ "content"
  ++ Mock.dq ++ "," ++ Mock.dq ++ "content" ++ Mock.dq ++ ":" ++ Mock.dq
  ++ c ++ Mock.dq ++ "}".

Definition complete_line : string :=
  "data: {" ++ Mock.dq ++ "type" ++ Mock.dq ++ ":" ++ Mock.dq ++ "complete"
  ++ Mock.dq ++ "}".

Definition nl : string := String "010" EmptyString.

(** One content line, cut by a read boundary inside its payload. *)
Definition cut_reads : list string :=
  [ "data: {" ++ Mock.dq ++ "type" ++ Mock.dq ++ ":" ++ Mock.dq ++ "content"
    ++ Mock.dq ++ "," ++ Mock.dq ++ "con";
    "tent" ++ Mock.dq ++ ":" ++ Mock.dq ++ "hi" ++ Mock.dq ++ "}" ++ nl ].

(** A page on which the message store exists and one streaming message
    has been created and updated. *)
Definition streaming_state : State :=
  {| assistantMessageId := Some 5%Z; accumulatedContent := "hi";
     messages := Some [{| msg_id := 5; msg_type := "assistant";
                          msg_content := EmptyString;
                          msg_isStreaming := true |}];
     has_chatMessages := true; has_analysisTab := true; has_marked := true;
     dom := [{| el_id := 5; el_streaming := true; el_bubble := "hi";
                el_cursor := true |}];
     panel := []; now := 5; console := [];
     calls := [CallAddAssistant EmptyString true; CallUpdate (Some 5%Z) "hi"] |}.

End StreamSpec.

(* ================================================================== *)
(** ** Vocabulary for the statements about the two channels *)
(* ================================================================== *)

Module ChannelSpec.
Import JS Exn Mock Workflow.

(** A socket that has not been closed. *)
Definition live (s : Socket) : bool := negb (ready_eqb (readyState s) CLOSED).

Definition is_reconnect (t : Timer) : bool :=
  match action t with
  | Reconnect _ => true
  | _ => false
  end.

(** A timer of the fallback simulator. *)
Definition is_simulator (t : Timer) : bool := negb (is_reconnect t).

(** Live sockets plus pending reconnections of the hook. *)
Definition chain_count (w : World) : nat :=
  List.length (filter live (sockets w))
  + List.length (filter is_reconnect (timers w)).

(** What holds of every world the page can reach. *)
Record Invariant (w : World) : Prop := {
  inv_chain : chain_count w <= 1;
  inv_idle :
    workflowStarted (page w) = false ->
    sockets w = [] /\ timers w = [] /\ workflowId (hook w) = None
    /\ awaiting (page w) = None;
  inv_ids : forall t, In t (timers w) -> timer_id t <= List.length (scheduled w);
  inv_ref :
    forall h, reconnectTimeoutRef (hook w) = Some h ->
              h <= List.length (scheduled w)
              /\ forall t, In t (timers w) -> timer_id t = h ->
                           is_reconnect t = true
}.

(** One open, error, reconnect cycle of the workflow channel: socket
    [k] opens and fails, and the timer its close scheduled fires. *)
Definition retry_cycle (k : nat) : list Event :=
  [SockOpen k; SockError k; TimerFire (S k)].

Fixpoint retry_cycles (n : nat) : list Event :=
  match n with
  | O => []
  | S n' => (retry_cycles n' ++ retry_cycle n')%list
  end.

(** The page after the user typed [text] and pressed start. *)
Definition started `{Platform} (text : string) : World :=
  run 0 0 [SetUserInput text; StartClicked] initial.

(** The same cycle on the notification channel. *)
Definition notify_cycle (k : nat) : list Notification.Event :=
  [Notification.SockOpen k; Notification.SockError k;
   Notification.TimerFire (S k)].

Fixpoint notify_cycles (n : nat) : list Notification.Event :=
  match n with
  | O => []
  | S n' => (notify_cycles n' ++ notify_cycle n')%list
  end.

Definition closed_socket (i : nat) : Socket :=
  {| sock_id := i; sock_workflowId := MOCK_WORKFLOW_ID; readyState := CLOSED |}.

Definition retry_timer (i : nat) : Timer :=
  {| timer_id := S i; delay := 3000; action := Reconnect MOCK_WORKFLOW_ID |}.

(** Sockets [0 .. n-1] closed, socket [n] in state [r], the given
    timers pending and the given registrations made so far. *)
Definition shape (n : nat) (r : ReadyState) (pending sched : list Timer)
  (w : World) : Prop :=
  sockets w
  = (map closed_socket (seq 0 n)
     ++ [{| sock_id := n; sock_workflowId := MOCK_WORKFLOW_ID;
            readyState := r |}])%list /\
  timers w = pending /\
  scheduled w = sched.

Definition notify_timer (i : nat) : Notification.Timer :=
  {| Notification.timer_id := S i; Notification.delay := 5000 |}.

Definition notify_shape (n : nat) (r : ReadyState)
  (pending sched : list Notification.Timer) (w : Notification.World) : Prop :=
  Notification.sockets w = (repeat CLOSED n ++ [r])%list /\
  Notification.timers w = pending /\
  Notification.scheduled w = sched.

(** A world in which socket 0 of the workflow channel is open. *)
Definition open_world `{Platform} : World :=
  run 0 0 [SetUserInput "texting while walking"; StartClicked; SockOpen 0]
    initial.

(** A user who starts a single-mode analysis of
    ["texting while walking"], whose request fails, and who then
    leaves the page. *)
Definition abandoned_simulation : list Event :=
  [SetUserInput "texting while walking"; StartClicked; StartFailed 0;
   Unmount].

(** A [workflow_update] message as it arrives, and as it parses. *)
Definition workflow_update_text : string :=
  "{" ++ dq ++ "type" ++ dq ++ ":" ++ dq ++ "workflow_update" ++ dq ++ ","
  ++ dq ++ "status" ++ dq ++ ":" ++ dq ++ "running" ++ dq ++ "}".

Definition workflow_update_value : JSValue :=
  JObj [("type", JStr "workflow_update"); ("status", JStr "running")].

(** A message of [type] [ty] with one more field, as it arrives and as
    it parses. *)
Definition typed_text (ty key value : string) : string :=
  "{" ++ dq ++ "type" ++ dq ++ ":" ++ dq ++ ty ++ dq ++ ","
  ++ dq ++ key ++ dq ++ ":" ++ dq ++ value ++ dq ++ "}".

Definition typed_value (ty key value : string) : JSValue :=
  JObj [("type", JStr ty); (key, JStr value)].

(** The four typed projections of the hook's state. *)
Definition projections (h : Hook)
  : option JSValue * list JSValue * list JSValue * option JSValue :=
  (workflowStatus h, wsArguments h, debateTurns h, feedback h).

End ChannelSpec.

(* ================================================================== *)
(** ** Array operations the scripts use *)
(* ================================================================== *)

Module JSArray.

(** [l.slice(start)] for an integer [start]: a negative [start] counts
    from the end. *)
Definition slice_from {A : Type} (start : Z) (l : list A) : list A :=
  let len := Z.of_nat (List.length l) in
  let k := if (start <? 0)%Z then Z.max (len + start) 0 else Z.min start len in
  skipn (Z.to_nat k) l.

(** The last element, if any: [l.pop()] on a fresh array, or the value
    a sequence of overwrites leaves behind. *)
Fixpoint last_of {A : Type} (l : list A) : option A :=
  match l with
  | [] => None
  | [x] => Some x
  | _ :: rest => last_of rest
  end.

End JSArray.

(* ================================================================== *)
(** ** The request path of [chat.js]

    [sendEnhancedMessage] up to the request it builds, with
    [addUserMessage], [getConversationContext] and [regenerateResponse]. *)
(* ================================================================== *)

Module Conversation.
Import JS Exn Stream StreamSpec JSArray.
Open Scope exn_scope.

(** An entry of the conversation context: [role] and [content]. *)
Record ContextEntry : Type := {
  role : string;
  content : string
}.

(** [msg => ({ role: msg.type === 'user' ? 'user' : 'assistant',
    content: msg.content })] *)
Definition entry_of (msg : ChatMessage) : ContextEntry :=
  {| role := if String.eqb (msg_type msg) "user" then "user" else "assistant";
     content := msg_content msg |}.

(** [getConversationContext(limit)] *)
Definition getConversationContext (limit : Z) : M State (list ContextEntry) :=
  ms <- gets messages ;;
  match ms with
  | None => throw TypeError
  | Some l =>
      ret (map entry_of (slice_from (- limit) l))
  end.

(** [addUserMessage(content, files)]; the stored entry has no
    [isStreaming] property, which reads as false. *)
Definition addUserMessage (content : string) : M State Z :=
  messageId <- gets now ;;
  appendMessage {| el_id := messageId; el_streaming := false;
                   el_bubble := content; el_cursor := false |} ;;;
  ms <- gets messages ;;
  match ms with
  | None => throw TypeError
  | Some l =>
      modify (set_messages
                (Some (l ++ [{| msg_id := messageId; msg_type := "user";
                                msg_content := content;
                                msg_isStreaming := false |}])%list)) ;;;
      ret messageId
  end.

(** The request [sendEnhancedMessage] builds. *)
Record Request : Type := {
  req_message : string;
  req_files : nat;
  req_context : list ContextEntry
}.

(** [sendEnhancedMessage(message, files)] up to the request it hands to
    [sendStreamingMessage] or [sendRegularMessage]: [None] when it
    returns at its first line.  Nothing here is inside its [try].  The
    typing indicator it shows after [addUserMessage] returns is not a
    message element and is not part of [dom]. *)
Definition sendEnhancedMessage_request (message : string) (files : nat)
  : M State (option Request) :=
  if String.eqb message EmptyString && Nat.eqb files 0 then ret None
  else
    _ <- addUserMessage message ;;
    context <- getConversationContext 10 ;;
    ret (Some {| req_message := message; req_files := files;
                 req_context := context |}).

(** ['\n\n[请重新回答]'] *)
Definition regenerate_marker : string :=
  String "010" (String "010" "[请重新回答]").

Definition is_user (m : ChatMessage) : bool := String.eqb (msg_type m) "user".

(** [regenerateResponse(originalContent)], the main script being
    loaded (its toast is not part of this state).  What it returns is
    the request of the [sendEnhancedMessage] it awaits, if it makes
    one. *)
Definition regenerateResponse : M State (option Request) :=
  ms <- gets messages ;;
  match ms with
  | None => throw TypeError
  | Some l =>
      match last_of (filter is_user l) with
      | Some lastUserMessage =>
          sendEnhancedMessage_request
            (msg_content lastUserMessage ++ regenerate_marker) 0
      | None => ret None
      end
  end.

(** A page on which [ChatState.messages] has been set to an empty
    array before the request starts. *)
Definition with_store (marked : bool) (t : Z) : State :=
  set_messages (Some []) (start marked t).

(** An analysis line whose payload has a summary. *)
Definition analysis_line : string :=
  "data: {" ++ Mock.dq ++ "type" ++ Mock.dq ++ ":" ++ Mock.dq ++ "analysis"
  ++ Mock.dq ++ "," ++ Mock.dq ++ "analysis" ++ Mock.dq ++ ":{" ++ Mock.dq
  ++ "summary" ++ Mock.dq ++ ":" ++ Mock.dq ++ "ok" ++ Mock.dq ++ "}}".

(** Two stored messages, a question and its answer. *)
Definition two_messages : list ChatMessage :=
  [ {| msg_id := 1; msg_type := "user"; msg_content := "Is it valid?";
       msg_isStreaming := false |};
    {| msg_id := 2; msg_type := "assistant"; msg_content := "It depends.";
       msg_isStreaming := false |} ].

Definition is_analysis `{Platform} (line : string) : bool :=
  startsWith line "data: " &&
  match JSON_parse (slice 6 line) with
  | Some data =>
      match get_prop data "type" with
      | inr ty => strict_eq_str ty "analysis"
      | inl _ => false
      end
  | None => false
  end.

(** A page whose store holds these two messages. *)
Definition asked : State := set_messages (Some two_messages) (start true 9).

(** A state in which the session's message [t] is the last element of
    the document, shows [text] and is registered in the store. *)
Definition rendering (t : Z) (d : list Element) (l : list ChatMessage)
  (s : State) : Prop :=
  assistantMessageId s = Some t /\
  find (fun x => Z.eqb (el_id x) t) d = None /\
  dom s = (d ++ [{| el_id := t; el_streaming := true;
                    el_bubble := accumulatedContent s;
                    el_cursor := has_marked s |}])%list /\
  messages s = Some l.

End Conversation.

(* ================================================================== *)
(** ** Vocabulary for the statements about the fallback simulator *)
(* ================================================================== *)

Module Replay.
Import JS Exn Mock Workflow ChannelSpec.

(** [interval] of the two [forEach] loops of the catch block. *)
Definition interval_of (m : Mode) : Z :=
  match m with
  | single => 1000
  | debate => 2000
  end.

(** The callbacks the catch block registers for a scenario, in order. *)
Definition scenario_actions (r : MockResponse) : list TimerAction :=
  match r with
  | SingleScenario arguments feedback =>
      (map AppendMockArgument arguments ++ [SetMockFeedback feedback])%list
  | DebateScenario turns feedback =>
      (map AppendMockTurn turns ++ [SetMockFeedback feedback])%list
  end.

(** Registrations numbered from [base + 1], the one at position [index]
    due after [interval * (index + 1)] ms. *)
Fixpoint timers_from (base : nat) (interval : Z) (index : Z)
  (actions : list TimerAction) : list Timer :=
  match actions with
  | [] => []
  | a :: rest =>
      {| timer_id := S base; delay := interval * (index + 1); action := a |}
      :: timers_from (S base) interval (index + 1) rest
  end.

(** What a simulator callback does to the page. *)
Definition page_effect (p : Page) (a : TimerAction) : Page :=
  match a with
  | Reconnect _ => p
  | AppendMockArgument arg =>
      setMockArguments (fun prev => (prev ++ [arg])%list) p
  | AppendMockTurn t => setMockDebateTurns (fun prev => (prev ++ [t])%list) p
  | SetMockFeedback fb => setMockFeedback (Some fb) p
  end.

(** The ASCII lower-case form of each byte. *)
Fixpoint lower_each (s : string) : string :=
  match s with
  | EmptyString => EmptyString
  | String c rest => String (lower_ascii c) (lower_each rest)
  end.

(** A byte below 128, and a text made of such bytes. *)
Definition is_ascii (c : ascii) : Prop := nat_of_ascii c < 128.

Fixpoint all_ascii (s : string) : Prop :=
  match s with
  | EmptyString => True
  | String c rest => is_ascii c /\ all_ascii rest
  end.

End Replay.

(* ================================================================== *)
(** ** Vocabulary for the statements about the hook's state *)
(* ================================================================== *)

Module HookSpec.
Import JS Exn Mock Workflow ChannelSpec JSArray.

(** [data.type === ty] for a received value; false when reading
    [data.type] raises. *)
Definition has_type (ty : string) (data : JSValue) : bool :=
  match get_prop data "type" with
  | inr t => strict_eq_str t ty
  | inl _ => false
  end.

(** The five pieces of state the message handler writes. *)
Definition buckets (h : Hook)
  : list JSValue * option JSValue * list JSValue * list JSValue
    * option JSValue :=
  (messages h, workflowStatus h, wsArguments h, debateTurns h, feedback h).

(** Each bucket is what its [case] would have collected from the log. *)
Definition Folded (h : Hook) : Prop :=
  wsArguments h = filter (has_type "argument_generated") (messages h) /\
  debateTurns h = filter (has_type "debate_turn") (messages h) /\
  workflowStatus h
  = last_of (filter (has_type "workflow_update") (messages h)) /\
  feedback h = last_of (filter (has_type "feedback_ready") (messages h)).


(** How the hook's state and the browser's sockets hang together. *)
Record Linked (w : World) : Prop := {
  lk_ids : forall i sk, nth_error (sockets w) i = Some sk -> sock_id sk = i;
  lk_socket :
    forall sk, In sk (sockets w) -> live sk = true ->
               socket (hook w) = Some (sock_id sk);
  lk_connected :
    isConnected (hook w) = true ->
    exists sk, In sk (sockets w) /\
               (readyState sk = OPEN \/ readyState sk = CLOSING);
  lk_open :
    forall sk, In sk (sockets w) -> readyState sk = OPEN ->
               isConnected (hook w) = true;
  lk_workflow :
    forall sk, In sk (sockets w) -> sock_workflowId sk = MOCK_WORKFLOW_ID;
  lk_retry :
    forall t id, In t (timers w) -> action t = Reconnect id ->
                 id = MOCK_WORKFLOW_ID
}.

(** The user starts an analysis and the socket of the workflow opens. *)
Definition opened : list Event :=
  [SetUserInput "texting while walking"; StartClicked; SockOpen 0].

End HookSpec.
(* ================================================================== *)
(** ** Vocabulary for the statements about the notification channel *)
(* ================================================================== *)

Module NotificationSpec.
Import Workflow ChannelSpec.

(** The state of the chain after [n] sockets were closed and the last
    one created is in state [r]. *)
Definition chain (n : nat) (r : ReadyState) (w : Notification.World) : Prop :=
  Notification.sockets w = (repeat CLOSED n ++ [r])%list /\
  Notification.websocket w = Some n /\
  Notification.timers w
  = (if ready_eqb r CLOSED then [notify_timer n] else []) /\
  List.length (Notification.scheduled w)
  = (if ready_eqb r CLOSED then S n else n).

End NotificationSpec.

(* ================================================================== *)
(** ** [debounce] and [throttle] of the main script

    Each call of [debounce(func, wait)] or [throttle(func, limit)]
    returns a closure with one private variable.  The state of such a
    closure is modelled together with the timers it has pending and the
    invocations of [func] it has made.  [func] is a function that
    returns; its arguments are a value of type [A]. *)
(* ================================================================== *)

Module Timing.

Section Closures.
Variable A : Type.

(** A timer registered by [executedFunction]: [later] closes over the
    arguments of that call. *)
Record Later : Type := {
  later_id : nat;
  later_delay : Z;
  later_args : A
}.

Record Debounced : Type := {
  timeout : option nat;        (* [let timeout], undefined at first *)
  waiting : list Later;        (* timers of this closure not yet fired *)
  issued : nat;                (* handles given out so far *)
  invoked : list A             (* calls of [func], in order *)
}.

(** [clearTimeout(timeout)]; an undefined handle clears nothing. *)
Definition clear (h : option nat) (l : list Later) : list Later :=
  match h with
  | Some i => filter (fun t => negb (Nat.eqb (later_id t) i)) l
  | None => l
  end.

(** [executedFunction(...args)] *)
Definition executedFunction (wait : Z) (args : A) (d : Debounced)
  : Debounced :=
  let h := S (issued d) in
  {| timeout := Some h;
     waiting := (clear (timeout d) (waiting d)
                 ++ [{| later_id := h; later_delay := wait;
                        later_args := args |}])%list;
     issued := h;
     invoked := invoked d |}.

(** [later()], for the call that was made with [args]. *)
Definition later (args : A) (d : Debounced) : Debounced :=
  {| timeout := timeout d;
     waiting := clear (timeout d) (waiting d);
     issued := issued d;
     invoked := (invoked d ++ [args])%list |}.

Inductive DebounceEvent : Type :=
| Call (args : A)
| Fire (h : nat).      (* the timer with handle [h] comes due *)

Definition debounce_step (wait : Z) (e : DebounceEvent) (d : Debounced)
  : Debounced :=
  match e with
  | Call args => executedFunction wait args d
  | Fire h =>
      match find (fun t => Nat.eqb (later_id t) h) (waiting d) with
      | Some t =>
          later (later_args t)
            {| timeout := timeout d;
               waiting := filter (fun x => negb (Nat.eqb (later_id x) h))
                                 (waiting d);
               issued := issued d; invoked := invoked d |}
      | None => d
      end
  end.

Fixpoint debounce_run (wait : Z) (es : list DebounceEvent) (d : Debounced)
  : Debounced :=
  match es with
  | [] => d
  | e :: rest => debounce_run wait rest (debounce_step wait e d)
  end.

(** The closure as [debounce] returns it. *)
Definition debounced : Debounced :=
  {| timeout := None; waiting := []; issued := 0; invoked := [] |}.

(** The only timer that can be waiting is the one [timeout] names. *)
Definition settled (wait : Z) (d : Debounced) : Prop :=
  (waiting d = [] \/
   exists args, timeout d = Some (issued d) /\
     waiting d = [{| later_id := issued d; later_delay := wait;
                     later_args := args |}]) /\
  (forall h, timeout d = Some h -> h <= issued d).

Record Throttled : Type := {
  inThrottle : bool;           (* [let inThrottle], undefined at first *)
  resets : list nat;           (* pending [() => inThrottle = false] timers *)
  handles : nat;
  passed : list A              (* calls of [func], in order *)
}.

(** The function [throttle] returns. *)
Definition throttled_call (args : A) (t : Throttled) : Throttled :=
  if inThrottle t then t
  else {| inThrottle := true;
          resets := (resets t ++ [S (handles t)])%list;
          handles := S (handles t);
          passed := (passed t ++ [args])%list |}.

Inductive ThrottleEvent : Type :=
| TCall (args : A)
| TFire (h : nat).

Definition throttle_step (e : ThrottleEvent) (t : Throttled) : Throttled :=
  match e with
  | TCall args => throttled_call args t
  | TFire h =>
      if existsb (Nat.eqb h) (resets t)
      then {| inThrottle := false;
              resets := filter (fun x => negb (Nat.eqb x h)) (resets t);
              handles := handles t; passed := passed t |}
      else t
  end.

Fixpoint throttle_run (es : list ThrottleEvent) (t : Throttled) : Throttled :=
  match es with
  | [] => t
  | e :: rest => throttle_run rest (throttle_step e t)
  end.

Definition throttled : Throttled :=
  {| inThrottle := false; resets := []; handles := 0; passed := [] |}.

Definition is_fire (e : ThrottleEvent) : bool :=
  match e with
  | TFire _ => true
  | TCall _ => false
  end.

(** The closure is throttled exactly while its one timer is pending. *)
Definition paced (t : Throttled) : Prop :=
  (inThrottle t = true /\ resets t = [handles t]) \/
  (inThrottle t = false /\ resets t = []).

End Closures.

Arguments later_id {A}.
Arguments later_delay {A}.
Arguments later_args {A}.
Arguments timeout {A}.
Arguments waiting {A}.
Arguments issued {A}.
Arguments invoked {A}.
Arguments clear {A}.
Arguments executedFunction {A}.
Arguments later {A}.
Arguments debounce_step {A}.
Arguments debounce_run {A}.
Arguments settled {A}.
Arguments inThrottle {A}.
Arguments resets {A}.
Arguments handles {A}.
Arguments passed {A}.
Arguments throttled_call {A}.
Arguments throttle_step {A}.
Arguments throttle_run {A}.
Arguments is_fire {A}.
Arguments paced {A}.
Arguments Call {A} args.
Arguments Fire {A} h.
Arguments TCall {A} args.
Arguments TFire {A} h.
Arguments debounced {A}.
Arguments throttled {A}.

End Timing.
(* ================================================================== *)
(** ** The chat of the main script

    [sendMessage], [addMessage], the typing indicator,
    [clearChatHistory], [exportChatHistory] and [toggleTheme], on a page
    that has the elements [initializeDOM] looks up.  A call of
    [sendMessage] is suspended at its [fetch]; the answer arrives as a
    later event. *)
(* ================================================================== *)

Module MainChat.
Import JS Exn Workflow.
Open Scope exn_scope.

(** [s.trimStart()] *)
Fixpoint trimStart (s : string) : string :=
  match s with
  | EmptyString => EmptyString
  | String c r =>
      if ascii_space c then trimStart r
      else
        match r with
        | String c1 r1 =>
            if Nat.eqb (nat_of_ascii c) 194 && Nat.eqb (nat_of_ascii c1) 160
            then trimStart r1
            else
              match r1 with
              | String c2 r2 => if wide_space c c1 c2 then trimStart r2 else s
              | EmptyString => s
              end
        | EmptyString => s
        end
  end.

(** [s.trimEnd()]: the text up to the point from which only white
    space follows. *)
Fixpoint trimEnd (s : string) : string :=
  match s with
  | EmptyString => EmptyString
  | String c r => if blank s then EmptyString else String c (trimEnd r)
  end.

(** [s.trim()] *)
Definition trim (s : string) : string := trimEnd (trimStart s).

(** A child of [DOM.chatMessages]. *)
Inductive Node : Type :=
| Welcome                                          (* .message-welcome *)
| Bubble (type : string) (content : option JSValue) (* .message *)
| Typing.                                          (* .typing-indicator *)

(** An entry of [AppState.messages]. *)
Record Stored : Type := {
  st_type : string;
  st_content : option JSValue
}.

Inductive Toast : Type :=
| ToastCleared          (* showToast('聊天记录已清除', 'success') *)
| ToastNothingToExport  (* showToast('没有可导出的聊天记录', 'warning') *)
| ToastExported.        (* showToast('聊天记录已导出', 'success') *)

Record World : Type := {
  input : string;             (* DOM.chatInput.value *)
  chat : list Node;           (* the children of DOM.chatMessages *)
  store : list Stored;        (* AppState.messages *)
  theme : string;             (* AppState.theme *)
  saved_theme : option string; (* localStorage 'theme' *)
  has_analysisTab : bool;
  panel : list JSValue;       (* analyses rendered into #analysisTab *)
  posted : list string;       (* the [message] of each request sent *)
  in_flight : nat;            (* calls of sendMessage waiting for their answer *)
  toasts : list Toast;
  exports : list (list Stored);  (* the [messages] of each file offered *)
  console : list JSError
}.

Definition with_chat (c : list Node) (st : list Stored) (w : World) : World :=
  {| input := input w; chat := c; store := st; theme := theme w;
     saved_theme := saved_theme w;
     has_analysisTab := has_analysisTab w; panel := panel w;
     posted := posted w; in_flight := in_flight w; toasts := toasts w;
     exports := exports w; console := console w |}.

Definition set_input (v : string) (w : World) : World :=
  {| input := v; chat := chat w; store := store w; theme := theme w;
     saved_theme := saved_theme w;
     has_analysisTab := has_analysisTab w; panel := panel w;
     posted := posted w; in_flight := in_flight w; toasts := toasts w;
     exports := exports w; console := console w |}.

Definition set_panel (p : list JSValue) (w : World) : World :=
  {| input := input w; chat := chat w; store := store w; theme := theme w;
     saved_theme := saved_theme w;
     has_analysisTab := has_analysisTab w; panel := p;
     posted := posted w; in_flight := in_flight w; toasts := toasts w;
     exports := exports w; console := console w |}.

Definition set_flight (req : list string) (n : nat) (w : World) : World :=
  {| input := input w; chat := chat w; store := store w; theme := theme w;
     saved_theme := saved_theme w;
     has_analysisTab := has_analysisTab w; panel := panel w;
     posted := req; in_flight := n; toasts := toasts w;
     exports := exports w; console := console w |}.

Definition showToast (t : Toast) (w : World) : World :=
  {| input := input w; chat := chat w; store := store w; theme := theme w;
     saved_theme := saved_theme w;
     has_analysisTab := has_analysisTab w; panel := panel w;
     posted := posted w; in_flight := in_flight w;
     toasts := (toasts w ++ [t])%list;
     exports := exports w; console := console w |}.

Definition log_error (e : JSError) (w : World) : World :=
  {| input := input w; chat := chat w; store := store w; theme := theme w;
     saved_theme := saved_theme w;
     has_analysisTab := has_analysisTab w; panel := panel w;
     posted := posted w; in_flight := in_flight w; toasts := toasts w;
     exports := exports w; console := (console w ++ [e])%list |}.

Definition is_welcome (n : Node) : bool :=
  match n with Welcome => true | _ => false end.

Definition is_typing (n : Node) : bool :=
  match n with Typing => true | _ => false end.

(** [querySelector(sel)?.remove()]: the first match goes. *)
Fixpoint remove_first (p : Node -> bool) (l : list Node) : list Node :=
  match l with
  | [] => []
  | n :: rest => if p n then rest else n :: remove_first p rest
  end.

(** [addMessage(type, content)] *)
Definition addMessage (type : string) (content : option JSValue) (w : World)
  : World :=
  with_chat (remove_first is_welcome (chat w) ++ [Bubble type content])%list
            (store w ++ [{| st_type := type; st_content := content |}])%list
            w.

(** [showTypingIndicator()] *)
Definition showTypingIndicator (w : World) : World :=
  with_chat (chat w ++ [Typing])%list (store w) w.

(** [hideTypingIndicator()] *)
Definition hideTypingIndicator (w : World) : World :=
  with_chat (remove_first is_typing (chat w)) (store w) w.

(** The text shown when a request fails. *)
Definition apology : string := "抱歉，发送消息时出现错误。请稍后重试。".

(** [sendMessage()] up to its [await fetch(...)]. *)
Definition sendMessage_begin (w : World) : World :=
  let message := trim (input w) in
  if String.eqb message EmptyString then w
  else
    let w1 := addMessage "user" (Some (JStr message)) w in
    let w2 := set_input EmptyString w1 in
    let w3 := showTypingIndicator w2 in
    set_flight (posted w3 ++ [message])%list (S (in_flight w3)) w3.

(** What the awaited request and [response.json()] produce. *)
Inductive Answer : Type :=
| Failed                    (* fetch or json() rejects, or !response.ok *)
| Answered (data : JSValue).

(** The template of [updateAnalysisPanel] completes for [a]. *)
Definition renders (a : JSValue) : bool :=
  match get_prop a "summary", get_prop a "risks",
        get_prop a "recommendations" with
  | inr summary, inr risks, inr recs =>
      (negb (truthy summary) || interpolates summary)
      && Stream.section_completes risks Stream.risk_ok
      && Stream.section_completes recs printable
  | _, _, _ => false
  end.

(** [updateAnalysisPanel(analysis)] on this page, for the truthy
    argument [sendMessage] passes. *)
Definition updateAnalysisPanel (a : JSValue) : M World unit :=
  tab <- gets has_analysisTab ;;
  if tab then
    if renders a then modify (fun w => set_panel (panel w ++ [a])%list w)
    else throw TypeError
  else ret tt.

(** The rest of the [try] block of [sendMessage]. *)
Definition sendMessage_try (data : JSValue) : M World unit :=
  modify hideTypingIndicator ;;;
  response <- lift (get_prop data "response") ;;
  modify (addMessage "assistant" response) ;;;
  analysis <- lift (get_prop data "analysis") ;;
  match analysis with
  | Some a => if truthy analysis then updateAnalysisPanel a else ret tt
  | None => ret tt
  end.

(** The [catch] block of [sendMessage]. *)
Definition sendMessage_catch (e : JSError) : M World unit :=
  modify (log_error e) ;;;
  modify hideTypingIndicator ;;;
  modify (addMessage "assistant" (Some (JStr apology))).

(** A suspended [sendMessage] resumes with [a]. *)
Definition sendMessage_resume (a : Answer) (w : World) : World :=
  let w0 := set_flight (posted w) (pred (in_flight w)) w in
  match a with
  | Failed => snd (sendMessage_catch OtherError w0)
  | Answered data => snd (try_catch (sendMessage_try data) sendMessage_catch w0)
  end.

(** [clearChatHistory()], the user having answered the [confirm]. *)
Definition clearChatHistory (confirmed : bool) (w : World) : World :=
  if confirmed then showToast ToastCleared (with_chat [Welcome] [] w) else w.

(** [exportChatHistory()] *)
Definition exportChatHistory (w : World) : World :=
  match store w with
  | [] => showToast ToastNothingToExport w
  | _ =>
      showToast ToastExported
        {| input := input w; chat := chat w; store := store w;
           theme := theme w; saved_theme := saved_theme w;
           has_analysisTab := has_analysisTab w; panel := panel w;
           posted := posted w; in_flight := in_flight w; toasts := toasts w;
           exports := (exports w ++ [store w])%list; console := console w |}
  end.

(** [toggleTheme()] *)
Definition toggleTheme (w : World) : World :=
  let t := if String.eqb (theme w) "light" then "dark" else "light" in
  {| input := input w; chat := chat w; store := store w; theme := t;
     saved_theme := Some t;
     has_analysisTab := has_analysisTab w; panel := panel w;
     posted := posted w; in_flight := in_flight w; toasts := toasts w;
     exports := exports w; console := console w |}.

(** [AppState.theme] as the script computes it when it loads:
    [localStorage.getItem('theme') || 'light']. *)
Definition initial_theme (saved : option string) : string :=
  match saved with
  | Some t => if String.eqb t EmptyString then "light" else t
  | None => "light"
  end.

Inductive Event : Type :=
| Type_ (text : string)          (* the user edits the input box *)
| Send                           (* the send button, or Enter *)
| Resume (a : Answer)            (* a request is settled *)
| Clear (confirmed : bool)
| Export
| ToggleTheme.

Definition step (e : Event) (w : World) : World :=
  match e with
  | Type_ text => set_input text w
  | Send => sendMessage_begin w
  | Resume a =>
      match in_flight w with
      | O => w
      | S _ => sendMessage_resume a w
      end
  | Clear confirmed => clearChatHistory confirmed w
  | Export => exportChatHistory w
  | ToggleTheme => toggleTheme w
  end.

Fixpoint run (es : list Event) (w : World) : World :=
  match es with
  | [] => w
  | e :: rest => run rest (step e w)
  end.

(** The messages the chat shows, in order. *)
Fixpoint shown (l : list Node) : list Stored :=
  match l with
  | [] => []
  | Bubble type content :: rest =>
      {| st_type := type; st_content := content |} :: shown rest
  | _ :: rest => shown rest
  end.

(** What the chat shows is what is stored. *)
Definition consistent (w : World) : Prop := shown (chat w) = store w.

(** The typing indicators on the page. *)
Definition indicators (w : World) : nat :=
  List.length (filter is_typing (chat w)).

(** A page that shows the welcome message, with nothing stored and no
    request under way. *)
Definition loaded (saved : option string) : World :=
  {| input := EmptyString; chat := [Welcome]; store := [];
     theme := initial_theme saved; saved_theme := saved;
     has_analysisTab := true; panel := [];
     posted := []; in_flight := 0; toasts := []; exports := [];
     console := [] |}.




End MainChat.
(* ================================================================== *)
(** ** Facts about the JavaScript primitives *)
(* ================================================================== *)

Module JSFacts.
Import JS.

Lemma strict_eq_str_true x a : strict_eq_str x a = true -> x = Some (JStr a).
Proof.
  destruct x as [[]|]; cbn; try discriminate.
  intros Hs. apply String.eqb_eq in Hs. now subst.
Qed.

Lemma append_nil_r (a : string) : a ++ EmptyString = a.
Proof. induction a as [|c a IH]; cbn; [reflexivity | now rewrite IH]. Qed.

Lemma append_assoc (a b c : string) : (a ++ b) ++ c = a ++ (b ++ c).
Proof. induction a as [|x a IH]; cbn; [reflexivity | now rewrite IH]. Qed.

Lemma split_nonempty sep s : split sep s <> [].
Proof.
  destruct s as [|c r]; cbn; [discriminate|].
  destruct (Ascii.eqb c sep); [discriminate|].
  destruct (split sep r); discriminate.
Qed.

(** Splitting distributes over a newline in the text. *)
Lemma split_app_newline a b :
  split "010" (a ++ String "010" b) = (split "010" a ++ split "010" b)%list.
Proof.
  induction a as [|c a IH]; [reflexivity|].
  cbn [append split]. rewrite IH. destruct (Ascii.eqb c "010"); [reflexivity|].
  pose proof (split_nonempty "010" a) as Hne.
  destruct (split "010" a) as [|seg segs]; [congruence|]. reflexivity.
Qed.

End JSFacts.

(* ================================================================== *)
(** ** The stream accumulator: facts *)
(* ================================================================== *)

Module StreamFacts.
Import JS Exn Stream StreamSpec JSFacts.

Section WithPlatform.
Context `{Platform}.

Lemma content_of_inv line c :
  content_of line = Some c ->
  startsWith line "data: " = true /\
  exists data ty, JSON_parse (slice 6 line) = Some data /\
    get_prop data "type" = inr ty /\ strict_eq_str ty "content" = true /\
    get_prop data "content" = inr (Some (JStr c)).
Proof.
  unfold content_of. destruct (startsWith line "data: "); [|discriminate].
  destruct (JSON_parse (slice 6 line)) as [data|]; [|discriminate].
  intros Hc. split; [reflexivity|]. exists data.
  destruct (get_prop data "type") as [e|ty]; [discriminate|].
  exists ty. split; [reflexivity|]. split; [reflexivity|].
  destruct (get_prop data "content") as [e|[[]|]]; try discriminate.
  destruct (strict_eq_str ty "content"); [|discriminate].
  injection Hc as ->. split; reflexivity.
Qed.

Lemma process_line_content line c s :
  content_of line = Some c ->
  process_line line s = (Ret tt, after_content c s).
Proof.
  intros Hc. destruct (content_of_inv _ _ Hc) as (Hm & data & ty & Hp & Hty & Hs & Hcont).
  unfold process_line, after_content. rewrite Hm.
  unfold try_catch, handle_data, bind, lift. rewrite Hp. cbn [ret].
  rewrite Hty. cbn [ret]. rewrite Hs. rewrite Hcont. cbn [ret].
  unfold modify, gets. cbn [concat_value ToString].
  destruct s as [id acc ms hc ha hm d p n co ca]. cbn.
  destruct id as [t|]; cbn.
  - unfold updateStreamingMessage, bind, modify, gets; cbn.
    destruct (find _ d); reflexivity.
  - unfold addAssistantMessage, appendMessage, bind, modify, gets, throw; cbn.
    destruct ms; cbn.
    + unfold updateStreamingMessage, bind, modify, gets, set_messages; cbn.
      destruct hc; cbn; destruct (find _ _); reflexivity.
    + destruct hc; reflexivity.
Qed.

Lemma after_content_accumulates c s :
  accumulatedContent (after_content c s) = accumulatedContent s ++ c.
Proof.
  unfold after_content.
  destruct s as [id acc ms hc ha hm d p n co ca]. cbn.
  destruct id as [t|]; cbn.
  - unfold updateStreamingMessage, bind, modify, gets; cbn.
    destruct (find _ d); reflexivity.
  - unfold addAssistantMessage, appendMessage, bind, modify, gets, throw; cbn.
    destruct ms; cbn.
    + unfold updateStreamingMessage, bind, modify, gets, set_messages; cbn.
      destruct hc; cbn; destruct (find _ _); reflexivity.
    + destruct hc; reflexivity.
Qed.


Lemma process_lines_cons line rest s :
  fst (process_line line s) = Ret tt ->
  process_lines (line :: rest) s = process_lines rest (snd (process_line line s)).
Proof.
  cbn [process_lines]. unfold bind. destruct (process_line line s) as [[[]|e] s'].
  - reflexivity.
  - discriminate.
Qed.

(** No exception leaves [process_line], whatever the line. *)
Lemma process_line_returns line s : fst (process_line line s) = Ret tt.
Proof.
  unfold process_line. destruct (startsWith line "data: "); [|reflexivity].
  unfold try_catch. destruct (handle_data line s) as [[[]|e] s']; reflexivity.
Qed.

Lemma process_lines_returns lines : forall s, fst (process_lines lines s) = Ret tt.
Proof.
  induction lines as [|l rest IH]; intros s; [reflexivity|].
  rewrite process_lines_cons by apply process_line_returns. apply IH.
Qed.

Lemma exec_lines_cons line rest s :
  exec_lines (line :: rest) s = exec_lines rest (exec_line line s).
Proof.
  unfold exec_lines, exec_line.
  rewrite process_lines_cons by apply process_line_returns. reflexivity.
Qed.

Lemma exec_lines_app l1 : forall l2 s,
  exec_lines (l1 ++ l2) s = exec_lines l2 (exec_lines l1 s).
Proof.
  induction l1 as [|l rest IH]; intros l2 s; [reflexivity|].
  cbn [app]. rewrite !exec_lines_cons. apply IH.
Qed.

Lemma exec_line_content line c s :
  content_of line = Some c -> exec_line line s = after_content c s.
Proof.
  intros Hc. unfold exec_line. rewrite (process_line_content _ _ _ Hc). reflexivity.
Qed.

(** Order-preserving concatenation, in every state. *)
Lemma content_lines_accumulate lines : forall cs s,
  Forall2 (fun l c => content_of l = Some c) lines cs ->
  accumulatedContent (exec_lines lines s)
  = accumulatedContent s ++ concat_deltas cs.
Proof.
  induction lines as [|l rest IH]; intros cs s HF; inversion HF; subst.
  - cbn. now rewrite append_nil_r.
  - rewrite exec_lines_cons, (IH _ _ H4), (exec_line_content _ _ _ H2).
    rewrite after_content_accumulates. cbn. apply append_assoc.
Qed.



Lemma after_content_registered c s l :
  messages s = Some l ->
  let s' := after_content c s in
  (exists l', messages s' = Some l') /\
  (exists t, assistantMessageId s' = Some t /\
     updates_of s' = (updates_of s ++ [CallUpdate (Some t) (accumulatedContent s ++ c)])%list /\
     (forall t0, assistantMessageId s = Some t0 -> t = t0)).
Proof.
  destruct s as [id acc ms hc ha hm d p n co ca]. cbn. intros ->.
  unfold after_content, updates_of; cbn. destruct id as [t|]; cbn.
  - unfold updateStreamingMessage, bind, modify, gets; cbn.
    split; [destruct (find _ d); cbn; eauto|].
    exists t. destruct (find _ d); cbn; rewrite filter_app; cbn; repeat split; auto;
      intros ? [= ->]; reflexivity.
  - unfold addAssistantMessage, appendMessage, bind, modify, gets, throw; cbn.
    unfold updateStreamingMessage, bind, modify, gets, set_messages; cbn.
    split; [destruct hc; cbn; destruct (find _ _); cbn; eauto|].
    exists n. destruct hc; cbn; destruct (find _ _); cbn;
      rewrite !filter_app; cbn; rewrite app_nil_r; repeat split; auto; discriminate.
Qed.

(** With the message store defined, every content line is followed by
    one update carrying the text accumulated so far. *)
Lemma content_lines_registered lines : forall cs s l,
  Forall2 (fun l c => content_of l = Some c) lines cs ->
  messages s = Some l ->
  let s' := exec_lines lines s in
  (exists l', messages s' = Some l') /\
  updates_of s'
  = (updates_of s
       ++ map (CallUpdate (assistantMessageId s'))
              (running (accumulatedContent s) cs))%list /\
  (forall t0, assistantMessageId s = Some t0 -> assistantMessageId s' = Some t0) /\
  (lines <> [] -> exists t, assistantMessageId s' = Some t).
Proof.
  induction lines as [|ln rest IH]; intros cs s l HF Hm;
    inversion HF as [|? c ? cs' Hc HF']; subst; cbn zeta.
  - cbn. rewrite app_nil_r. repeat split; eauto. congruence.
  - rewrite exec_lines_cons, (exec_line_content _ _ _ Hc).
    destruct (after_content_registered c s l Hm)
      as ((l1 & Hm1) & t & Hid & Hup & Hsame).
    destruct (IH _ _ l1 HF' Hm1) as (Hm2 & Hup2 & Hkeep & _).
    specialize (Hkeep t Hid).
    repeat split.
    + exact Hm2.
    + rewrite Hup2, Hup, Hkeep, after_content_accumulates. cbn [running map].
      now rewrite <- app_assoc.
    + intros t0 Ht0. rewrite Hkeep. f_equal. now apply Hsame.
    + intros _. eauto.
Qed.

Lemma exec_line_malformed line s :
  malformed line = true ->
  exec_line line s = s \/ exec_line line s = log_error SyntaxError s.
Proof.
  unfold malformed, exec_line, process_line. intros Hm.
  destruct (startsWith line "data: "); [|left; reflexivity].
  right. unfold try_catch, handle_data, bind, lift.
  destruct (JSON_parse (slice 6 line)) eqn:E; [discriminate Hm|]. reflexivity.
Qed.

Lemma consume_returns reads : forall s, fst (consume reads s) = Ret tt.
Proof.
  induction reads as [|r rest IH]; intros s; [reflexivity|].
  cbn [consume]. unfold bind, process_read.
  pose proof (process_lines_returns (split "010" r) s) as Hr.
  destruct (process_lines (split "010" r) s) as [[[]|e] s']; [apply IH|discriminate].
Qed.

Lemma ends_with_newline_inv r :
  ends_with_newline r = true -> exists a, r = a ++ String "010" EmptyString.
Proof.
  induction r as [|c r IH]; [discriminate|].
  cbn [ends_with_newline]. destruct r as [|c' r'].
  - intros Hc. apply Ascii.eqb_eq in Hc. subst. exists EmptyString. reflexivity.
  - intros Hr. destruct (IH Hr) as (a & Ha). exists (String c a).
    cbn. now rewrite <- Ha.
Qed.

Lemma removelast_snoc {A} (l : list A) x : removelast (l ++ [x]) = l.
Proof. rewrite removelast_app by discriminate. cbn. apply app_nil_r. Qed.

Lemma last_snoc {A} (l : list A) x d : last (l ++ [x]) d = x.
Proof. apply last_last. Qed.

Lemma consume_cons r rest s :
  consume (r :: rest) s = consume rest (exec_lines (split "010" r) s).
Proof.
  cbn [consume]. unfold bind, process_read, exec_lines.
  pose proof (process_lines_returns (split "010" r) s) as Hr.
  destruct (process_lines (split "010" r) s) as [[[]|e] s']; [reflexivity|discriminate].
Qed.

Lemma consume_buffered_cons b r rest s :
  consume_buffered b (r :: rest) s
  = consume_buffered (last (split "010" (b ++ r)) EmptyString) rest
      (exec_lines (removelast (split "010" (b ++ r))) s).
Proof.
  cbn [consume_buffered]. unfold bind, exec_lines.
  pose proof (process_lines_returns (removelast (split "010" (b ++ r))) s) as Hr.
  destruct (process_lines _ s) as [[[]|e] s']; [reflexivity|discriminate].
Qed.

(** When every read ends at a line boundary the source does what a
    buffering accumulator does. *)
Lemma consume_aligned reads : forall s,
  Forall (fun r => ends_with_newline r = true) reads ->
  consume reads s = consume_buffered EmptyString reads s.
Proof.
  induction reads as [|r rest IH]; intros s HF; [reflexivity|].
  inversion HF as [|? ? Hr HF']; subst.
  rewrite consume_cons, consume_buffered_cons. cbn [append].
  destruct (ends_with_newline_inv _ Hr) as (a & ->).
  rewrite split_app_newline. cbn [split].
  rewrite removelast_snoc, last_snoc, exec_lines_app.
  change (exec_lines [EmptyString] (exec_lines (split "010" a) s))
    with (exec_lines (split "010" a) s).
  now apply IH.
Qed.

Lemma is_complete_inv line :
  is_complete line = true ->
  startsWith line "data: " = true /\
  exists data ty, JSON_parse (slice 6 line) = Some data /\
    get_prop data "type" = inr ty /\ strict_eq_str ty "complete" = true.
Proof.
  unfold is_complete. destruct (startsWith line "data: "); [|discriminate].
  destruct (JSON_parse (slice 6 line)) as [data|]; [|discriminate].
  destruct (get_prop data "type") as [e|ty] eqn:Hty; [discriminate|].
  cbn. intros Hs. split; [reflexivity|]. exists data, ty. repeat split; auto.
Qed.

Lemma exec_line_complete line s :
  is_complete line = true -> exec_line line s = after_complete s.
Proof.
  intros Hc. destruct (is_complete_inv _ Hc) as (Hm & data & ty & Hp & Hty & Hs).
  apply JSFacts.strict_eq_str_true in Hs. subst ty.
  unfold exec_line, process_line, after_complete. rewrite Hm.
  unfold try_catch, handle_data, bind, lift. rewrite Hp. cbn [ret].
  rewrite Hty. cbn -[finalizeStreamingMessage].
  destruct (finalizeStreamingMessage (assistantMessageId s) s) as [[[]|e] s']; reflexivity.
Qed.

Lemma find_update_element t f d :
  (forall e, el_id (f e) = el_id e) ->
  find (fun e => Z.eqb (el_id e) t) (update_element t f d)
  = option_map f (find (fun e => Z.eqb (el_id e) t) d).
Proof.
  intros Hf. induction d as [|e d IH]; [reflexivity|].
  cbn. destruct (Z.eqb (el_id e) t) eqn:E; cbn.
  - now rewrite Hf, E.
  - now rewrite E.
Qed.

Lemma find_update_message t f l :
  (forall m, msg_id (f m) = msg_id m) ->
  find (fun m => Z.eqb (msg_id m) t) (update_message t f l)
  = option_map f (find (fun m => Z.eqb (msg_id m) t) l).
Proof.
  intros Hf. induction l as [|m l IH]; [reflexivity|].
  cbn. destruct (Z.eqb (msg_id m) t) eqn:E; cbn.
  - now rewrite Hf, E.
  - now rewrite E.
Qed.

(** With no message id the call finds no element and returns. *)
Lemma after_complete_no_message s :
  assistantMessageId s = None ->
  after_complete s = record_call (CallFinalize None) s.
Proof.
  destruct s as [id acc ms hc ha hm d p n co ca]. cbn. intros ->. reflexivity.
Qed.

Lemma after_complete_message s t e :
  assistantMessageId s = Some t ->
  getElementById (Some t) (dom s) = Some e ->
  let s' := after_complete s in
  assistantMessageId s' = Some t /\
  accumulatedContent s' = accumulatedContent s /\
  getElementById (Some t) (dom s')
  = Some {| el_id := el_id e; el_streaming := false;
            el_bubble := el_bubble e; el_cursor := false |} /\
  finalizes_of s' = (finalizes_of s ++ [CallFinalize (Some t)])%list /\
  (forall l, messages s = Some l -> session_complete s' = true).
Proof.
  destruct s as [id acc ms hc ha hm d p n co ca]. cbn. intros -> Hfind.
  unfold after_complete, finalizeStreamingMessage, bind, modify, gets, throw; cbn.
  rewrite Hfind. cbn.
  assert (Hd : find (fun e0 => Z.eqb (el_id e0) t)
                 (update_element t
                    (fun e0 => {| el_id := el_id e0; el_streaming := false;
                                  el_bubble := el_bubble e0; el_cursor := false |}) d)
               = Some {| el_id := el_id e; el_streaming := false;
                         el_bubble := el_bubble e; el_cursor := false |}).
  { rewrite find_update_element by reflexivity. now rewrite Hfind. }
  unfold finalizes_of.
  destruct ms as [l|]; cbn; rewrite filter_app; cbn; repeat split; auto.
  - intros l0 [= <-]. unfold session_complete; cbn. rewrite Hd. cbn.
    rewrite find_update_message by reflexivity.
    destruct (find _ l); reflexivity.
  - discriminate.
Qed.

Lemma update_element_twice t f d :
  (forall e, el_id (f e) = el_id e) -> (forall e, f (f e) = f e) ->
  update_element t f (update_element t f d) = update_element t f d.
Proof.
  intros Hid Hf. induction d as [|e d IH]; [reflexivity|].
  cbn. destruct (Z.eqb (el_id e) t) eqn:E; cbn.
  - now rewrite Hid, E, Hf.
  - now rewrite E, IH.
Qed.

Lemma update_message_twice t f l :
  (forall m, msg_id (f m) = msg_id m) -> (forall m, f (f m) = f m) ->
  update_message t f (update_message t f l) = update_message t f l.
Proof.
  intros Hid Hf. induction l as [|m l IH]; [reflexivity|].
  cbn. destruct (Z.eqb (msg_id m) t) eqn:E; cbn.
  - now rewrite Hid, E, Hf.
  - now rewrite E, IH.
Qed.

(** A second complete line changes neither the document nor the store. *)
Lemma after_complete_twice s :
  dom (after_complete (after_complete s)) = dom (after_complete s) /\
  messages (after_complete (after_complete s)) = messages (after_complete s).
Proof.
  destruct s as [id acc ms hc ha hm d p n co ca].
  unfold after_complete, finalizeStreamingMessage, bind, modify, gets, throw; cbn.
  destruct id as [t|]; cbn; [|split; reflexivity].
  destruct (find (fun e => Z.eqb (el_id e) t) d) as [e|] eqn:Hfind; cbn.
  - destruct ms as [l|]; cbn.
    + rewrite find_update_element by reflexivity. rewrite Hfind. cbn.
      rewrite update_element_twice by reflexivity.
      rewrite update_message_twice by reflexivity. split; reflexivity.
    + rewrite find_update_element by reflexivity. rewrite Hfind. cbn.
      rewrite update_element_twice by reflexivity. split; reflexivity.
  - rewrite Hfind. split; reflexivity.
Qed.


(** C9: a malformed line (no marker, or a payload that is not JSON)
    leaves the accumulated text as it was and changes at most the
    console; no exception leaves the loop, on any input; and the valid
    lines that follow accumulate as usual. *)
Theorem malformed_line_is_skipped :
  forall (line : string) (s : State),
    malformed line = true ->
    fst (process_line line s) = Ret tt /\
    (snd (process_line line s) = s
     \/ snd (process_line line s) = log_error SyntaxError s) /\
    accumulatedContent (snd (process_line line s)) = accumulatedContent s /\
    (forall reads s0, fst (consume reads s0) = Ret tt) /\
    (forall rest cs,
        Forall2 (fun l c => content_of l = Some c) rest cs ->
        accumulatedContent (snd (process_lines (line :: rest) s))
        = accumulatedContent s ++ concat_deltas cs).
Proof.
  intros line s Hm.
  pose proof (exec_line_malformed line s Hm) as Hex. unfold exec_line in Hex.
  assert (Hacc : accumulatedContent (snd (process_line line s))
                 = accumulatedContent s).
  { destruct Hex as [-> | ->]; [reflexivity|]. destruct s; reflexivity. }
  split; [apply process_line_returns|].
  split; [exact Hex|]. split; [exact Hacc|].
  split; [intros; apply consume_returns|].
  intros rest cs HF.
  change (accumulatedContent (exec_lines (line :: rest) s)
          = accumulatedContent s ++ concat_deltas cs).
  rewrite exec_lines_cons, (content_lines_accumulate rest cs _ HF).
  unfold exec_line. now rewrite Hacc.
Qed.

(** C2 as amended: every read is split on the newline by itself and
    nothing is kept for the next read; when every read ends with a
    newline, the source handles the body exactly as the buffering
    accumulator of the specification does. *)
Theorem aligned_reads_parse_as_buffered :
  forall (reads : list string) (s : State),
    Forall (fun r => ends_with_newline r = true) reads ->
    consume reads s = consume_buffered EmptyString reads s.
Proof. intros reads s HF. now apply consume_aligned. Qed.

(** C8 as amended: a complete line makes one call of
    [finalizeStreamingMessage] with the session's message id.  With no
    id (no content line created a message) the call changes nothing.
    With an id whose element is in the document, the element loses the
    streaming mark and the cursor, the stored entry gets
    [isStreaming] false when the store exists, the accumulated text is
    kept, and a second complete line changes neither document nor
    store. *)
Theorem complete_finalizes_existing_message :
  forall (line : string) (s : State),
    is_complete line = true ->
    let s' := snd (process_line line s) in
    fst (process_line line s) = Ret tt /\
    (assistantMessageId s = None ->
       s' = record_call (CallFinalize None) s /\ session_complete s' = false) /\
    (forall t e,
       assistantMessageId s = Some t ->
       getElementById (Some t) (dom s) = Some e ->
       getElementById (Some t) (dom s')
       = Some {| el_id := el_id e; el_streaming := false;
                 el_bubble := el_bubble e; el_cursor := false |} /\
       finalizes_of s' = (finalizes_of s ++ [CallFinalize (Some t)])%list /\
       accumulatedContent s' = accumulatedContent s /\
       (forall l, messages s = Some l -> session_complete s' = true)) /\
    dom (snd (process_line line s')) = dom s' /\
    messages (snd (process_line line s')) = messages s'.
Proof.
  intros line s Hc. cbn zeta.
  change (snd (process_line line (snd (process_line line s))))
    with (exec_line line (exec_line line s)).
  change (snd (process_line line s)) with (exec_line line s).
  rewrite !(exec_line_complete _ _ Hc).
  split; [apply process_line_returns|]. split; [|split].
  - intros Hid. rewrite (after_complete_no_message _ Hid). split; [reflexivity|].
    unfold session_complete. destruct s; cbn in *. now rewrite Hid.
  - intros t e Hid He.
    destruct (after_complete_message s t e Hid He) as (_ & Hacc & Hd & Hf & Hs).
    repeat split; assumption.
  - apply after_complete_twice.
Qed.

End WithPlatform.

(** *** Evaluations on literal input, with the reference [JSON.parse] *)

Import JSONRef.


Lemma malformed_line_is_skipped_witness :
  malformed "data: {not json" = true /\
  fst (process_line "data: {not json" (start true 0)) = Ret tt /\
  accumulatedContent
    (snd (process_lines ["data: {not json"; content_line "hi"] (start true 0)))
  = "hi".
Proof.
  assert (Hm : malformed "data: {not json" = true) by reflexivity.
  destruct (malformed_line_is_skipped _ (start true 0) Hm)
    as (Hr & _ & _ & _ & Hrest).
  split; [exact Hm|]. split; [exact Hr|].
  apply (Hrest [content_line "hi"] ["hi"]). repeat constructor.
Defined.

(** C2, counterexample: a content line cut by a read boundary.  The
    source parses the first part alone (a SyntaxError, logged) and
    ignores the second, which has no marker: the delta is lost, while
    the buffering accumulator of the specification accumulates it. *)
Lemma cut_line_is_lost :
  accumulatedContent (snd (consume cut_reads (start true 0))) = EmptyString /\
  console (snd (consume cut_reads (start true 0))) = [SyntaxError] /\
  accumulatedContent
    (snd (consume_buffered EmptyString cut_reads (start true 0))) = "hi" /\
  consume cut_reads (start true 0)
  <> consume_buffered EmptyString cut_reads (start true 0).
Proof.
  assert (A : accumulatedContent (snd (consume cut_reads (start true 0)))
              = EmptyString) by (vm_compute; reflexivity).
  assert (B : accumulatedContent
                (snd (consume_buffered EmptyString cut_reads (start true 0)))
              = "hi") by (vm_compute; reflexivity).
  split; [exact A|]. split; [vm_compute; reflexivity|]. split; [exact B|].
  intros Heq. rewrite Heq, B in A. discriminate A.
Qed.

Lemma aligned_reads_parse_as_buffered_witness :
  Forall (fun r => ends_with_newline r = true)
    [content_line "hi" ++ nl ++ content_line " there" ++ nl;
     complete_line ++ nl] /\
  consume [content_line "hi" ++ nl ++ content_line " there" ++ nl;
           complete_line ++ nl] (start true 0)
  = consume_buffered EmptyString
      [content_line "hi" ++ nl ++ content_line " there" ++ nl;
       complete_line ++ nl] (start true 0).
Proof.
  assert (HF : Forall (fun r => ends_with_newline r = true)
                 [content_line "hi" ++ nl ++ content_line " there" ++ nl;
                  complete_line ++ nl]) by (repeat constructor).
  split; [exact HF|].
  exact (aligned_reads_parse_as_buffered _ (start true 0) HF).
Defined.

(** C8, counterexample: a complete line with no content line before it.
    [finalizeStreamingMessage(null)] finds no element and returns:
    nothing is marked complete. *)
Lemma complete_without_content_finalizes_nothing :
  let s' := snd (consume [complete_line ++ nl] (start true 0)) in
  is_complete complete_line = true /\
  session_complete s' = false /\
  dom s' = [] /\ messages s' = None /\
  calls s' = [CallFinalize None].
Proof. vm_compute. repeat split; reflexivity. Qed.

Lemma complete_finalizes_existing_message_witness :
  is_complete complete_line = true /\
  let s' := snd (process_line complete_line streaming_state) in
  getElementById (Some 5%Z) (dom s')
  = Some {| el_id := 5; el_streaming := false; el_bubble := "hi";
            el_cursor := false |} /\
  session_complete s' = true.
Proof.
  assert (Hc : is_complete complete_line = true) by reflexivity.
  destruct (complete_finalizes_existing_message complete_line streaming_state Hc)
    as (_ & _ & Hsome & _).
  destruct (Hsome 5%Z {| el_id := 5; el_streaming := true; el_bubble := "hi";
                         el_cursor := true |} eq_refl eq_refl)
    as (Hd & _ & _ & Hs).
  split; [exact Hc|]. split; [exact Hd|].
  exact (Hs _ eq_refl).
Defined.

End StreamFacts.

(* ================================================================== *)
(** ** The two channels and the fallback simulator: facts *)
(* ================================================================== *)

Module ChannelFacts.
Import JS Exn Mock Workflow ChannelSpec.

Section WithPlatform.
Context `{Platform}.

(** The handler of the workflow channel never raises. *)
Lemma ws_onmessage_returns raw w : fst (ws_onmessage raw w) = Ret tt.
Proof.
  unfold ws_onmessage, try_catch.
  destruct (route raw w) as [[[]|e] w']; reflexivity.
Qed.

Lemma ws_onmessage_unparsable raw w :
  JSON_parse raw = None ->
  ws_onmessage raw w = (Ret tt, log (LogParseError SyntaxError) w).
Proof.
  intros Hp. unfold ws_onmessage, try_catch, route, bind, lift.
  rewrite Hp. reflexivity.
Qed.

Lemma notification_unparsable raw w :
  JSON_parse raw = None ->
  Notification.onmessage raw w = (Throw SyntaxError, w).
Proof.
  intros Hp. unfold Notification.onmessage, bind, lift. rewrite Hp. reflexivity.
Qed.

(** C4: a payload that parses is appended to the message log and then
    updates exactly the projection its [type] names, each stated on the
    hook's own fields: a [workflow_update] replaces [workflowStatus],
    an [argument_generated] is appended to [wsArguments], a
    [debate_turn] is appended to [debateTurns], a [feedback_ready]
    replaces [feedback], and in each case the other three projections
    keep their values; with any other [type] (or none) all four keep
    their values and the log alone grows.  The rest of the hook's
    state, the page, the sockets and the timers are untouched, and
    nothing is logged to the console when [data.type] can be read. *)
Theorem parsed_message_is_logged_then_routed :
  forall (raw : string) (data : JSValue) (w : World),
    JSON_parse raw = Some data ->
    let h := hook w in
    let w' := snd (ws_onmessage raw w) in
    let h' := hook w' in
    fst (ws_onmessage raw w) = Ret tt /\
    messages h' = (messages h ++ [data])%list /\
    (get_prop data "type" = inr (Some (JStr "workflow_update")) ->
       workflowStatus h' = Some data /\
       wsArguments h' = wsArguments h /\
       debateTurns h' = debateTurns h /\
       feedback h' = feedback h) /\
    (get_prop data "type" = inr (Some (JStr "argument_generated")) ->
       workflowStatus h' = workflowStatus h /\
       wsArguments h' = (wsArguments h ++ [data])%list /\
       debateTurns h' = debateTurns h /\
       feedback h' = feedback h) /\
    (get_prop data "type" = inr (Some (JStr "debate_turn")) ->
       workflowStatus h' = workflowStatus h /\
       wsArguments h' = wsArguments h /\
       debateTurns h' = (debateTurns h ++ [data])%list /\
       feedback h' = feedback h) /\
    (get_prop data "type" = inr (Some (JStr "feedback_ready")) ->
       workflowStatus h' = workflowStatus h /\
       wsArguments h' = wsArguments h /\
       debateTurns h' = debateTurns h /\
       feedback h' = Some data) /\
    ((forall ty, get_prop data "type" = inr ty ->
        ty <> Some (JStr "workflow_update") /\
        ty <> Some (JStr "argument_generated") /\
        ty <> Some (JStr "debate_turn") /\
        ty <> Some (JStr "feedback_ready")) ->
       workflowStatus h' = workflowStatus h /\
       wsArguments h' = wsArguments h /\
       debateTurns h' = debateTurns h /\
       feedback h' = feedback h) /\
    workflowId h' = workflowId h /\ socket h' = socket h /\
    isConnected h' = isConnected h /\
    reconnectTimeoutRef h' = reconnectTimeoutRef h /\
    cleanup_socket h' = cleanup_socket h /\
    page w' = page w /\ sockets w' = sockets w /\ timers w' = timers w /\
    scheduled w' = scheduled w /\
    (forall ty, get_prop data "type" = inr ty -> console w' = console w).
Proof.
  intros raw data w Hp. cbn zeta.
  split; [apply ws_onmessage_returns|].
  unfold ws_onmessage, try_catch, route, bind, lift. rewrite Hp. cbn [ret].
  unfold modify at 1. cbn iota beta.
  destruct (get_prop data "type") as [e|ty] eqn:Hty.
  - cbn. repeat split; try discriminate.
  - cbn [ret].
    destruct (strict_eq_str ty "workflow_update") eqn:E1.
    { apply JSFacts.strict_eq_str_true in E1. subst ty. cbn.
      repeat split; try discriminate.
      all: match goal with
           | Hu : forall ty : option JSValue, _ |- _ =>
               destruct (Hu _ eq_refl) as (N1 & N2 & N3 & N4); congruence
           end. }
    destruct (strict_eq_str ty "argument_generated") eqn:E2.
    { apply JSFacts.strict_eq_str_true in E2. subst ty. cbn.
      repeat split; try discriminate.
      all: match goal with
           | Hu : forall ty : option JSValue, _ |- _ =>
               destruct (Hu _ eq_refl) as (N1 & N2 & N3 & N4); congruence
           end. }
    destruct (strict_eq_str ty "debate_turn") eqn:E3.
    { apply JSFacts.strict_eq_str_true in E3. subst ty. cbn.
      repeat split; try discriminate.
      all: match goal with
           | Hu : forall ty : option JSValue, _ |- _ =>
               destruct (Hu _ eq_refl) as (N1 & N2 & N3 & N4); congruence
           end. }
    destruct (strict_eq_str ty "feedback_ready") eqn:E4.
    { apply JSFacts.strict_eq_str_true in E4. subst ty. cbn.
      repeat split; try discriminate.
      all: match goal with
           | Hu : forall ty : option JSValue, _ |- _ =>
               destruct (Hu _ eq_refl) as (N1 & N2 & N3 & N4); congruence
           end. }
    cbn. repeat split.
    all: match goal with
         | Heq : inr _ = inr _ |- _ =>
             injection Heq as Heq; subst; cbn in *; discriminate
         end.
Qed.


(** C6: in single mode the input ["texting while walking"], and every
    input whose lower-cased text contains it, selects the
    personal-injury scenario, and for that input the catch block
    registers exactly three timers: the scenario's two arguments after
    1000 ms and 2000 ms and its feedback after 3000 ms. *)
Theorem texting_while_walking_schedule :
  forall (loaded_first loaded_second called : Z) (w : World),
    getMockResponse loaded_first loaded_second called single
      "texting while walking"
    = personalInjury loaded_first loaded_second /\
    getMockResponse loaded_first loaded_second called single
      "He was TEXTING While Walking."
    = personalInjury loaded_first loaded_second /\
    (forall input : string,
        includes (toLowerCase input) "texting while walking" = true ->
        getMockResponse loaded_first loaded_second called single input
        = personalInjury loaded_first loaded_second) /\
    match personalInjury loaded_first loaded_second with
    | SingleScenario [first; second] feedback =>
        agent first = "Legal Analyst" /\ agent second = "Legal Strategist" /\
        let n := List.length (scheduled w) in
        let w' := handleStartWorkflow_catch loaded_first loaded_second called
                    single "texting while walking" w in
        timers w'
        = (timers w
           ++ [ {| timer_id := S n; delay := 1000;
                   action := AppendMockArgument first |};
                {| timer_id := S (S n); delay := 2000;
                   action := AppendMockArgument second |};
                {| timer_id := S (S (S n)); delay := 3000;
                   action := SetMockFeedback feedback |} ])%list /\
        useMockData (page w') = true
    | _ => False
    end /\
    map delay
      (timers (run loaded_first loaded_second
                 [SetUserInput "texting while walking"; StartClicked;
                  StartFailed called] initial))
    = [1000; 2000; 3000]%Z.
Proof.
  intros t1 t2 called w.
  split; [reflexivity|]. split; [reflexivity|]. split.
  { intros input Hin. unfold getMockResponse. rewrite Hin, orb_true_r.
    reflexivity. }
  split; [|reflexivity].
  cbn [personalInjury]. split; [reflexivity|]. split; [reflexivity|].
  destruct w as [h p so ti sc co]. cbn zeta.
  unfold handleStartWorkflow_catch.
  change (getMockResponse t1 t2 called single "texting while walking")
    with (personalInjury t1 t2).
  cbn. rewrite !length_app. cbn. rewrite <- !app_assoc. cbn.
  rewrite !Nat.add_1_r. split; reflexivity.
Qed.

(** *** Projections through the primitives *)

Lemma find_socket_set_readyState s r w sk :
  find_socket s w = Some sk ->
  find_socket s (set_readyState s r w)
  = Some {| sock_id := sock_id sk; sock_workflowId := sock_workflowId sk;
            readyState := r |}.
Proof.
  unfold find_socket, set_readyState. destruct w as [h p so ti sc co]. cbn.
  induction so as [|x so IH]; [discriminate|].
  cbn. destruct (Nat.eqb (sock_id x) s) eqn:E; cbn.
  - rewrite E. now intros [= ->].
  - rewrite E. exact IH.
Qed.

(** C5, one step, workflow channel. *)
Lemma workflow_close_schedules w s sk :
  find_socket s w = Some sk -> readyState sk <> CLOSED ->
  forall e, e = SockClose s \/ e = SockError s ->
  forall t1 t2,
  let w' := step t1 t2 e w in
  let t := {| timer_id := S (List.length (scheduled w)); delay := 3000;
              action := Reconnect (sock_workflowId sk) |} in
  isConnected (hook w') = false /\ socket (hook w') = None /\
  timers w' = (timers w ++ [t])%list /\
  scheduled w' = (scheduled w ++ [t])%list /\
  reconnectTimeoutRef (hook w') = Some (timer_id t) /\
  find_socket s w'
  = Some {| sock_id := sock_id sk; sock_workflowId := sock_workflowId sk;
            readyState := CLOSED |}.
Proof.
  intros Hf Hr e He t1 t2. cbn zeta.
  assert (Hnc : ready_eqb (readyState sk) CLOSED = false)
    by (destruct (readyState sk); try reflexivity; congruence).
  pose proof (find_socket_set_readyState s CLOSED w sk Hf) as Hf'.
  destruct He as [-> | ->]; cbn [step]; rewrite Hf, Hnc;
    destruct w as [h p so ti sc co]; cbn in *; repeat split; exact Hf'.
Qed.


(** *** Counting live sockets and pending reconnections *)

Lemma live_count_set_first s r so sk :
  find (fun x => Nat.eqb (sock_id x) s) so = Some sk ->
  List.length (filter live (set_first s r so)) + (if live sk then 1 else 0)
  = List.length (filter live so) + (if ready_eqb r CLOSED then 0 else 1).
Proof.
  induction so as [|x so IH]; [discriminate|].
  cbn. destruct (Nat.eqb (sock_id x) s) eqn:E.
  - intros [= ->]. unfold live; cbn.
    destruct r, (readyState sk); cbn; lia.
  - intros Hf. specialize (IH Hf). cbn. destruct (live x); cbn in *; lia.
Qed.

Lemma reconnect_count_filter (p : Timer -> bool) ti :
  List.length (filter is_reconnect (filter p ti))
  <= List.length (filter is_reconnect ti).
Proof.
  induction ti as [|t ti IH]; [reflexivity|].
  cbn. destruct (p t); cbn; destruct (is_reconnect t); cbn; lia.
Qed.

Lemma reconnect_count_remove h ti tm :
  find (fun t => Nat.eqb (timer_id t) h) ti = Some tm ->
  is_reconnect tm = true ->
  S (List.length (filter is_reconnect
                    (filter (fun t => negb (Nat.eqb (timer_id t) h)) ti)))
  <= List.length (filter is_reconnect ti).
Proof.
  induction ti as [|t ti IH]; [discriminate|].
  cbn. destruct (Nat.eqb (timer_id t) h) eqn:E; cbn.
  - intros [= ->] Hr. rewrite Hr. cbn.
    pose proof (reconnect_count_filter (fun t => negb (Nat.eqb (timer_id t) h)) ti).
    lia.
  - intros Hf Hr. specialize (IH Hf Hr). destruct (is_reconnect t); cbn; lia.
Qed.

Lemma filter_app_length {A} (p : A -> bool) l x :
  List.length (filter p (l ++ [x]))
  = List.length (filter p l) + (if p x then 1 else 0).
Proof. rewrite filter_app, length_app. cbn. destruct (p x); reflexivity. Qed.

Lemma find_some_id (h : nat) ti tm :
  find (fun t => Nat.eqb (timer_id t) h) ti = Some tm ->
  In tm ti /\ timer_id tm = h.
Proof.
  intros Hf. apply find_some in Hf. destruct Hf as [Hin He].
  apply Nat.eqb_eq in He. auto.
Qed.


(** *** The invariant is kept by every primitive, under its side condition *)

Ltac open_world w :=
  let h := fresh "h" in let p := fresh "p" in
  destruct w as [h p ? ? ? ?]; destruct h, p; cbn in *.

Ltac frame :=
  let Hc := fresh "Hc" in let Hi := fresh "Hi" in
  let Hids := fresh "Hids" in let Href := fresh "Href" in
  intros [Hc Hi Hids Href]; unfold chain_count in *;
  constructor; unfold chain_count; cbn in *; auto.

Lemma inv_log e w : Invariant w -> Invariant (log e w).
Proof. open_world w. frame. Qed.

Lemma inv_with_hook g w :
  (forall h, reconnectTimeoutRef (g h) = reconnectTimeoutRef h) ->
  (forall h, workflowId (g h) = workflowId h) ->
  Invariant w -> Invariant (with_hook g w).
Proof.
  intros Hr Hw. destruct w as [h p so ti sc co]. 
  intros [Hc Hi Hids Href]; unfold chain_count in *;
  constructor; unfold chain_count; cbn in *; auto.
  - now rewrite Hw.
  - intros h0. rewrite Hr. auto.
Qed.

Lemma inv_with_page g w :
  (forall p, workflowStarted (g p) = workflowStarted p) ->
  (forall p, awaiting (g p) = awaiting p) ->
  Invariant w -> Invariant (with_page g w).
Proof.
  intros Hs Ha. destruct w as [h p so ti sc co]. 
  intros [Hc Hi Hids Href]; unfold chain_count in *;
  constructor; unfold chain_count; cbn in *; auto.
  rewrite Hs, Ha. auto.
Qed.

Lemma inv_clearTimeout h0 w : Invariant w -> Invariant (clearTimeout h0 w).
Proof.
  open_world w. frame.
  - pose proof (reconnect_count_filter
                  (fun t => negb (Nat.eqb (timer_id t) h0)) timers0). lia.
  - intros Hs. destruct (Hi Hs) as (-> & -> & -> & ->). auto.
  - intros t Ht. apply filter_In in Ht. apply Hids, Ht.
  - intros h1 Hh. destruct (Href _ Hh) as [Hle Hrec]. split; [exact Hle|].
    intros t Ht. apply filter_In in Ht. apply Hrec, Ht.
Qed.

Lemma inv_socket_close s w : Invariant w -> Invariant (socket_close s w).
Proof.
  unfold socket_close. destruct (find_socket s w) as [sk|] eqn:Hf; [|auto].
  destruct (readyState sk) eqn:Hr; auto.
  - unfold find_socket in Hf. open_world w. frame.
    + pose proof (live_count_set_first s CLOSING _ _ Hf) as Hl.
      assert (Hlive : live sk = true) by (unfold live; rewrite Hr; reflexivity).
      rewrite Hlive in Hl. cbn in Hl. lia.
    + intros Hs. destruct (Hi Hs) as (-> & -> & -> & ->). auto.
  - unfold find_socket in Hf. open_world w. frame.
    + pose proof (live_count_set_first s CLOSING _ _ Hf) as Hl.
      assert (Hlive : live sk = true) by (unfold live; rewrite Hr; reflexivity).
      rewrite Hlive in Hl. cbn in Hl. lia.
    + intros Hs. destruct (Hi Hs) as (-> & -> & -> & ->). auto.
Qed.

Lemma inv_cleanup w : Invariant w -> Invariant (cleanup w).
Proof.
  intros Hinv. unfold cleanup.
  assert (Hinv1 : Invariant
            match cleanup_socket (hook w) with
            | Some s => socket_close s w
            | None => w
            end).
  { destruct (cleanup_socket (hook w)); [now apply inv_socket_close|exact Hinv]. }
  destruct (reconnectTimeoutRef _); [now apply inv_clearTimeout|exact Hinv1].
Qed.


Lemma chain_count_cleanup w : chain_count (cleanup w) <= chain_count w.
Proof.
  unfold cleanup.
  assert (H1 : chain_count match cleanup_socket (hook w) with
                           | Some s => socket_close s w
                           | None => w
                           end = chain_count w).
  { destruct (cleanup_socket (hook w)) as [s|]; [|reflexivity].
    unfold socket_close. destruct (find_socket s w) as [sk|] eqn:Hf; [|reflexivity].
    assert (Hx : forall r, live sk = true -> r <> CLOSED ->
                 chain_count (set_readyState s r w) = chain_count w).
    { intros r Hl Hr. unfold find_socket in Hf. unfold chain_count.
      destruct w as [h p so ti sc co]; cbn in *.
      pose proof (live_count_set_first s r _ _ Hf) as Hc. rewrite Hl in Hc.
      destruct r; cbn in Hc; try congruence; lia. }
    destruct (readyState sk) eqn:Hr; try reflexivity;
      apply Hx; try discriminate; unfold live; rewrite Hr; reflexivity. }
  destruct (reconnectTimeoutRef _) as [h0|]; [|lia].
  rewrite <- H1. unfold chain_count, clearTimeout.
  match goal with |- context [with_timers ?f ?x] => destruct x as [h p so ti sc co] end.
  cbn. pose proof (reconnect_count_filter
                     (fun t => negb (Nat.eqb (timer_id t) h0)) ti). lia.
Qed.

Lemma cleanup_page w : page (cleanup w) = page w.
Proof.
  unfold cleanup.
  assert (H1 : page match cleanup_socket (hook w) with
                    | Some s => socket_close s w
                    | None => w
                    end = page w).
  { destruct (cleanup_socket (hook w)) as [s|]; [|reflexivity].
    unfold socket_close. destruct (find_socket s w); [|reflexivity].
    destruct (readyState s0); reflexivity. }
  destruct (reconnectTimeoutRef _); [|exact H1]. rewrite <- H1. reflexivity.
Qed.

Lemma inv_connect id w :
  Invariant w -> workflowStarted (page w) = true -> chain_count w = 0 ->
  Invariant (connect id w).
Proof.
  intros Hinv Hst Hz. unfold connect. destruct id as [i|]; [|exact Hinv].
  destruct (String.eqb i EmptyString); [exact Hinv|].
  revert Hinv Hst Hz. open_world w. intros Hinv Hst Hz. revert Hinv. frame.
  - rewrite filter_app_length. cbn. lia.
  - congruence.
Qed.

Lemma inv_install id w :
  Invariant w -> workflowStarted (page w) = true ->
  Invariant (with_hook (install_effect id) w).
Proof.
  intros Hinv Hst. revert Hinv Hst. open_world w. intros Hinv Hst. revert Hinv. frame.
  congruence.
Qed.

Lemma inv_render id w :
  Invariant w -> workflowStarted (page w) = true ->
  id = None \/ chain_count w = 0 ->
  Invariant (render id w).
Proof.
  intros Hinv Hst Hid. unfold render.
  destruct (option_string_eqb id (workflowId (hook w))); [exact Hinv|].
  assert (Hinv1 : Invariant (with_hook (install_effect id) (cleanup w))).
  { apply inv_install; [now apply inv_cleanup|]. now rewrite cleanup_page. }
  destruct Hid as [-> | Hz]; [exact Hinv1|].
  apply inv_connect; [exact Hinv1| |].
  - cbn. now rewrite cleanup_page.
  - pose proof (chain_count_cleanup w) as Hle.
    assert (chain_count (with_hook (install_effect id) (cleanup w))
            = chain_count (cleanup w)) as -> by (destruct (cleanup w); reflexivity).
    lia.
Qed.

Lemma inv_setTimeout a ms w :
  Invariant w -> workflowStarted (page w) = true ->
  (match a with Reconnect _ => chain_count w = 0 | _ => True end) ->
  Invariant (snd (setTimeout a ms w)).
Proof.
  intros Hinv Hst Ha. revert Hinv Hst Ha. open_world w. intros Hinv Hst Ha.
  revert Hinv. unfold chain_count in Ha. cbn in Ha. frame.
  - rewrite filter_app_length. unfold is_reconnect at 2. cbn.
    destruct a; cbn; lia.
  - congruence.
  - intros t Ht. rewrite length_app. cbn. apply in_app_or in Ht.
    destruct Ht as [Ht | [<- | []]]; [apply Hids in Ht|cbn]; lia.
  - intros h0 Hh. destruct (Href _ Hh) as [Hle Hrec]. rewrite length_app. cbn.
    split; [lia|]. intros t Ht Hid. apply in_app_or in Ht.
    destruct Ht as [Ht | [<- | []]]; [now apply Hrec|]. cbn in Hid. lia.
Qed.

Lemma setTimeout_page a ms w : page (snd (setTimeout a ms w)) = page w.
Proof. reflexivity. Qed.

Lemma schedule_each_frame {A} (callback : A -> TimerAction) interval items :
  (forall x, is_reconnect {| timer_id := 0; delay := 0; action := callback x |}
             = false) ->
  forall index w,
    Invariant w -> workflowStarted (page w) = true ->
    let w' := schedule_each callback interval items index w in
    Invariant w' /\ page w' = page w /\ hook w' = hook w.
Proof.
  intros Hsim. induction items as [|x items IH]; intros index w Hinv Hst; cbn zeta.
  - auto.
  - cbn [schedule_each].
    change (let (_, w1) := setTimeout (callback x) (interval * (index + 1)) w in
            schedule_each callback interval items (index + 1) w1)
      with (schedule_each callback interval items (index + 1)
              (snd (setTimeout (callback x) (interval * (index + 1)) w))).
    destruct (IH (index + 1)%Z (snd (setTimeout (callback x) (interval * (index + 1)) w)))
      as (A1 & A2 & A3).
    + apply inv_setTimeout; auto. specialize (Hsim x). unfold is_reconnect in Hsim.
      cbn in Hsim. destruct (callback x); [discriminate|exact I..].
    + exact Hst.
    + split; [exact A1|]. split; [now rewrite A2|now rewrite A3].
Qed.


Lemma inv_set_readyState s r w sk :
  find_socket s w = Some sk -> live sk = true ->
  Invariant w ->
  Invariant (set_readyState s r w) /\
  (r = CLOSED -> chain_count (set_readyState s r w) = 0) /\
  workflowStarted (page w) = true.
Proof.
  intros Hf Hl Hinv.
  assert (Hst : workflowStarted (page w) = true).
  { destruct (workflowStarted (page w)) eqn:E; [reflexivity|].
    destruct (inv_idle w Hinv E) as (Hs & _). unfold find_socket in Hf.
    rewrite Hs in Hf. discriminate. }
  unfold find_socket in Hf. revert Hinv Hst. open_world w. intros Hinv Hst.
  pose proof (live_count_set_first s r _ _ Hf) as Hc. rewrite Hl in Hc.
  split; [|split; [|exact Hst]].
  - revert Hinv. frame; [|congruence]. destruct (ready_eqb r CLOSED); lia.
  - intros ->. cbn in Hc. destruct Hinv as [Hch _ _ _]. unfold chain_count in *.
    cbn in *. lia.
Qed.

Lemma inv_ws_onopen w : Invariant w -> Invariant (ws_onopen w).
Proof.
  intros Hinv. unfold ws_onopen.
  assert (H1 : Invariant (with_hook (setIsConnected true) (log LogConnected w))).
  { apply inv_with_hook; [reflexivity..|]. now apply inv_log. }
  destruct (reconnectTimeoutRef _); [now apply inv_clearTimeout|exact H1].
Qed.

Lemma inv_ws_onclose id w :
  Invariant w -> workflowStarted (page w) = true -> chain_count w = 0 ->
  Invariant (ws_onclose id w).
Proof.
  intros Hinv Hst Hz. revert Hinv Hst Hz. open_world w. intros Hinv Hst Hz.
  unfold chain_count in Hz. cbn in Hz. revert Hinv.
  intros [Hc Hi Hids Href]; unfold chain_count in *;
  constructor; unfold chain_count; cbn in *.
  - rewrite filter_app_length. cbn. lia.
  - congruence.
  - intros t Ht. rewrite length_app. cbn. apply in_app_or in Ht.
    destruct Ht as [Ht | [<- | []]]; [apply Hids in Ht|cbn]; lia.
  - intros h0 [= <-]. rewrite length_app. cbn. split; [lia|].
    intros t Ht Hid. apply in_app_or in Ht.
    destruct Ht as [Ht | [<- | []]]; [|reflexivity].
    apply Hids in Ht. lia.
Qed.

Lemma inv_ws_onmessage raw w :
  Invariant w -> Invariant (snd (ws_onmessage raw w)).
Proof.
  intros Hinv. unfold ws_onmessage, try_catch, route, bind, lift.
  destruct (JSON_parse raw) as [data|]; cbn [throw ret]; [|now apply inv_log].
  unfold modify at 1. cbn iota beta.
  assert (H1 : Invariant
            (with_hook (setMessages (fun prev => (prev ++ [data])%list)) w))
    by (apply inv_with_hook; [reflexivity..|exact Hinv]).
  destruct (get_prop data "type") as [e|ty]; cbn [throw ret]; [now apply inv_log|].
  destruct (strict_eq_str ty "workflow_update");
    [cbn; apply inv_with_hook; [reflexivity..|exact H1]|].
  destruct (strict_eq_str ty "argument_generated");
    [cbn; apply inv_with_hook; [reflexivity..|exact H1]|].
  destruct (strict_eq_str ty "debate_turn");
    [cbn; apply inv_with_hook; [reflexivity..|exact H1]|].
  destruct (strict_eq_str ty "feedback_ready");
    [cbn; apply inv_with_hook; [reflexivity..|exact H1]|].
  exact H1.
Qed.

Lemma inv_begin w :
  Invariant w -> workflowStarted (page w) = false ->
  blank (userInput (page w)) = false ->
  let w' := handleStartWorkflow_begin w in
  Invariant w' /\ workflowStarted (page w') = true /\ chain_count w' = 0.
Proof.
  intros Hinv Hst Hb. unfold handleStartWorkflow_begin. rewrite Hb. cbn zeta.
  destruct (inv_idle w Hinv Hst) as (Hs & Ht & Hw & Ha).
  revert Hinv Hst Hb Hs Ht Hw Ha. open_world w. intros Hinv Hst Hb -> -> -> ->.
  split; [|split; reflexivity]. revert Hinv. frame. discriminate.
Qed.

Lemma inv_catch t1 t2 called m input w :
  Invariant w -> workflowStarted (page w) = true ->
  let w' := handleStartWorkflow_catch t1 t2 called m input w in
  Invariant w' /\ workflowStarted (page w') = true /\ useMockData (page w') = true.
Proof.
  intros Hinv Hst. cbn zeta. unfold handleStartWorkflow_catch.
  set (w1 := with_page (setUseMockData true) w).
  assert (Hinv1 : Invariant w1) by (apply inv_with_page; [reflexivity..|exact Hinv]).
  assert (Hst1 : workflowStarted (page w1) = true) by (destruct w; exact Hst).
  assert (Hmock1 : useMockData (page w1) = true) by (destruct w; reflexivity).
  destruct m; destruct (getMockResponse t1 t2 called _ input) as [args fb | turns fb].
  - destruct (schedule_each_frame AppendMockArgument 1000 args (fun _ => eq_refl)
                0%Z w1 Hinv1 Hst1) as (A1 & A2 & A3).
    split; [|split].
    + apply inv_setTimeout; [exact A1| |exact I]. now rewrite A2.
    + rewrite setTimeout_page, A2. exact Hst1.
    + rewrite setTimeout_page, A2. exact Hmock1.
  - split; [now apply inv_log|]. split; [exact Hst1|exact Hmock1].
  - split; [now apply inv_log|]. split; [exact Hst1|exact Hmock1].
  - destruct (schedule_each_frame AppendMockTurn 2000 turns (fun _ => eq_refl)
                0%Z w1 Hinv1 Hst1) as (A1 & A2 & A3).
    split; [|split].
    + apply inv_setTimeout; [exact A1| |exact I]. now rewrite A2.
    + rewrite setTimeout_page, A2. exact Hst1.
    + rewrite setTimeout_page, A2. exact Hmock1.
Qed.


Lemma started_of_awaiting w x :
  Invariant w -> awaiting (page w) = Some x -> workflowStarted (page w) = true.
Proof.
  intros Hinv Ha. destruct (workflowStarted (page w)) eqn:E; [reflexivity|].
  destruct (inv_idle w Hinv E) as (_ & _ & _ & Hn). congruence.
Qed.

Lemma live_of_not_closed sk :
  ready_eqb (readyState sk) CLOSED = false -> live sk = true.
Proof. unfold live. now intros ->. Qed.

Section Reach.
Variables (loaded_first loaded_second : Z).

Lemma inv_step e w :
  Invariant w -> Invariant (step loaded_first loaded_second e w).
Proof.
  intros Hinv. destruct e as [m|text| | |called| |s|s raw|s|s|t]; cbn [step].
  - (* SetMode *)
    destruct (mounted (page w)); [|exact Hinv].
    apply inv_with_page; [reflexivity..|exact Hinv].
  - (* SetUserInput *)
    destruct (mounted (page w) && negb (workflowStarted (page w))); [|exact Hinv].
    apply inv_with_page; [reflexivity..|exact Hinv].
  - (* StartClicked *)
    destruct (mounted (page w)); cbn [andb]; [|exact Hinv].
    destruct (workflowStarted (page w)) eqn:Hst; cbn [andb negb]; [exact Hinv|].
    destruct (blank (userInput (page w))) eqn:Hb; cbn [negb]; [exact Hinv|].
    destruct (inv_begin w Hinv Hst Hb) as (A1 & A2 & A3).
    unfold rerender. apply inv_render; auto.
  - (* StartSucceeded *)
    destruct (awaiting (page w)) as [x|] eqn:Ha; [|exact Hinv].
    pose proof (started_of_awaiting w x Hinv Ha) as Hst.
    apply inv_log. revert Hinv Hst. clear Ha. open_world w. intros Hinv Hst.
    revert Hinv. frame. congruence.
  - (* StartFailed *)
    destruct (awaiting (page w)) as [[m input]|] eqn:Ha; [|exact Hinv].
    pose proof (started_of_awaiting w _ Hinv Ha) as Hst.
    set (w0 := with_page (set_awaiting None) w).
    assert (Hinv0 : Invariant w0).
    { subst w0. revert Hinv Hst. clear Ha. open_world w. intros Hinv Hst.
      revert Hinv. frame. congruence. }
    assert (Hst0 : workflowStarted (page w0) = true) by (destruct w; exact Hst).
    destruct (inv_catch loaded_first loaded_second called m input w0 Hinv0 Hst0)
      as (A1 & A2 & A3).
    cbn zeta. fold w0. destruct (mounted (page w)); [|exact A1].
    unfold rerender. apply inv_render; auto. left.
    unfold hook_argument. rewrite A2, A3. reflexivity.
  - (* Unmount *)
    destruct (mounted (page w)); [|exact Hinv].
    apply inv_cleanup. apply inv_with_page; [reflexivity..|exact Hinv].
  - (* SockOpen *)
    destruct (find_socket s w) as [sk|] eqn:Hf; [|exact Hinv].
    destruct (ready_eqb (readyState sk) CONNECTING) eqn:Hr; [|exact Hinv].
    apply inv_ws_onopen.
    assert (Hl : live sk = true)
      by (unfold live; destruct (readyState sk); try discriminate; reflexivity).
    destruct (inv_set_readyState s OPEN w sk Hf Hl Hinv) as (A1 & _ & _).
    exact A1.
  - (* SockMessage *)
    destruct (find_socket s w) as [sk|]; [|exact Hinv].
    destruct (_ || _); [|exact Hinv]. now apply inv_ws_onmessage.
  - (* SockError *)
    destruct (find_socket s w) as [sk|] eqn:Hf; [|exact Hinv].
    destruct (ready_eqb (readyState sk) CLOSED) eqn:Hr; [exact Hinv|].
    destruct (inv_set_readyState s CLOSED w sk Hf (live_of_not_closed _ Hr) Hinv)
      as (A1 & A2 & A3).
    apply inv_ws_onclose.
    + now apply inv_log.
    + destruct w; exact A3.
    + specialize (A2 eq_refl). destruct w; exact A2.
  - (* SockClose *)
    destruct (find_socket s w) as [sk|] eqn:Hf; [|exact Hinv].
    destruct (ready_eqb (readyState sk) CLOSED) eqn:Hr; [exact Hinv|].
    destruct (inv_set_readyState s CLOSED w sk Hf (live_of_not_closed _ Hr) Hinv)
      as (A1 & A2 & A3).
    apply inv_ws_onclose; auto.
  - (* TimerFire *)
    destruct (find_timer t w) as [tm|] eqn:Hf; [|exact Hinv].
    pose proof (inv_clearTimeout t w Hinv) as Hinv1.
    assert (Hst : workflowStarted (page w) = true).
    { destruct (workflowStarted (page w)) eqn:E; [reflexivity|].
      destruct (inv_idle w Hinv E) as (_ & Ht & _). unfold find_timer in Hf.
      rewrite Ht in Hf. discriminate. }
    destruct (action tm) as [id|arg|turn|fb] eqn:Hact; cbn [run_action].
    + apply inv_connect.
      * now apply inv_log.
      * destruct w; exact Hst.
      * assert (Hrec : is_reconnect tm = true) by (unfold is_reconnect; now rewrite Hact).
        unfold find_timer in Hf.
        pose proof (reconnect_count_remove t _ tm Hf Hrec) as Hle.
        destruct Hinv as [Hc _ _ _]. unfold chain_count in *.
        destruct w as [h p so ti sc co]; cbn in *. lia.
    + apply inv_with_page; [reflexivity..|exact Hinv1].
    + apply inv_with_page; [reflexivity..|exact Hinv1].
    + apply inv_with_page; [reflexivity..|exact Hinv1].
Qed.

Lemma inv_initial : Invariant initial.
Proof.
  constructor; cbn; auto.
  - intros t [].
  - discriminate.
Qed.

(** Every world the page reaches satisfies the invariant. *)
Lemma inv_run es : forall w,
  Invariant w -> Invariant (run loaded_first loaded_second es w).
Proof.
  induction es as [|e es IH]; intros w Hinv; [exact Hinv|].
  cbn [run]. apply IH. now apply inv_step.
Qed.

End Reach.


(** *** Timers and the open callback *)

Lemma find_filter_out h ti :
  find (fun t => Nat.eqb (timer_id t) h)
    (filter (fun t => negb (Nat.eqb (timer_id t) h)) ti) = None.
Proof.
  induction ti as [|t ti IH]; [reflexivity|].
  cbn. destruct (Nat.eqb (timer_id t) h) eqn:E; cbn; [exact IH|].
  now rewrite E.
Qed.

Lemma onopen_clears_ref w h :
  reconnectTimeoutRef (hook w) = Some h -> find_timer h (ws_onopen w) = None.
Proof.
  destruct w as [hk p so ti sc co]. cbn. intros Hr. unfold ws_onopen. cbn.
  rewrite Hr. unfold find_timer. cbn. apply find_filter_out.
Qed.

Lemma cleanup_clears_ref w h :
  reconnectTimeoutRef (hook w) = Some h -> find_timer h (cleanup w) = None.
Proof.
  intros Hr. unfold cleanup.
  set (w1 := match cleanup_socket (hook w) with
             | Some s => socket_close s w
             | None => w
             end).
  assert (H1 : hook w1 = hook w).
  { subst w1. destruct (cleanup_socket (hook w)) as [s|]; [|reflexivity].
    unfold socket_close. destruct (find_socket s w); [|reflexivity].
    destruct (readyState s0); reflexivity. }
  rewrite H1, Hr. unfold find_timer, clearTimeout.
  destruct w1; cbn. apply find_filter_out.
Qed.

Lemma live_count_pos s so sk :
  find (fun x => Nat.eqb (sock_id x) s) so = Some sk -> live sk = true ->
  1 <= List.length (filter live so).
Proof.
  intros Hf Hl. apply find_some in Hf. destruct Hf as [Hin _].
  assert (Hin' : In sk (filter live so)) by (apply filter_In; auto).
  destruct (filter live so); [destruct Hin'|cbn; lia].
Qed.

Lemma length_zero_nil {A} (l : list A) : List.length l = 0 -> l = [].
Proof. destruct l; [reflexivity|discriminate]. Qed.

Lemma filter_filter_nil {A} (p q : A -> bool) l :
  filter p l = [] -> filter p (filter q l) = [].
Proof.
  induction l as [|x l IH]; [reflexivity|].
  cbn. destruct (p x) eqn:Hp; [discriminate|].
  intros Hn. destruct (q x); cbn; [rewrite Hp|]; auto.
Qed.

Lemma simulator_filter_clear h ti :
  (forall t, In t ti -> timer_id t = h -> is_reconnect t = true) ->
  filter is_simulator (filter (fun t => negb (Nat.eqb (timer_id t) h)) ti)
  = filter is_simulator ti.
Proof.
  induction ti as [|t ti IH]; intros Hall; [reflexivity|].
  cbn. rewrite <- IH by (intros; apply Hall; [now right|assumption]).
  destruct (Nat.eqb (timer_id t) h) eqn:E; cbn.
  - apply Nat.eqb_eq in E. unfold is_simulator at 2.
    rewrite (Hall t (or_introl eq_refl) E). reflexivity.
  - reflexivity.
Qed.

Section Claims.
Variables (loaded_first loaded_second : Z).

(** C10: in every world the page can reach, when the open callback of
    a connecting socket fires, the timer held in [reconnectTimeoutRef]
    is no longer pending, no reconnection timer is pending at all, and
    so no timer that fires next creates a socket.  (The first part
    holds of [ws.onopen] in any world.) *)
Theorem open_leaves_no_pending_reconnect :
  forall (es : list Event) (s : nat) (sk : Socket),
    let w := run loaded_first loaded_second es initial in
    find_socket s w = Some sk -> readyState sk = CONNECTING ->
    let w' := step loaded_first loaded_second (SockOpen s) w in
    isConnected (hook w') = true /\
    (forall h, reconnectTimeoutRef (hook w) = Some h -> find_timer h w' = None) /\
    filter is_reconnect (timers w') = [] /\
    (forall t, sockets (step loaded_first loaded_second (TimerFire t) w') = sockets w') /\
    (forall w0 h, reconnectTimeoutRef (hook w0) = Some h ->
                  find_timer h (ws_onopen w0) = None).
Proof.
  intros es s sk w Hf Hr w'.
  assert (Hinv : Invariant w) by (apply inv_run, inv_initial).
  assert (Hl : live sk = true) by (unfold live; rewrite Hr; reflexivity).
  assert (Hnone : filter is_reconnect (timers w) = []).
  { apply length_zero_nil. destruct Hinv as [Hc _ _ _]. unfold chain_count in Hc.
    pose proof (live_count_pos s _ sk Hf Hl). lia. }
  assert (Hw' : w' = ws_onopen (set_readyState s OPEN w)).
  { subst w'. cbn [step]. rewrite Hf, Hr. reflexivity. }
  assert (Hnone' : filter is_reconnect (timers w') = []).
  { rewrite Hw'. unfold ws_onopen.
    destruct w as [hk p so ti sc co]; cbn in *.
    destruct (reconnectTimeoutRef hk); cbn; [|exact Hnone].
    now apply filter_filter_nil. }
  split; [|split; [|split; [|split]]].
  - rewrite Hw'. unfold ws_onopen. destruct w as [hk p so ti sc co]; cbn.
    destruct (reconnectTimeoutRef hk); reflexivity.
  - intros h Hh. rewrite Hw'. apply onopen_clears_ref.
    destruct w; exact Hh.
  - exact Hnone'.
  - intros t. cbn [step]. destruct (find_timer t w') as [tm|] eqn:Ht; [|reflexivity].
    destruct (find_some_id _ _ _ Ht) as [Hin _].
    assert (Hsim : is_reconnect tm = false).
    { destruct (is_reconnect tm) eqn:E; [|reflexivity].
      assert (Hin' : In tm (filter is_reconnect (timers w')))
        by (apply filter_In; auto).
      rewrite Hnone' in Hin'. destruct Hin'. }
    unfold is_reconnect in Hsim. destruct (action tm); [discriminate|..];
      destruct w'; reflexivity.
  - intros w0 h. apply onopen_clears_ref.
Qed.

(** C7 as amended: the cleanup of the hook cancels the reconnection
    timer held in [reconnectTimeoutRef]; in every world the page can
    reach, unmounting leaves every pending timer of the fallback
    simulator pending, and such a timer, when it fires, calls the state
    setter of its event. *)
Theorem teardown_clears_only_the_ref_timer :
  forall (es : list Event),
    let w := run loaded_first loaded_second es initial in
    (forall w0 h, reconnectTimeoutRef (hook w0) = Some h ->
                  find_timer h (cleanup w0) = None) /\
    filter is_simulator (timers (step loaded_first loaded_second Unmount w))
    = filter is_simulator (timers w) /\
    (forall t tm, find_timer t w = Some tm ->
       let w' := step loaded_first loaded_second (TimerFire t) w in
       match action tm with
       | Reconnect _ => True
       | AppendMockArgument arg =>
           mockArguments (page w') = (mockArguments (page w) ++ [arg])%list
       | AppendMockTurn turn =>
           mockDebateTurns (page w') = (mockDebateTurns (page w) ++ [turn])%list
       | SetMockFeedback fb => mockFeedback (page w') = Some fb
       end).
Proof.
  intros es w.
  assert (Hinv : Invariant w) by (apply inv_run, inv_initial).
  split; [intros; now apply cleanup_clears_ref|]. split.
  - cbn [step]. destruct (mounted (page w)); [|reflexivity].
    unfold cleanup.
    destruct Hinv as [_ _ _ Href].
    destruct w as [hk p so ti sc co]; cbn in *.
    assert (H1 : forall w1, timers w1 = ti ->
                 reconnectTimeoutRef (hook w1) = reconnectTimeoutRef hk ->
                 filter is_simulator
                   (timers match reconnectTimeoutRef (hook w1) with
                           | Some h => clearTimeout h w1
                           | None => w1
                           end) = filter is_simulator ti).
    { intros w1 Ht Hh. rewrite Hh. destruct (reconnectTimeoutRef hk) as [h|] eqn:E.
      - destruct w1; cbn in *. subst. apply simulator_filter_clear.
        destruct (Href h eq_refl) as [_ Hrec]. exact Hrec.
      - now rewrite Ht. }
    apply H1.
    + destruct (cleanup_socket hk) as [s|]; [|reflexivity].
      unfold socket_close. destruct (find_socket s _); [|reflexivity].
      destruct (readyState s0); reflexivity.
    + destruct (cleanup_socket hk) as [s|]; [|reflexivity].
      unfold socket_close. destruct (find_socket s _); [|reflexivity].
      destruct (readyState s0); reflexivity.
  - intros t tm Ht. cbn [step]. rewrite Ht.
    destruct (action tm); cbn; auto; destruct w; reflexivity.
Qed.


(** *** Repeated failure: the workflow channel *)

Lemma find_after_closed n x :
  sock_id x = n ->
  find (fun s => Nat.eqb (sock_id s) n) (map closed_socket (seq 0 n) ++ [x])
  = Some x.
Proof.
  intros Hx. 
  assert (Hgen : forall k m, k + m = n ->
            find (fun s => Nat.eqb (sock_id s) n)
              (map closed_socket (seq k m) ++ [x]) = Some x).
  { intros k m. revert k. induction m as [|m IH]; intros k Hk; cbn.
    - now rewrite Hx, Nat.eqb_refl.
    - assert (Hne : Nat.eqb k n = false) by (apply Nat.eqb_neq; lia).
      rewrite Hne. apply IH. lia. }
  apply (Hgen 0 n). lia.
Qed.

Lemma set_first_after_closed n r x :
  sock_id x = n ->
  set_first n r (map closed_socket (seq 0 n) ++ [x])
  = (map closed_socket (seq 0 n)
     ++ [{| sock_id := sock_id x; sock_workflowId := sock_workflowId x;
            readyState := r |}])%list.
Proof.
  intros Hx.
  assert (Hgen : forall k m, k + m = n ->
            set_first n r (map closed_socket (seq k m) ++ [x])
            = (map closed_socket (seq k m)
               ++ [{| sock_id := sock_id x; sock_workflowId := sock_workflowId x;
                      readyState := r |}])%list).
  { intros k m. revert k. induction m as [|m IH]; intros k Hk; cbn.
    - now rewrite Hx, Nat.eqb_refl.
    - assert (Hne : Nat.eqb k n = false) by (apply Nat.eqb_neq; lia).
      rewrite Hne. f_equal. apply IH. lia. }
  apply (Hgen 0 n). lia.
Qed.

Lemma shape_open n sc w :
  shape n CONNECTING [] sc w ->
  shape n OPEN [] sc (step loaded_first loaded_second (SockOpen n) w).
Proof.
  intros (Hs & Ht & Hsc). destruct w as [hk p so ti sc0 co]; cbn in Hs, Ht, Hsc.
  subst so ti sc0. cbn [step]. unfold find_socket. cbn [sockets].
  rewrite find_after_closed by reflexivity. cbn [readyState ready_eqb].
  unfold set_readyState, with_sockets. cbn [sockets hook page timers scheduled console].
  rewrite set_first_after_closed by reflexivity. cbn [sock_id sock_workflowId].
  unfold ws_onopen. cbn [log with_hook hook page sockets timers scheduled console].
  destruct (reconnectTimeoutRef _); repeat split; reflexivity.
Qed.

Lemma shape_fail n w e :
  e = SockError n \/ e = SockClose n ->
  shape n OPEN [] (map retry_timer (seq 0 n)) w ->
  shape n CLOSED [retry_timer n] (map retry_timer (seq 0 (S n)))
    (step loaded_first loaded_second e w).
Proof.
  intros He (Hs & Ht & Hsc). destruct w as [hk p so ti sc0 co]; cbn in Hs, Ht, Hsc.
  subst so ti sc0.
  destruct He as [-> | ->]; cbn [step]; unfold find_socket; cbn [sockets];
    rewrite find_after_closed by reflexivity;
    cbn [readyState ready_eqb sock_workflowId];
    unfold set_readyState, with_sockets;
    cbn [sockets hook page timers scheduled console];
    rewrite set_first_after_closed by reflexivity; cbn [sock_id sock_workflowId];
    unfold ws_onerror, ws_onclose, shape; cbn -[seq];
    rewrite length_map, length_seq, seq_S, map_app; repeat split; reflexivity.
Qed.

Lemma shape_retry n sc w :
  shape n CLOSED [retry_timer n] sc w ->
  shape (S n) CONNECTING [] sc
    (step loaded_first loaded_second (TimerFire (S n)) w).
Proof.
  intros (Hs & Ht & Hsc). destruct w as [hk p so ti sc0 co]; cbn in Hs, Ht, Hsc.
  subst so ti sc0. cbn [step]. unfold find_timer. cbn [timers find timer_id retry_timer].
  rewrite Nat.eqb_refl. cbn [action run_action].
  unfold clearTimeout, with_timers.
  cbn [filter timer_id hook page sockets timers scheduled console].
  rewrite Nat.eqb_refl. cbn [negb].
  unfold connect, shape. cbn -[seq].
  rewrite length_app, length_map, length_seq. cbn -[seq].
  rewrite Nat.add_1_r, seq_S, map_app. cbn -[seq].
  repeat split; reflexivity.
Qed.

Lemma cycled_step n w :
  shape n CONNECTING [] (map retry_timer (seq 0 n)) w ->
  shape (S n) CONNECTING [] (map retry_timer (seq 0 (S n)))
    (run loaded_first loaded_second (retry_cycle n) w).
Proof.
  intros Hw. unfold retry_cycle. cbn [run].
  apply shape_retry, shape_fail; [now left|]. now apply shape_open.
Qed.

Lemma run_app es1 : forall es2 w,
  run loaded_first loaded_second (es1 ++ es2) w
  = run loaded_first loaded_second es2 (run loaded_first loaded_second es1 w).
Proof.
  induction es1 as [|e es1 IH]; intros es2 w; [reflexivity|].
  cbn [app run]. apply IH.
Qed.

Lemma cycled_run n w :
  shape 0 CONNECTING [] [] w ->
  shape n CONNECTING [] (map retry_timer (seq 0 n))
    (run loaded_first loaded_second (retry_cycles n) w).
Proof.
  intros H0. induction n as [|n IH]; [exact H0|].
  cbn [retry_cycles]. rewrite run_app. now apply cycled_step.
Qed.


(** *** Repeated failure: the notification channel *)

Lemma nth_error_after_repeat {A} (x y : A) n :
  nth_error (repeat x n ++ [y]) n = Some y.
Proof.
  rewrite nth_error_app2 by (rewrite repeat_length; lia).
  rewrite repeat_length, Nat.sub_diag. reflexivity.
Qed.

Lemma set_nth_after_repeat r y n :
  Notification.set_nth n r (repeat CLOSED n ++ [y]) = (repeat CLOSED n ++ [r])%list.
Proof. induction n as [|n IH]; cbn; [reflexivity|now rewrite IH]. Qed.

Lemma notify_open n sc w :
  notify_shape n CONNECTING [] sc w ->
  notify_shape n OPEN [] sc (Notification.step (Notification.SockOpen n) w).
Proof.
  intros (Hs & Ht & Hsc). destruct w as [ws so ti sc0 ef co]; cbn in Hs, Ht, Hsc.
  subst so ti sc0. cbn [Notification.step Notification.sockets].
  rewrite nth_error_after_repeat. unfold notify_shape. cbn.
  rewrite set_nth_after_repeat. repeat split; reflexivity.
Qed.

Lemma notify_fail n w e :
  e = Notification.SockError n \/ e = Notification.SockClose n ->
  notify_shape n OPEN [] (map notify_timer (seq 0 n)) w ->
  notify_shape n CLOSED [notify_timer n] (map notify_timer (seq 0 (S n)))
    (Notification.step e w).
Proof.
  intros He (Hs & Ht & Hsc). destruct w as [ws so ti sc0 ef co]; cbn in Hs, Ht, Hsc.
  subst so ti sc0.
  destruct He as [-> | ->]; cbn [Notification.step Notification.sockets];
    rewrite nth_error_after_repeat; unfold notify_shape; cbn -[seq];
    rewrite set_nth_after_repeat, length_map, length_seq, seq_S, map_app;
    repeat split; reflexivity.
Qed.

Lemma notify_retry n sc w :
  notify_shape n CLOSED [notify_timer n] sc w ->
  notify_shape (S n) CONNECTING [] sc
    (Notification.step (Notification.TimerFire (S n)) w).
Proof.
  intros (Hs & Ht & Hsc). destruct w as [ws so ti sc0 ef co]; cbn in Hs, Ht, Hsc.
  subst so ti sc0. cbn [Notification.step Notification.timers existsb notify_timer
                        Notification.timer_id].
  rewrite Nat.eqb_refl. cbn [orb]. unfold notify_shape. cbn.
  rewrite Nat.eqb_refl. cbn -[repeat].
  rewrite <- (repeat_cons n CLOSED). repeat split; reflexivity.
Qed.

Lemma notify_run_app es1 : forall es2 w,
  Notification.run (es1 ++ es2) w
  = Notification.run es2 (Notification.run es1 w).
Proof.
  induction es1 as [|e es1 IH]; intros es2 w; [reflexivity|].
  cbn [app Notification.run]. apply IH.
Qed.

Lemma notify_cycled_run n w :
  notify_shape 0 CONNECTING [] [] w ->
  notify_shape n CONNECTING [] (map notify_timer (seq 0 n))
    (Notification.run (notify_cycles n) w).
Proof.
  intros H0. induction n as [|n IH]; [exact H0|].
  cbn [notify_cycles]. rewrite notify_run_app. unfold notify_cycle.
  cbn [Notification.run].
  apply notify_retry, notify_fail; [now left|]. now apply notify_open.
Qed.

Lemma notification_close_schedules w s r e :
  nth_error (Notification.sockets w) s = Some r -> r <> CLOSED ->
  e = Notification.SockClose s \/ e = Notification.SockError s ->
  let w' := Notification.step e w in
  let t := {| Notification.timer_id := S (List.length (Notification.scheduled w));
              Notification.delay := 5000 |} in
  Notification.timers w' = (Notification.timers w ++ [t])%list /\
  Notification.scheduled w' = (Notification.scheduled w ++ [t])%list /\
  Notification.sockets w'
  = Notification.set_nth s CLOSED (Notification.sockets w).
Proof.
  intros Hn Hr He. cbn zeta.
  destruct He as [-> | ->]; cbn [Notification.step]; rewrite Hn;
    destruct r; try congruence; destruct w; cbn; repeat split; reflexivity.
Qed.

(** C5: on either channel a close event, or an error event (which the
    browser follows with a close event), on an open socket leaves the
    socket closed and registers one reconnection timer with the fixed
    delay of the channel (3000 ms, 5000 ms), whatever happened before;
    on the workflow channel the hook is then disconnected.  Under [n]
    repeated open, error, reconnect cycles, for every [n], exactly [n]
    reconnections have been registered, each with the fixed delay, and
    the next connection attempt is under way. *)
Theorem close_or_error_always_schedules_reconnect :
  (forall (w : World) (s : nat) (sk : Socket) (e : Event),
      find_socket s w = Some sk -> readyState sk = OPEN ->
      e = SockClose s \/ e = SockError s ->
      let w' := step loaded_first loaded_second e w in
      let t := {| timer_id := S (List.length (scheduled w)); delay := 3000;
                  action := Reconnect (sock_workflowId sk) |} in
      isConnected (hook w') = false /\ socket (hook w') = None /\
      timers w' = (timers w ++ [t])%list /\
      scheduled w' = (scheduled w ++ [t])%list /\
      reconnectTimeoutRef (hook w') = Some (timer_id t) /\
      find_socket s w'
      = Some {| sock_id := sock_id sk; sock_workflowId := sock_workflowId sk;
                readyState := CLOSED |}) /\
  (forall (w : Notification.World) (s : nat) (e : Notification.Event),
      nth_error (Notification.sockets w) s = Some OPEN ->
      e = Notification.SockClose s \/ e = Notification.SockError s ->
      let w' := Notification.step e w in
      let t := {| Notification.timer_id :=
                    S (List.length (Notification.scheduled w));
                  Notification.delay := 5000 |} in
      Notification.timers w' = (Notification.timers w ++ [t])%list /\
      Notification.scheduled w' = (Notification.scheduled w ++ [t])%list /\
      Notification.sockets w'
      = Notification.set_nth s CLOSED (Notification.sockets w)) /\
  (forall n : nat,
      let w := run loaded_first loaded_second (retry_cycles n)
                 (started "texting while walking") in
      scheduled w = map retry_timer (seq 0 n) /\
      timers w = [] /\
      find_socket n w
      = Some {| sock_id := n; sock_workflowId := MOCK_WORKFLOW_ID;
                readyState := CONNECTING |}) /\
  (forall n : nat,
      let w := Notification.run (notify_cycles n) Notification.initial in
      Notification.scheduled w = map notify_timer (seq 0 n) /\
      Notification.timers w = [] /\
      nth_error (Notification.sockets w) n = Some CONNECTING).
Proof.
  split; [|split; [|split]].
  - intros w s sk e Hf Hr He.
    apply workflow_close_schedules; [exact Hf| |tauto].
    rewrite Hr. discriminate.
  - intros w s e Hn He.
    apply (notification_close_schedules w s OPEN e Hn); [discriminate|exact He].
  - intros n. cbn zeta.
    destruct (cycled_run n (started "texting while walking")) as (Hs & Ht & Hsc).
    { repeat split. }
    split; [exact Hsc|]. split; [exact Ht|].
    unfold find_socket. rewrite Hs. now apply find_after_closed.
  - intros n. cbn zeta.
    destruct (notify_cycled_run n Notification.initial) as (Hs & Ht & Hsc).
    { repeat split. }
    split; [exact Hsc|]. split; [exact Ht|].
    rewrite Hs. apply nth_error_after_repeat.
Qed.

End Claims.

(** C3: on the notification channel no [try] surrounds [JSON.parse]:
    a payload that does not parse makes [onmessage] raise the
    SyntaxError, which leaves the handler uncaught; the workflow
    channel catches and logs the same failure. *)
Theorem notification_parse_failure_is_not_caught :
  forall (raw : string) (w : Notification.World),
    JSON_parse raw = None ->
    Notification.onmessage raw w = (Throw SyntaxError, w) /\
    (forall s, nth_error (Notification.sockets w) s = Some OPEN ->
       Notification.step (Notification.SockMessage s raw) w
       = Notification.log (Notification.LogUncaught SyntaxError) w) /\
    (forall w' : World,
       ws_onmessage raw w' = (Ret tt, log (LogParseError SyntaxError) w')).
Proof.
  intros raw w Hp. split; [now apply notification_unparsable|]. split.
  - intros s Hs. cbn [Notification.step]. rewrite Hs.
    now rewrite notification_unparsable.
  - intros w'. now apply ws_onmessage_unparsable.
Qed.

End WithPlatform.

(** *** Evaluations on literal input, with the reference [JSON.parse] *)

Import JSONRef.

Lemma parsed_message_is_logged_then_routed_witness :
  let after raw := hook (snd (ws_onmessage raw open_world)) in
  (JSON_parse workflow_update_text = Some workflow_update_value /\
   messages (after workflow_update_text) = [workflow_update_value] /\
   projections (after workflow_update_text)
   = (Some workflow_update_value, [], [], None)) /\
  (JSON_parse (typed_text "argument_generated" "agent" "Analyst")
   = Some (typed_value "argument_generated" "agent" "Analyst") /\
   projections (after (typed_text "argument_generated" "agent" "Analyst"))
   = (None, [typed_value "argument_generated" "agent" "Analyst"], [], None)) /\
  (JSON_parse (typed_text "debate_turn" "turn" "1")
   = Some (typed_value "debate_turn" "turn" "1") /\
   projections (after (typed_text "debate_turn" "turn" "1"))
   = (None, [], [typed_value "debate_turn" "turn" "1"], None)) /\
  (JSON_parse (typed_text "feedback_ready" "note" "done")
   = Some (typed_value "feedback_ready" "note" "done") /\
   projections (after (typed_text "feedback_ready" "note" "done"))
   = (None, [], [], Some (typed_value "feedback_ready" "note" "done"))) /\
  (JSON_parse (typed_text "ping" "note" "x")
   = Some (typed_value "ping" "note" "x") /\
   messages (after (typed_text "ping" "note" "x"))
   = [typed_value "ping" "note" "x"] /\
   projections (after (typed_text "ping" "note" "x")) = (None, [], [], None)).
Proof.
  cbn zeta. unfold projections.
  assert (P1 : JSON_parse workflow_update_text = Some workflow_update_value)
    by reflexivity.
  assert (P2 : JSON_parse (typed_text "argument_generated" "agent" "Analyst")
               = Some (typed_value "argument_generated" "agent" "Analyst"))
    by reflexivity.
  assert (P3 : JSON_parse (typed_text "debate_turn" "turn" "1")
               = Some (typed_value "debate_turn" "turn" "1")) by reflexivity.
  assert (P4 : JSON_parse (typed_text "feedback_ready" "note" "done")
               = Some (typed_value "feedback_ready" "note" "done"))
    by reflexivity.
  assert (P5 : JSON_parse (typed_text "ping" "note" "x")
               = Some (typed_value "ping" "note" "x")) by reflexivity.
  split; [|split; [|split; [|split]]].
  - destruct (parsed_message_is_logged_then_routed _ _ open_world P1)
      as (_ & Hm & Hw & _).
    destruct (Hw eq_refl) as (A & B & C & D).
    split; [exact P1|]. split; [exact Hm|]. now rewrite A, B, C, D.
  - destruct (parsed_message_is_logged_then_routed _ _ open_world P2)
      as (_ & _ & _ & Ha & _).
    destruct (Ha eq_refl) as (A & B & C & D).
    split; [exact P2|]. now rewrite A, B, C, D.
  - destruct (parsed_message_is_logged_then_routed _ _ open_world P3)
      as (_ & _ & _ & _ & Ht & _).
    destruct (Ht eq_refl) as (A & B & C & D).
    split; [exact P3|]. now rewrite A, B, C, D.
  - destruct (parsed_message_is_logged_then_routed _ _ open_world P4)
      as (_ & _ & _ & _ & _ & Hf & _).
    destruct (Hf eq_refl) as (A & B & C & D).
    split; [exact P4|]. now rewrite A, B, C, D.
  - destruct (parsed_message_is_logged_then_routed _ _ open_world P5)
      as (_ & Hm & _ & _ & _ & _ & Hu & _).
    destruct Hu as (A & B & C & D).
    { intros ty [= <-]. repeat split; discriminate. }
    split; [exact P5|]. split; [exact Hm|]. now rewrite A, B, C, D.
Defined.

Lemma texting_while_walking_schedule_witness :
  includes (toLowerCase "Client fell; she was Texting While Walking.")
    "texting while walking" = true /\
  getMockResponse 0 0 0 single "Client fell; she was Texting While Walking."
  = personalInjury 0 0.
Proof.
  assert (Hin : includes
                  (toLowerCase "Client fell; she was Texting While Walking.")
                  "texting while walking" = true) by reflexivity.
  destruct (texting_while_walking_schedule 0 0 0 initial) as (_ & _ & Hsel & _).
  split; [exact Hin|]. exact (Hsel _ Hin).
Defined.

Lemma notification_parse_failure_is_not_caught_witness :
  JSON_parse "{not json" = None /\
  Notification.onmessage "{not json" Notification.initial
  = (Throw SyntaxError, Notification.initial) /\
  ws_onmessage "{not json" initial
  = (Ret tt, log (LogParseError SyntaxError) initial).
Proof.
  assert (Hp : JSON_parse "{not json" = None) by reflexivity.
  destruct (notification_parse_failure_is_not_caught _ Notification.initial Hp)
    as (Hn & _ & Hw).
  split; [exact Hp|]. split; [exact Hn|]. apply Hw.
Defined.

Lemma close_or_error_always_schedules_reconnect_witness :
  find_socket 0 open_world
  = Some {| sock_id := 0; sock_workflowId := MOCK_WORKFLOW_ID;
            readyState := OPEN |} /\
  let w' := step 0 0 (SockError 0) open_world in
  isConnected (hook w') = false /\ socket (hook w') = None /\
  timers w'
  = [{| timer_id := 1; delay := 3000; action := Reconnect MOCK_WORKFLOW_ID |}] /\
  reconnectTimeoutRef (hook w') = Some 1.
Proof.
  assert (Hf : find_socket 0 open_world
               = Some {| sock_id := 0; sock_workflowId := MOCK_WORKFLOW_ID;
                         readyState := OPEN |}) by reflexivity.
  destruct (close_or_error_always_schedules_reconnect 0 0) as (Hw & _).
  destruct (Hw open_world 0 _ (SockError 0) Hf eq_refl (or_intror eq_refl))
    as (A & B & C & _ & D & _).
  split; [exact Hf|]. split; [exact A|]. split; [exact B|].
  split; [exact C|exact D].
Defined.

Lemma open_leaves_no_pending_reconnect_witness :
  let es := [SetUserInput "texting while walking"; StartClicked;
             SockError 0; TimerFire 1] in
  let w := run 0 0 es initial in
  find_socket 1 w
  = Some {| sock_id := 1; sock_workflowId := MOCK_WORKFLOW_ID;
            readyState := CONNECTING |} /\
  reconnectTimeoutRef (hook w) = Some 1 /\
  let w' := step 0 0 (SockOpen 1) w in
  isConnected (hook w') = true /\ find_timer 1 w' = None /\
  filter is_reconnect (timers w') = [].
Proof.
  cbn zeta.
  assert (Hf : find_socket 1
                 (run 0 0 [SetUserInput "texting while walking"; StartClicked;
                           SockError 0; TimerFire 1] initial)
               = Some {| sock_id := 1; sock_workflowId := MOCK_WORKFLOW_ID;
                         readyState := CONNECTING |}) by reflexivity.
  destruct (open_leaves_no_pending_reconnect 0 0 _ 1 _ Hf eq_refl)
    as (A & B & C & _).
  split; [exact Hf|]. split; [reflexivity|]. split; [exact A|].
  split; [exact (B 1 eq_refl)|exact C].
Defined.

(** C7, counterexample: the request fails, the simulator registers its
    three timers, and the user leaves the page.  The cleanup cancels
    none of them: all three are pending after the unmount, and each
    still fires. *)
Lemma simulator_timers_survive_unmount :
  let w := run 0 0 abandoned_simulation initial in
  mounted (page w) = false /\
  map delay (timers w) = [1000; 2000; 3000]%Z /\
  forallb is_simulator (timers w) = true /\
  timers (step 0 0 (TimerFire 1) w) <> timers w.
Proof.
  cbn zeta. split; [reflexivity|]. split; [reflexivity|].
  split; [reflexivity|]. vm_compute. discriminate.
Qed.

Lemma teardown_clears_only_the_ref_timer_witness :
  let w := run 0 0 [SetUserInput "texting while walking"; StartClicked;
                    StartFailed 0; SockError 0] initial in
  reconnectTimeoutRef (hook w) = Some 4 /\
  map timer_id (timers w) = [1; 2; 3; 4] /\
  find_timer 4 (cleanup w) = None /\
  map timer_id (timers (step 0 0 Unmount w)) = [1; 2; 3].
Proof.
  cbn zeta.
  destruct (teardown_clears_only_the_ref_timer 0 0
              [SetUserInput "texting while walking"; StartClicked;
               StartFailed 0; SockError 0]) as (A & _ & _).
  split; [reflexivity|]. split; [reflexivity|].
  split; [|reflexivity].
  exact (A (run 0 0 [SetUserInput "texting while walking"; StartClicked;
                     StartFailed 0; SockError 0] initial) 4 eq_refl).
Defined.

End ChannelFacts.

(* ================================================================== *)
(** ** Facts about the array operations *)
(* ================================================================== *)

Module JSArrayFacts.
Import JSArray.

Lemma last_of_snoc {A : Type} (l : list A) (x : A) :
  last_of (l ++ [x]) = Some x.
Proof.
  induction l as [|y l IH]; [reflexivity|].
  cbn [app last_of]. destruct (l ++ [x])%list eqn:E; [|exact IH].
  now destruct l.
Qed.

Lemma filter_snoc {A : Type} (p : A -> bool) (l : list A) (x : A) :
  filter p (l ++ [x]) = (filter p l ++ if p x then [x] else [])%list.
Proof. rewrite filter_app. cbn. now destruct (p x). Qed.

Lemma slice_from_suffix {A : Type} (start : Z) (l : list A) :
  exists older, l = (older ++ slice_from start l)%list.
Proof.
  unfold slice_from. exists (firstn (Z.to_nat
    (if (start <? 0)%Z then Z.max (Z.of_nat (List.length l) + start) 0
     else Z.min start (Z.of_nat (List.length l)))) l).
  now rewrite firstn_skipn.
Qed.

Lemma slice_from_length {A : Type} (limit : Z) (l : list A) :
  (0 <= limit)%Z ->
  List.length (slice_from (- limit) l)
  = if (limit =? 0)%Z then List.length l
    else Nat.min (Z.to_nat limit) (List.length l).
Proof.
  intros Hl. unfold slice_from. rewrite length_skipn.
  destruct (Z.eqb_spec limit 0) as [->|Hne].
  - cbn. lia.
  - destruct (Z.ltb_spec (- limit) 0); lia.
Qed.

End JSArrayFacts.

(* ================================================================== *)
(** ** Facts about the request path of [chat.js] *)
(* ================================================================== *)

Module ConversationFacts.
Import JS Exn Stream StreamSpec JSArray Conversation StreamFacts JSArrayFacts.

Section Facts.
Context `{Platform}.

Lemma update_element_last t f d e :
  find (fun x => Z.eqb (el_id x) t) d = None -> el_id e = t ->
  update_element t f (d ++ [e]) = (d ++ [f e])%list.
Proof.
  intros Hd He. induction d as [|x d IH]; cbn.
  - rewrite He, Z.eqb_refl. reflexivity.
  - cbn in Hd. destruct (Z.eqb (el_id x) t); [discriminate|].
    now rewrite IH.
Qed.

Lemma find_last_fresh t d (e : Element) :
  find (fun x => Z.eqb (el_id x) t) d = None -> el_id e = t ->
  find (fun x => Z.eqb (el_id x) t) (d ++ [e]) = Some e.
Proof.
  intros Hd He. induction d as [|x d IH]; cbn.
  - now rewrite He, Z.eqb_refl.
  - cbn in Hd. destruct (Z.eqb (el_id x) t); [discriminate|]. now apply IH.
Qed.

Lemma after_content_rendering c t d l s :
  rendering t d l s ->
  rendering t d l (after_content c s) /\
  accumulatedContent (after_content c s) = accumulatedContent s ++ c /\
  has_marked (after_content c s) = has_marked s.
Proof.
  intros (Hid & Hd & Hdom & Hms).
  destruct s as [id acc ms hc ha hm dm p n co ca]. cbn in *. subst id dm ms.
  unfold after_content, rendering. cbn.
  unfold updateStreamingMessage, bind, modify, gets. cbn.
  rewrite find_last_fresh; [|exact Hd|reflexivity]. cbn.
  rewrite update_element_last; [|exact Hd|reflexivity]. cbn.
  repeat split; auto.
Qed.

Lemma content_lines_rendering lines : forall cs t d l s,
  Forall2 (fun ln c => content_of ln = Some c) lines cs ->
  rendering t d l s ->
  rendering t d l (exec_lines lines s) /\
  accumulatedContent (exec_lines lines s)
  = accumulatedContent s ++ concat_deltas cs /\
  has_marked (exec_lines lines s) = has_marked s.
Proof.
  induction lines as [|ln rest IH]; intros cs t d l s HF Hr;
    inversion HF as [|? c ? cs' Hc HF']; subst.
  - cbn. rewrite JSFacts.append_nil_r. auto.
  - rewrite exec_lines_cons, (exec_line_content _ _ _ Hc).
    destruct (after_content_rendering c t d l s Hr) as (Hr1 & Ha1 & Hm1).
    destruct (IH _ _ _ _ _ HF' Hr1) as (Hr2 & Ha2 & Hm2).
    split; [exact Hr2|]. split.
    + rewrite Ha2, Ha1. cbn. apply JSFacts.append_assoc.
    + now rewrite Hm2.
Qed.

Lemma first_content_rendering c s l :
  assistantMessageId s = None -> messages s = Some l ->
  has_chatMessages s = true ->
  getElementById (Some (now s)) (dom s) = None ->
  rendering (now s) (dom s)
    (l ++ [{| msg_id := now s; msg_type := "assistant";
              msg_content := EmptyString; msg_isStreaming := true |}])%list
    (after_content c s) /\
  accumulatedContent (after_content c s) = accumulatedContent s ++ c /\
  has_marked (after_content c s) = has_marked s.
Proof.
  destruct s as [id acc ms hc ha hm dm p n co ca]. cbn.
  intros -> -> -> Hd.
  unfold after_content, rendering. cbn.
  unfold addAssistantMessage, appendMessage, updateStreamingMessage,
    bind, modify, gets, set_messages. cbn.
  rewrite find_last_fresh; [|exact Hd|reflexivity]. cbn.
  rewrite update_element_last; [|exact Hd|reflexivity]. cbn.
  repeat split; auto.
Qed.

(** X1: on a page whose message store is an array, whose chat
    container exists and on which no element has the identifier of the
    current time yet, a non-empty run of valid content lines creates one
    assistant element with that identifier, whose bubble shows the text
    accumulated so far followed by the deltas in arrival order, with the
    cursor when the markdown library is loaded, and adds one streaming
    entry to the store. *)
Theorem streamed_text_is_rendered_in_one_message :
  forall (lines cs : list string) (s : State) (l : list ChatMessage),
    Forall2 (fun ln c => content_of ln = Some c) lines cs ->
    lines <> [] ->
    assistantMessageId s = None ->
    messages s = Some l ->
    has_chatMessages s = true ->
    getElementById (Some (now s)) (dom s) = None ->
    let s' := snd (process_lines lines s) in
    assistantMessageId s' = Some (now s) /\
    dom s' = (dom s ++ [{| el_id := now s; el_streaming := true;
                           el_bubble := accumulatedContent s ++ concat_deltas cs;
                           el_cursor := has_marked s |}])%list /\
    messages s'
    = Some (l ++ [{| msg_id := now s; msg_type := "assistant";
                     msg_content := EmptyString;
                     msg_isStreaming := true |}])%list.
Proof.
  intros lines cs s l HF Hne Hid Hms Hc Hd. cbn zeta.
  change (snd (process_lines lines s)) with (exec_lines lines s).
  destruct lines as [|ln rest]; [congruence|].
  inversion HF as [|? c ? cs' Hc1 HF']; subst.
  rewrite exec_lines_cons, (exec_line_content _ _ _ Hc1).
  destruct (first_content_rendering c s l Hid Hms Hc Hd) as (Hr1 & Ha1 & Hm1).
  destruct (content_lines_rendering rest cs' _ _ _ _ HF' Hr1)
    as ((Hid2 & _ & Hdom2 & Hms2) & Ha2 & Hm2).
  split; [exact Hid2|]. split; [|exact Hms2].
  rewrite Hdom2, Ha2, Ha1, Hm2, Hm1. cbn. now rewrite JSFacts.append_assoc.
Qed.


(* ---- then a complete line, then more content ---- *)

(** X2: a complete line removes the [streaming] class and the cursor
    of the session's element, but the session goes on: a content line
    that follows is still accumulated and rendered into that element,
    which gets its cursor back when the markdown library is loaded and
    stays without the [streaming] class. *)
Theorem content_after_complete_restores_cursor :
  forall (complete more : string) (c : string) (s : State) (t : Z) (e : Element),
    is_complete complete = true ->
    content_of more = Some c ->
    assistantMessageId s = Some t ->
    getElementById (Some t) (dom s) = Some e ->
    let s1 := snd (process_line complete s) in
    let s2 := snd (process_line more s1) in
    getElementById (Some t) (dom s1)
    = Some {| el_id := el_id e; el_streaming := false;
              el_bubble := el_bubble e; el_cursor := false |} /\
    accumulatedContent s2 = accumulatedContent s ++ c /\
    getElementById (Some t) (dom s2)
    = Some {| el_id := el_id e; el_streaming := false;
              el_bubble := accumulatedContent s ++ c;
              el_cursor := has_marked s |}.
Proof.
  intros complete more c s t e Hcomp Hc Hid He. cbn zeta.
  change (snd (process_line more (snd (process_line complete s))))
    with (exec_line more (exec_line complete s)).
  change (snd (process_line complete s)) with (exec_line complete s).
  rewrite (exec_line_complete _ _ Hcomp), (exec_line_content _ _ _ Hc).
  destruct (after_complete_message s t e Hid He) as (Hid1 & Hacc1 & Hd1 & _ & _).
  split; [exact Hd1|].
  rewrite after_content_accumulates, Hacc1. split; [reflexivity|].
  assert (Hm : has_marked (after_complete s) = has_marked s).
  { destruct s as [id acc ms hc ha hm dm p n co ca]. cbn in *. subst id.
    unfold after_complete, finalizeStreamingMessage, bind, modify, gets, throw.
    cbn. rewrite He. cbn. destruct ms; reflexivity. }
  revert Hid1 Hacc1 Hd1 Hm. generalize (after_complete s). intros s1 Hid1 Hacc1 Hd1 Hm.
  destruct s1 as [id acc ms hc ha hm dm p n co ca]. cbn in *. subst id.
  unfold after_content. cbn.
  unfold updateStreamingMessage, bind, modify, gets. cbn. rewrite Hd1. cbn.
  rewrite find_update_element by reflexivity. rewrite Hd1. cbn.
  now rewrite Hacc1, Hm.
Qed.

(* ---- analysis lines ---- *)

Lemma is_analysis_inv line :
  is_analysis line = true ->
  startsWith line "data: " = true /\
  exists data, JSON_parse (slice 6 line) = Some data /\
    get_prop data "type" = inr (Some (JStr "analysis")).
Proof.
  unfold is_analysis. destruct (startsWith line "data: "); [|discriminate].
  destruct (JSON_parse (slice 6 line)) as [data|] eqn:Hp; [|discriminate].
  destruct (get_prop data "type") as [e|ty] eqn:Hty; [discriminate|].
  cbn. intros Hs. apply JSFacts.strict_eq_str_true in Hs. subst.
  split; [reflexivity|]. exists data. auto.
Qed.

(** X3: a line of type [analysis] is handed to [updateAnalysisPanel]
    and nothing else: the line handler returns, and the accumulated
    text, the session's identifier, the message elements and the store
    are unchanged; without an analysis tab the panel and the console are
    unchanged too. *)
Theorem analysis_line_is_forwarded_not_accumulated :
  forall (line : string) (s : State),
    is_analysis line = true ->
    let s' := snd (process_line line s) in
    fst (process_line line s) = Ret tt /\
    accumulatedContent s' = accumulatedContent s /\
    assistantMessageId s' = assistantMessageId s /\
    dom s' = dom s /\ messages s' = messages s /\
    (exists a, calls s' = (calls s ++ [CallAnalysis a])%list) /\
    (has_analysisTab s = false -> panel s' = panel s /\ console s' = console s).
Proof.
  intros line s Ha. cbn zeta. split; [apply process_line_returns|].
  destruct (is_analysis_inv _ Ha) as (Hm & data & Hp & Hty).
  unfold process_line. rewrite Hm.
  unfold try_catch, handle_data, bind, lift. rewrite Hp. cbn [ret].
  rewrite Hty. cbn [ret strict_eq_str String.eqb Ascii.eqb Bool.eqb].
  assert (Hd : exists a, get_prop data "analysis" = inr a).
  { destruct data; cbn in Hty |- *; try discriminate; eauto. }
  destruct Hd as (a & Hga). rewrite Hga. cbn [ret].
  destruct s as [id acc ms hc ha hm dm p n co ca].
  unfold updateAnalysisPanel, bind, modify, gets, throw, lift. cbn.
  destruct ha; cbn.
  - destruct a as [a|]; cbn; [|repeat split; eauto; discriminate].
    destruct (get_prop a "summary") as [e1|summary]; cbn;
      [repeat split; eauto; discriminate|].
    destruct (get_prop a "risks") as [e2|risks]; cbn;
      [repeat split; eauto; discriminate|].
    destruct (get_prop a "recommendations") as [e3|recs]; cbn;
      [repeat split; eauto; discriminate|].
    destruct (_ && _); cbn; repeat split; eauto; discriminate.
  - repeat split; eauto.
Qed.

End Facts.

(* ---- the conversation context ---- *)

(** X4: for a limit that is not negative, [getConversationContext]
    returns the entries of a suffix of the store, in order, each with
    role [user] or [assistant], and leaves the state alone.  The suffix
    has [limit] messages, or all of them when there are fewer; a limit
    of 0 yields the whole store, since [slice(-0)] is [slice(0)]. *)
Theorem context_is_the_most_recent_entries :
  forall (limit : Z) (l : list ChatMessage) (s : State),
    (0 <= limit)%Z ->
    messages s = Some l ->
    exists older recent,
      l = (older ++ recent)%list /\
      List.length recent
      = (if (limit =? 0)%Z then List.length l
         else Nat.min (Z.to_nat limit) (List.length l)) /\
      getConversationContext limit s = (Ret (map entry_of recent), s) /\
      Forall (fun e => role e = "user" \/ role e = "assistant")
             (map entry_of recent).
Proof.
  intros limit l s Hl Hms.
  destruct (slice_from_suffix (- limit) l) as (older & Hsplit).
  exists older, (slice_from (- limit) l).
  split; [exact Hsplit|]. split; [now apply slice_from_length|]. split.
  - unfold getConversationContext, bind, gets, ret. now rewrite Hms.
  - apply Forall_forall. intros e Hin. apply in_map_iff in Hin.
    destruct Hin as (m & <- & _). unfold entry_of. cbn.
    destruct (String.eqb (msg_type m) "user"); auto.
Qed.

(** X5: on the page as [chat.js] declares it, where [ChatState] has
    no [messages], [sendEnhancedMessage] raises a TypeError in
    [addUserMessage], outside its [try] and before any request is
    built; the element of the user's message has already been appended
    when the chat container exists. *)
Theorem sending_on_the_declared_state_stops_before_the_request :
  forall (message : string) (files : nat) (s : State),
    message <> EmptyString \/ files <> 0 ->
    messages s = ChatState_messages_initial ->
    fst (sendEnhancedMessage_request message files s) = Throw TypeError /\
    messages (snd (sendEnhancedMessage_request message files s)) = None /\
    dom (snd (sendEnhancedMessage_request message files s))
    = if has_chatMessages s
      then (dom s ++ [{| el_id := now s; el_streaming := false;
                         el_bubble := message; el_cursor := false |}])%list
      else dom s.
Proof.
  intros message files s Hne Hms. unfold sendEnhancedMessage_request.
  assert (Hg : String.eqb message EmptyString && Nat.eqb files 0 = false).
  { destruct Hne as [Hm|Hf].
    - apply String.eqb_neq in Hm. now rewrite Hm.
    - apply Nat.eqb_neq in Hf. rewrite Hf. apply andb_false_r. }
  rewrite Hg. destruct s as [id acc ms hc ha hm dm p n co ca].
  cbn in Hms. subst ms.
  unfold addUserMessage, appendMessage, bind, modify, gets, throw. cbn.
  destruct hc; cbn; repeat split.
Qed.

Lemma request_effect message files s l :
  message <> EmptyString \/ files <> 0 ->
  messages s = Some l ->
  let m := {| msg_id := now s; msg_type := "user"; msg_content := message;
              msg_isStreaming := false |} in
  fst (sendEnhancedMessage_request message files s)
  = Ret (Some {| req_message := message; req_files := files;
                 req_context :=
                   map entry_of (slice_from (- 10) (l ++ [m])) |}) /\
  messages (snd (sendEnhancedMessage_request message files s))
  = Some (l ++ [m])%list.
Proof.
  intros Hne Hms. unfold sendEnhancedMessage_request.
  assert (Hg : String.eqb message EmptyString && Nat.eqb files 0 = false).
  { destruct Hne as [Hm|Hf].
    - apply String.eqb_neq in Hm. now rewrite Hm.
    - apply Nat.eqb_neq in Hf. rewrite Hf. apply andb_false_r. }
  rewrite Hg. destruct s as [id acc ms hc ha hm dm p n co ca].
  cbn in Hms. subst ms.
  unfold addUserMessage, getConversationContext, appendMessage, bind, modify,
    gets, throw, ret.
  destruct hc; cbn -[slice_from]; split; reflexivity.
Qed.

Lemma slice_last_ten {A : Type} (l : list A) (m : A) :
  slice_from (- 10) (l ++ [m]) = (slice_from (- 9) l ++ [m])%list.
Proof.
  unfold slice_from. rewrite length_app. cbn [List.length].
  change (-10 <? 0)%Z with true. change (-9 <? 0)%Z with true. cbn match.
  rewrite skipn_app.
  replace (Z.to_nat (Z.max (Z.of_nat (List.length l + 1) + -10) 0))
    with (Z.to_nat (Z.max (Z.of_nat (List.length l) + -9) 0)) by lia.
  f_equal.
  replace (Z.to_nat (Z.max (Z.of_nat (List.length l) + -9) 0)
           - List.length l) with 0 by lia.
  reflexivity.
Qed.

(** X6: when the store is an array, the request [sendEnhancedMessage]
    builds carries the message, and its context ends with that very
    message, after at most nine earlier entries: the message is stored
    before the context is read. *)
Theorem request_context_ends_with_the_message_sent :
  forall (message : string) (files : nat) (s : State) (l : list ChatMessage),
    message <> EmptyString \/ files <> 0 ->
    messages s = Some l ->
    exists earlier,
      fst (sendEnhancedMessage_request message files s)
      = Ret (Some {| req_message := message; req_files := files;
                     req_context :=
                       (earlier ++ [{| role := "user";
                                        content := message |}])%list |}) /\
      List.length earlier = Nat.min 9 (List.length l) /\
      messages (snd (sendEnhancedMessage_request message files s))
      = Some (l ++ [{| msg_id := now s; msg_type := "user";
                       msg_content := message;
                       msg_isStreaming := false |}])%list.
Proof.
  intros message files s l Hne Hms.
  destruct (request_effect message files s l Hne Hms) as [A B].
  cbn zeta in A, B.
  exists (map entry_of (slice_from (- 9) l)).
  rewrite A, B, slice_last_ten, map_app. split; [reflexivity|].
  split; [|reflexivity].
  rewrite length_map. apply (slice_from_length 9 l). lia.
Qed.

Lemma append_nonempty a b : b <> EmptyString -> a ++ b <> EmptyString.
Proof. destruct a; cbn; [auto|discriminate]. Qed.

Lemma regenerate_step s l m :
  messages s = Some l -> last_of (filter is_user l) = Some m ->
  let s' := snd (regenerateResponse s) in
  let m' := {| msg_id := now s; msg_type := "user";
               msg_content := msg_content m ++ regenerate_marker;
               msg_isStreaming := false |} in
  messages s' = Some (l ++ [m'])%list /\
  last_of (filter is_user (l ++ [m'])) = Some m' /\
  exists context,
    fst (regenerateResponse s)
    = Ret (Some {| req_message := msg_content m ++ regenerate_marker;
                   req_files := 0; req_context := context |}).
Proof.
  intros Hms Hlast. cbn zeta.
  unfold regenerateResponse, bind, gets. cbn [fst snd]. rewrite Hms, Hlast.
  assert (Hne : msg_content m ++ regenerate_marker <> EmptyString \/ 0 <> 0).
  { left. apply append_nonempty. discriminate. }
  destruct (request_effect _ 0 s l Hne Hms) as [A B]. cbn zeta in A, B.
  split; [exact B|]. split.
  - rewrite filter_app. cbn. apply last_of_snoc.
  - eexists. exact A.
Qed.

Lemma last_user_after l m (others : list ChatMessage) :
  is_user m = true ->
  forallb (fun x => negb (is_user x)) others = true ->
  last_of (filter is_user (l ++ m :: others)) = Some m.
Proof.
  intros Hm Ho.
  assert (Hf : filter is_user others = []).
  { induction others as [|x others IH]; [reflexivity|].
    cbn in Ho |- *. apply andb_true_iff in Ho. destruct Ho as [Hx Ho].
    apply negb_true_iff in Hx. rewrite Hx. now apply IH. }
  rewrite filter_app. cbn [filter]. rewrite Hm, Hf. apply last_of_snoc.
Qed.

(** X7: [regenerateResponse] sends the content of the last stored
    user message followed by the marker, and stores that text as a new
    user message.  Whatever messages that are not the user's are stored
    after it, the next regeneration sends the text with the marker
    twice. *)
Theorem regenerating_again_stacks_the_marker :
  forall (s : State) (l others : list ChatMessage) (m : ChatMessage),
    messages s = Some l ->
    last_of (filter is_user l) = Some m ->
    forallb (fun x => negb (is_user x)) others = true ->
    let sent := msg_content m ++ regenerate_marker in
    let stored := {| msg_id := now s; msg_type := "user"; msg_content := sent;
                     msg_isStreaming := false |} in
    (exists context,
       fst (regenerateResponse s)
       = Ret (Some {| req_message := sent; req_files := 0;
                      req_context := context |})) /\
    messages (snd (regenerateResponse s)) = Some (l ++ [stored])%list /\
    forall s2,
      messages s2 = Some (l ++ stored :: others)%list ->
      exists context,
        fst (regenerateResponse s2)
        = Ret (Some {| req_message := sent ++ regenerate_marker;
                       req_files := 0; req_context := context |}).
Proof.
  intros s l others m Hms Hlast Hothers. cbn zeta.
  destruct (regenerate_step s l m Hms Hlast) as (A & _ & context & Hc).
  cbn zeta in A.
  split; [exists context; exact Hc|]. split; [exact A|].
  intros s2 Hms2.
  set (stored := {| msg_id := now s; msg_type := "user";
                    msg_content := msg_content m ++ regenerate_marker;
                    msg_isStreaming := false |}) in *.
  assert (Hlast2 : last_of (filter is_user (l ++ stored :: others))
                   = Some stored) by now apply last_user_after.
  destruct (regenerate_step s2 _ stored Hms2 Hlast2) as (_ & _ & context2 & Hc2).
  exists context2. exact Hc2.
Qed.

Import JSONRef.

Lemma streamed_text_is_rendered_in_one_message_witness :
  Forall2 (fun ln c => content_of ln = Some c)
    [content_line "Hel"; content_line "lo"] ["Hel"; "lo"] /\
  let s' := snd (process_lines [content_line "Hel"; content_line "lo"]
                   (with_store true 7)) in
  assistantMessageId s' = Some 7%Z /\
  dom s' = [{| el_id := 7; el_streaming := true; el_bubble := "Hello";
               el_cursor := true |}] /\
  messages s' = Some [{| msg_id := 7; msg_type := "assistant";
                         msg_content := EmptyString;
                         msg_isStreaming := true |}].
Proof.
  assert (HF : Forall2 (fun ln c => content_of ln = Some c)
                 [content_line "Hel"; content_line "lo"] ["Hel"; "lo"])
    by (repeat constructor).
  split; [exact HF|].
  refine (streamed_text_is_rendered_in_one_message _ _ (with_store true 7) []
            HF _ eq_refl eq_refl eq_refl eq_refl).
  discriminate.
Defined.

Lemma content_after_complete_restores_cursor_witness :
  is_complete complete_line = true /\
  content_of (content_line "!") = Some "!" /\
  let s1 := snd (process_line complete_line streaming_state) in
  let s2 := snd (process_line (content_line "!") s1) in
  getElementById (Some 5%Z) (dom s1)
  = Some {| el_id := 5; el_streaming := false; el_bubble := "hi";
            el_cursor := false |} /\
  accumulatedContent s2 = "hi!" /\
  getElementById (Some 5%Z) (dom s2)
  = Some {| el_id := 5; el_streaming := false; el_bubble := "hi!";
            el_cursor := true |}.
Proof.
  assert (H1 : is_complete complete_line = true) by reflexivity.
  assert (H2 : content_of (content_line "!") = Some "!") by reflexivity.
  split; [exact H1|]. split; [exact H2|].
  exact (content_after_complete_restores_cursor complete_line
           (content_line "!") "!" streaming_state 5%Z _ H1 H2 eq_refl eq_refl).
Defined.

Lemma analysis_line_is_forwarded_not_accumulated_witness :
  is_analysis analysis_line = true /\
  let s' := snd (process_line analysis_line streaming_state) in
  accumulatedContent s' = "hi" /\
  assistantMessageId s' = Some 5%Z /\
  dom s' = dom streaming_state.
Proof.
  assert (H1 : is_analysis analysis_line = true) by reflexivity.
  split; [exact H1|].
  destruct (analysis_line_is_forwarded_not_accumulated analysis_line
              streaming_state H1) as (_ & A & B & C & _).
  split; [exact A|]. split; [exact B|exact C].
Defined.

Lemma context_is_the_most_recent_entries_witness :
  exists older recent,
    two_messages = (older ++ recent)%list /\
    List.length recent = 1 /\
    getConversationContext 1 (set_messages (Some two_messages) (start true 0))
    = (Ret (map entry_of recent),
       set_messages (Some two_messages) (start true 0)) /\
    Forall (fun e => role e = "user" \/ role e = "assistant")
           (map entry_of recent).
Proof.
  refine (context_is_the_most_recent_entries 1 two_messages
            (set_messages (Some two_messages) (start true 0)) _ eq_refl).
  lia.
Defined.

Lemma sending_on_the_declared_state_stops_before_the_request_witness :
  fst (sendEnhancedMessage_request "Is it valid?" 0 (start true 4))
  = Throw TypeError /\
  messages (snd (sendEnhancedMessage_request "Is it valid?" 0 (start true 4)))
  = None /\
  dom (snd (sendEnhancedMessage_request "Is it valid?" 0 (start true 4)))
  = [{| el_id := 4; el_streaming := false; el_bubble := "Is it valid?";
        el_cursor := false |}].
Proof.
  refine (sending_on_the_declared_state_stops_before_the_request
            "Is it valid?" 0 (start true 4) _ eq_refl).
  left. discriminate.
Defined.

Lemma request_context_ends_with_the_message_sent_witness :
  exists earlier,
    fst (sendEnhancedMessage_request "Why?" 0
           asked)
    = Ret (Some {| req_message := "Why?"; req_files := 0;
                   req_context :=
                     (earlier ++ [{| role := "user";
                                      content := "Why?" |}])%list |}) /\
    List.length earlier = 2 /\
    messages (snd (sendEnhancedMessage_request "Why?" 0
                     asked))
    = Some (two_messages
            ++ [{| msg_id := 9; msg_type := "user"; msg_content := "Why?";
                   msg_isStreaming := false |}])%list.
Proof.
  refine (request_context_ends_with_the_message_sent "Why?" 0
            asked two_messages
            _ eq_refl).
  left. discriminate.
Defined.

Lemma regenerating_again_stacks_the_marker_witness :
  messages asked = Some two_messages /\
  (exists context,
     fst (regenerateResponse asked)
     = Ret (Some {| req_message := "Is it valid?" ++ regenerate_marker;
                    req_files := 0; req_context := context |})) /\
  messages (snd (regenerateResponse asked))
  = Some (two_messages
          ++ [{| msg_id := 9; msg_type := "user";
                 msg_content := "Is it valid?" ++ regenerate_marker;
                 msg_isStreaming := false |}])%list /\
  forall s2,
    messages s2
    = Some (two_messages
            ++ [{| msg_id := 9; msg_type := "user";
                   msg_content := "Is it valid?" ++ regenerate_marker;
                   msg_isStreaming := false |};
                {| msg_id := 10; msg_type := "assistant";
                   msg_content := EmptyString; msg_isStreaming := true |}])%list ->
    exists context,
      fst (regenerateResponse s2)
      = Ret (Some {| req_message :=
                       ("Is it valid?" ++ regenerate_marker)
                       ++ regenerate_marker;
                     req_files := 0; req_context := context |}).
Proof.
  split; [reflexivity|].
  exact (regenerating_again_stacks_the_marker asked two_messages
           [{| msg_id := 10; msg_type := "assistant";
               msg_content := EmptyString; msg_isStreaming := true |}]
           {| msg_id := 1; msg_type := "user"; msg_content := "Is it valid?";
              msg_isStreaming := false |} eq_refl eq_refl eq_refl).
Defined.

End ConversationFacts.

(* ================================================================== *)
(** ** Facts about the fallback simulator *)
(* ================================================================== *)

Module SimulatorFacts.
Import JS Exn Mock Workflow ChannelSpec Replay ChannelFacts.

(* ---- toLowerCase and includes ---- *)

Lemma nat_of_ascii_inj_ne c n :
  nat_of_ascii c < 128 -> 128 <= n -> n < 256 -> Ascii.eqb c (ascii_of_nat n) = false.
Proof.
  intros Hc Hn Hn'. apply Ascii.eqb_neq. intros ->.
  rewrite nat_ascii_embedding in Hc by lia. lia.
Qed.

Lemma toLowerCase_ascii_head c rest :
  is_ascii c ->
  toLowerCase (String c rest) = String (lower_ascii c) (toLowerCase rest).
Proof.
  intros Hc. cbn [toLowerCase].
  assert (H196 : Ascii.eqb c "196" = false)
    by (apply (nat_of_ascii_inj_ne c 196); [exact Hc|lia|lia]).
  assert (H226 : Ascii.eqb c "226" = false)
    by (apply (nat_of_ascii_inj_ne c 226); [exact Hc|lia|lia]).
  rewrite H196, H226. cbn [andb].
  destruct rest as [|c1 [|c2 rest2]]; reflexivity.
Qed.

Lemma lower_ascii_is_ascii c : is_ascii (lower_ascii c) -> is_ascii c.
Proof.
  unfold is_ascii, lower_ascii, is_upper.
  destruct ((65 <=? nat_of_ascii c)%nat && (nat_of_ascii c <=? 90)%nat) eqn:E.
  - apply andb_true_iff in E. destruct E as [_ E]. apply Nat.leb_le in E. lia.
  - auto.
Qed.

Lemma all_ascii_lower s : all_ascii (lower_each s) -> all_ascii s.
Proof.
  induction s as [|c s IH]; cbn; [auto|].
  intros [Hc Hs]. split; [now apply lower_ascii_is_ascii|auto].
Qed.

Lemma toLowerCase_ascii_prefix kw post :
  all_ascii kw ->
  toLowerCase (kw ++ post) = lower_each kw ++ toLowerCase post.
Proof.
  induction kw as [|c kw IH]; intros Hk; [reflexivity|].
  destruct Hk as [Hc Hk].
  change (String c kw ++ post) with (String c (kw ++ post)).
  rewrite toLowerCase_ascii_head by exact Hc. cbn. now rewrite IH.
Qed.

Lemma toLowerCase_unfold c c1 rest1 :
  toLowerCase (String c (String c1 rest1))
  = if Ascii.eqb c "196" && Ascii.eqb c1 "176"
    then String "i" (String "204" (String "135" (toLowerCase rest1)))
    else
      match rest1 with
      | String c2 rest2 =>
          if Ascii.eqb c "226" && Ascii.eqb c1 "132" && Ascii.eqb c2 "170"
          then String "k" (toLowerCase rest2)
          else String (lower_ascii c) (toLowerCase (String c1 rest1))
      | EmptyString => String (lower_ascii c) (toLowerCase (String c1 rest1))
      end.
Proof. destruct rest1; reflexivity. Qed.

(** Lower-casing what precedes an ASCII character does not reach into
    the text from that character on. *)
Lemma toLowerCase_before_ascii a tail :
  is_ascii a ->
  forall n pre, String.length pre <= n ->
    exists X, toLowerCase (pre ++ String a tail)
              = X ++ toLowerCase (String a tail).
Proof.
  intros Ha. induction n as [n IH] using lt_wf_ind. intros pre Hn.
  destruct pre as [|c r].
  - exists EmptyString. reflexivity.
  - assert (H176 : Ascii.eqb a "176" = false)
      by (apply (nat_of_ascii_inj_ne a 176); [exact Ha|lia|lia]).
    assert (H132 : Ascii.eqb a "132" = false)
      by (apply (nat_of_ascii_inj_ne a 132); [exact Ha|lia|lia]).
    assert (H170 : Ascii.eqb a "170" = false)
      by (apply (nat_of_ascii_inj_ne a 170); [exact Ha|lia|lia]).
    cbn [String.length] in Hn.
    assert (Hstep : forall r', String.length r' <= String.length r ->
              exists X, toLowerCase (r' ++ String a tail)
                        = X ++ toLowerCase (String a tail)).
    { intros r' Hr'. apply (IH (String.length r)); [lia|exact Hr']. }
    change (String c r ++ String a tail) with (String c (r ++ String a tail)).
    destruct r as [|c1 r1].
    + (* the character just before [a] *)
      change (EmptyString ++ String a tail) with (String a tail).
      exists (String (lower_ascii c) EmptyString).
      rewrite toLowerCase_unfold, H176, andb_false_r.
      destruct tail as [|c2 tail']; [reflexivity|].
      rewrite H132, andb_false_r. reflexivity.
    + change (String c1 r1 ++ String a tail)
        with (String c1 (r1 ++ String a tail)).
      rewrite toLowerCase_unfold.
      destruct (Ascii.eqb c "196" && Ascii.eqb c1 "176") eqn:E1.
      * destruct (Hstep r1) as (X & HX); [cbn; lia|].
        exists (String "i" (String "204" (String "135" X))).
        cbn [append]. now rewrite <- HX.
      * destruct (Hstep (String c1 r1)) as (X1 & HX1); [cbn; lia|].
        change (String c1 r1 ++ String a tail)
          with (String c1 (r1 ++ String a tail)) in HX1.
        destruct r1 as [|c2 r2].
        -- change (EmptyString ++ String a tail) with (String a tail) in *.
           cbv iota. rewrite H170, andb_false_r.
           exists (String (lower_ascii c) X1).
           cbn [append]. f_equal. exact HX1.
        -- change (String c2 r2 ++ String a tail)
             with (String c2 (r2 ++ String a tail)) in *.
           cbv iota.
           destruct (Ascii.eqb c "226" && Ascii.eqb c1 "132"
                     && Ascii.eqb c2 "170") eqn:E2.
           ++ destruct (Hstep r2) as (X & HX); [cbn; lia|].
              exists (String "k" X). cbn [append]. now rewrite <- HX.
           ++ exists (String (lower_ascii c) X1).
              cbn [append]. f_equal. exact HX1.
Qed.

Lemma prefix_app p z : String.prefix p (p ++ z) = true.
Proof.
  induction p as [|c p IH]; cbn; [destruct z; reflexivity|].
  destruct (ascii_dec c c); [exact IH|congruence].
Qed.

Lemma includes_app x p z : includes (x ++ p ++ z) p = true.
Proof.
  induction x as [|c x IH].
  - cbn [append]. destruct (p ++ z) eqn:E; cbn [includes];
      rewrite <- E, prefix_app; reflexivity.
  - cbn [append includes]. rewrite IH. apply orb_true_r.
Qed.

Lemma keyword_found pre kw post (target : string) :
  lower_each kw = target -> all_ascii target -> target <> EmptyString ->
  includes (toLowerCase (pre ++ kw ++ post)) target = true.
Proof.
  intros Hk Ht Hne. subst target.
  assert (Hkw : all_ascii kw) by now apply all_ascii_lower.
  destruct kw as [|a kw']; [now elim Hne|].
  destruct Hkw as [Ha Hkw'].
  change (String a kw' ++ post) with (String a (kw' ++ post)).
  destruct (toLowerCase_before_ascii a (kw' ++ post) Ha (String.length pre) pre
              (le_n _)) as (X & HX).
  rewrite HX.
  change (String a (kw' ++ post)) with (String a kw' ++ post).
  rewrite toLowerCase_ascii_prefix by (split; assumption).
  apply includes_app.
Qed.


(** X8: in single mode an input that has ["personal injury"] or
    ["texting while walking"] anywhere in it, in any mix of upper and
    lower case, selects the personal-injury scenario; in debate mode
    ["non-compete"] or ["california"] selects the non-compete
    scenario. *)
Theorem keyword_in_any_case_selects_the_scenario :
  forall (loaded_first loaded_second called : Z) (pre kw post : string),
    (lower_each kw = "personal injury"
     \/ lower_each kw = "texting while walking" ->
     getMockResponse loaded_first loaded_second called single
       (pre ++ kw ++ post)
     = personalInjury loaded_first loaded_second) /\
    (lower_each kw = "non-compete" \/ lower_each kw = "california" ->
     getMockResponse loaded_first loaded_second called debate
       (pre ++ kw ++ post)
     = nonCompete).
Proof.
  intros lf ls called pre kw post. split; intros Hk; unfold getMockResponse.
  - assert (Hf : includes (toLowerCase (pre ++ kw ++ post)) "personal injury"
                 || includes (toLowerCase (pre ++ kw ++ post))
                      "texting while walking" = true).
    { destruct Hk as [Hk|Hk].
      - rewrite (keyword_found pre kw post _ Hk); [reflexivity| |discriminate].
        cbn. unfold is_ascii. cbn. repeat split; lia.
      - rewrite (keyword_found pre kw post "texting while walking" Hk);
          [apply orb_true_r| |discriminate].
        cbn. unfold is_ascii. cbn. repeat split; lia. }
    rewrite Hf. reflexivity.
  - assert (Hf : includes (toLowerCase (pre ++ kw ++ post)) "non-compete"
                 || includes (toLowerCase (pre ++ kw ++ post))
                      "california" = true).
    { destruct Hk as [Hk|Hk].
      - rewrite (keyword_found pre kw post _ Hk); [reflexivity| |discriminate].
        cbn. unfold is_ascii. cbn. repeat split; lia.
      - rewrite (keyword_found pre kw post "california" Hk);
          [apply orb_true_r| |discriminate].
        cbn. unfold is_ascii. cbn. repeat split; lia. }
    rewrite Hf. reflexivity.
Qed.

Lemma scenario_matches_mode lf ls called m input :
  match getMockResponse lf ls called m input with
  | SingleScenario _ _ => m = single
  | DebateScenario _ _ => m = debate
  end.
Proof.
  unfold getMockResponse.
  destruct (includes (toLowerCase input) "personal injury"
            || includes (toLowerCase input) "texting while walking");
    destruct (includes (toLowerCase input) "non-compete"
              || includes (toLowerCase input) "california");
    destruct m; reflexivity.
Qed.


(* ---- the registrations of the catch block ---- *)

Lemma schedule_each_spec {A : Type} (callback : A -> TimerAction)
  (interval : Z) (items : list A) :
  forall index w,
    schedule_each callback interval items index w
    = {| hook := hook w; page := page w; sockets := sockets w;
         timers := (timers w
                    ++ timers_from (List.length (scheduled w)) interval index
                         (map callback items))%list;
         scheduled := (scheduled w
                       ++ timers_from (List.length (scheduled w)) interval
                            index (map callback items))%list;
         console := console w |}.
Proof.
  induction items as [|x items IH]; intros index w.
  - cbn. rewrite !app_nil_r. now destruct w.
  - cbn [schedule_each map timers_from]. unfold setTimeout.
    rewrite IH. cbn. rewrite length_app, Nat.add_1_r, <- !app_assoc.
    reflexivity.
Qed.

Lemma timers_from_app base interval index l1 l2 :
  timers_from base interval index (l1 ++ l2)
  = (timers_from base interval index l1
     ++ timers_from (base + List.length l1) interval
          (index + Z.of_nat (List.length l1)) l2)%list.
Proof.
  revert base index. induction l1 as [|a l1 IH]; intros base index.
  - cbn. now rewrite Nat.add_0_r, Z.add_0_r.
  - cbn [app timers_from List.length]. rewrite IH.
    replace (base + S (List.length l1)) with (S base + List.length l1) by lia.
    replace (index + Z.of_nat (S (List.length l1)))%Z
      with (index + 1 + Z.of_nat (List.length l1))%Z by lia.
    reflexivity.
Qed.

Lemma timers_from_delay base interval index actions :
  map delay (timers_from base interval index actions)
  = map (fun i => (interval * (index + Z.of_nat i))%Z)
        (seq 1 (List.length actions)).
Proof.
  revert base index. induction actions as [|a rest IH]; intros base index;
    [reflexivity|].
  cbn [timers_from map List.length seq delay]. f_equal.
  rewrite IH, <- (seq_shift (List.length rest) 1), map_map.
  apply map_ext. intros i. f_equal. lia.
Qed.

Lemma timers_from_action base interval index actions :
  map action (timers_from base interval index actions) = actions.
Proof.
  revert base index. induction actions as [|a rest IH]; intros base index;
    [reflexivity|].
  cbn. now rewrite IH.
Qed.

Lemma timers_from_ids base interval index actions :
  forall t, In t (timers_from base interval index actions) ->
            base < timer_id t.
Proof.
  revert base index. induction actions as [|a rest IH]; intros base index t;
    [intros []|].
  cbn. intros [<-|Hin]; [cbn; lia|].
  apply IH in Hin. lia.
Qed.

Lemma timers_from_length base interval index actions :
  List.length (timers_from base interval index actions) = List.length actions.
Proof.
  revert base index. induction actions as [|a rest IH]; intros base index;
    [reflexivity|].
  cbn. now rewrite IH.
Qed.

Lemma schedule_then_feedback {A : Type} (callback : A -> TimerAction)
  (interval : Z) (items : list A) (fb : FeedbackReady) (w : World) :
  snd (setTimeout (SetMockFeedback fb)
         (interval * (Z.of_nat (List.length items) + 1))
         (schedule_each callback interval items 0 w))
  = let new := timers_from (List.length (scheduled w)) interval 0
                 (map callback items ++ [SetMockFeedback fb]) in
    {| hook := hook w; page := page w; sockets := sockets w;
       timers := (timers w ++ new)%list;
       scheduled := (scheduled w ++ new)%list;
       console := console w |}.
Proof.
  rewrite schedule_each_spec. unfold setTimeout.
  cbn [snd timers scheduled hook page sockets console].
  cbn zeta. rewrite timers_from_app, !app_assoc.
  cbn [timers_from]. rewrite !length_app, timers_from_length, length_map.
  replace (0 + Z.of_nat (List.length items) + 1)%Z
    with (Z.of_nat (List.length items) + 1)%Z by lia.
  reflexivity.
Qed.

Lemma scenario_actions_simulator r :
  Forall (fun a => forall id, a <> Reconnect id) (scenario_actions r).
Proof.
  destruct r as [args fb|turns fb]; cbn; apply Forall_app; split;
    try (apply Forall_forall; intros a Hin; apply in_map_iff in Hin;
         destruct Hin as (x & <- & _); discriminate);
    repeat constructor; discriminate.
Qed.

Lemma catch_effect lf ls called m input w :
  let new := timers_from (List.length (scheduled w)) (interval_of m) 0
               (scenario_actions (getMockResponse lf ls called m input)) in
  handleStartWorkflow_catch lf ls called m input w
  = {| hook := hook w; page := setUseMockData true (page w);
       sockets := sockets w; timers := (timers w ++ new)%list;
       scheduled := (scheduled w ++ new)%list; console := console w |}.
Proof.
  cbn zeta.
  pose proof (scenario_matches_mode lf ls called m input) as Hshape.
  unfold handleStartWorkflow_catch.
  destruct (getMockResponse lf ls called m input) as [args fb|turns fb];
    subst m; rewrite schedule_then_feedback; reflexivity.
Qed.

(** X9: for every mode and input, the catch block of
    [handleStartWorkflow] registers one timer per item of the selected
    scenario and then one for its feedback, due at 1, 2, ... times the
    interval of the mode (1000 ms single, 2000 ms debate); the items are
    arguments in single mode and turns in debate mode.  It sets
    [useMockData] and touches neither the hook, the sockets nor the
    console. *)
Theorem fallback_registers_one_timer_per_item_then_the_feedback :
  forall (loaded_first loaded_second called : Z) (m : Mode) (input : string)
         (w : World),
    let r := getMockResponse loaded_first loaded_second called m input in
    let new := timers_from (List.length (scheduled w)) (interval_of m) 0
                 (scenario_actions r) in
    let w' := handleStartWorkflow_catch loaded_first loaded_second called
                m input w in
    timers w' = (timers w ++ new)%list /\
    scheduled w' = (scheduled w ++ new)%list /\
    map delay new
    = map (fun i => (interval_of m * Z.of_nat i)%Z)
          (seq 1 (List.length (scenario_actions r))) /\
    forallb is_simulator new = true /\
    (exists items fb, map action new = (items ++ [SetMockFeedback fb])%list /\
       match m with
       | single => exists args, items = map AppendMockArgument args
       | debate => exists turns, items = map AppendMockTurn turns
       end) /\
    page w' = setUseMockData true (page w) /\
    hook w' = hook w /\ sockets w' = sockets w /\ console w' = console w.
Proof.
  intros lf ls called m input w. cbn zeta.
  pose proof (scenario_matches_mode lf ls called m input) as Hshape.
  rewrite catch_effect. cbn [timers scheduled page hook sockets console].
  set (r := getMockResponse lf ls called m input) in *.
  split; [reflexivity|]. split; [reflexivity|].
  split; [|split; [|split]].
  - rewrite timers_from_delay. apply map_ext. intros i. f_equal.
  - apply forallb_forall. intros t Hin.
    assert (Ha : In (action t) (scenario_actions r)).
    { rewrite <- (timers_from_action (List.length (scheduled w)) (interval_of m) 0).
      now apply in_map. }
    pose proof (scenario_actions_simulator r) as Hsim.
    rewrite Forall_forall in Hsim. specialize (Hsim _ Ha).
    unfold is_simulator, is_reconnect.
    destruct (action t) as [id| | |]; [now elim (Hsim id)|reflexivity..].
  - rewrite timers_from_action.
    destruct r as [args fb|turns fb]; subst m; cbn [scenario_actions].
    + exists (map AppendMockArgument args), fb. split; [reflexivity|]. now exists args.
    + exists (map AppendMockTurn turns), fb. split; [reflexivity|]. now exists turns.
  - repeat split.
Qed.

(* ---- firing the simulator's timers ---- *)

Lemma filter_keeps_later h base interval index actions :
  h <= base ->
  filter (fun t => negb (Nat.eqb (timer_id t) h))
         (timers_from base interval index actions)
  = timers_from base interval index actions.
Proof.
  intros Hh. apply forallb_filter_id. apply forallb_forall. intros t Hin.
  apply timers_from_ids in Hin. apply negb_true_iff, Nat.eqb_neq. lia.
Qed.

Lemma filter_keeps_earlier h (old : list Timer) :
  Forall (fun t => timer_id t < h) old ->
  filter (fun t => negb (Nat.eqb (timer_id t) h)) old = old.
Proof.
  intros Hold. apply forallb_filter_id. apply forallb_forall. intros t Hin.
  rewrite Forall_forall in Hold. specialize (Hold _ Hin).
  apply negb_true_iff, Nat.eqb_neq. lia.
Qed.

Lemma find_skips_earlier h (old rest : list Timer) :
  Forall (fun t => timer_id t < h) old ->
  find (fun t => Nat.eqb (timer_id t) h) (old ++ rest)
  = find (fun t => Nat.eqb (timer_id t) h) rest.
Proof.
  induction old as [|t old IH]; intros Hold; [reflexivity|].
  inversion Hold as [|? ? Ht Hold']; subst. cbn.
  assert (E : Nat.eqb (timer_id t) h = false) by (apply Nat.eqb_neq; lia).
  rewrite E. now apply IH.
Qed.

Lemma cleanup_timers w :
  timers (cleanup w)
  = match reconnectTimeoutRef (hook w) with
    | Some h => filter (fun t => negb (Nat.eqb (timer_id t) h)) (timers w)
    | None => timers w
    end.
Proof.
  unfold cleanup.
  set (w1 := match cleanup_socket (hook w) with
             | Some s => socket_close s w
             | None => w
             end).
  assert (H1 : hook w1 = hook w /\ timers w1 = timers w).
  { subst w1. destruct (cleanup_socket (hook w)) as [s|]; [|auto].
    unfold socket_close. destruct (find_socket s w) as [sk|]; [|auto].
    destruct (readyState sk); auto. }
  destruct H1 as [Hh Ht]. rewrite Hh.
  destruct (reconnectTimeoutRef (hook w)); [cbn; now rewrite Ht|exact Ht].
Qed.

Section Firing.
Context `{Platform}.
Variables (loaded_first loaded_second : Z).

Lemma firing_in_order interval (actions : list TimerAction) :
  Forall (fun a => forall id, a <> Reconnect id) actions ->
  forall (base : nat) (index : Z) (old : list Timer) (w : World),
    timers w = (old ++ timers_from base interval index actions)%list ->
    Forall (fun t => timer_id t < S base) old ->
    let w' := run loaded_first loaded_second
                (map TimerFire (seq (S base) (List.length actions))) w in
    page w' = fold_left page_effect actions (page w) /\
    timers w' = old /\ hook w' = hook w /\ sockets w' = sockets w /\
    console w' = console w.
Proof.
  induction actions as [|a rest IH]; intros Hsim base index old w Ht Hold;
    cbn zeta.
  - cbn in *. rewrite app_nil_r in Ht. auto.
  - inversion Hsim as [|? ? Ha Hrest]; subst.
    cbn [List.length seq map run step timers_from] in *.
    unfold find_timer. rewrite Ht, find_skips_earlier by exact Hold.
    cbn [find timer_id]. rewrite Nat.eqb_refl. cbn [action].
    set (w1 := run_action a (clearTimeout (S base) w)).
    assert (Hw1 : page w1 = page_effect (page w) a /\
                  timers w1
                  = (old ++ timers_from (S base) interval (index + 1) rest)%list /\
                  hook w1 = hook w /\ sockets w1 = sockets w /\
                  console w1 = console w).
    { assert (Hc : timers (clearTimeout (S base) w)
                   = (old ++ timers_from (S base) interval (index + 1) rest)%list).
      { unfold clearTimeout, with_timers. cbn [timers]. rewrite Ht, filter_app.
        rewrite filter_keeps_earlier by exact Hold.
        cbn [filter timer_id]. rewrite Nat.eqb_refl. cbn [negb].
        now rewrite filter_keeps_later by lia. }
      subst w1. destruct a as [id| | |]; [now elim (Ha id)|..];
        cbn; rewrite <- Hc; repeat split. }
    destruct Hw1 as (P1 & P2 & P3 & P4 & P5).
    destruct (IH Hrest (S base) (index + 1)%Z old w1 P2) as (Q1 & Q2 & Q3 & Q4 & Q5).
    { eapply Forall_impl; [|exact Hold]. cbn. intros; lia. }
    cbn [fold_left]. rewrite Q1, Q2, Q3, Q4, Q5, P1, P3, P4, P5. auto.
Qed.

Lemma fold_arguments args fb p :
  let p' := fold_left page_effect
              (map AppendMockArgument args ++ [SetMockFeedback fb])%list p in
  mockArguments p' = (mockArguments p ++ args)%list /\
  mockFeedback p' = Some fb /\
  mockDebateTurns p' = mockDebateTurns p /\
  useMockData p' = useMockData p /\ workflowStarted p' = workflowStarted p /\
  mode p' = mode p /\ userInput p' = userInput p.
Proof.
  cbn zeta. rewrite fold_left_app. cbn [fold_left page_effect].
  revert p. induction args as [|a args IH]; intros p.
  - cbn. rewrite app_nil_r. repeat split.
  - cbn [map fold_left]. destruct (IH (page_effect p (AppendMockArgument a)))
      as (A1 & A2 & A3 & A4 & A5 & A6 & A7).
    cbn [mockFeedback setMockFeedback mockArguments mockDebateTurns useMockData
         workflowStarted mode userInput] in *.
    rewrite A1. cbn. rewrite <- app_assoc. repeat split; assumption.
Qed.

Lemma fold_turns turns fb p :
  let p' := fold_left page_effect
              (map AppendMockTurn turns ++ [SetMockFeedback fb])%list p in
  mockDebateTurns p' = (mockDebateTurns p ++ turns)%list /\
  mockFeedback p' = Some fb /\
  mockArguments p' = mockArguments p /\
  useMockData p' = useMockData p /\ workflowStarted p' = workflowStarted p /\
  mode p' = mode p /\ userInput p' = userInput p.
Proof.
  cbn zeta. rewrite fold_left_app. cbn [fold_left page_effect].
  revert p. induction turns as [|a turns IH]; intros p.
  - cbn. rewrite app_nil_r. repeat split.
  - cbn [map fold_left]. destruct (IH (page_effect p (AppendMockTurn a)))
      as (A1 & A2 & A3 & A4 & A5 & A6 & A7).
    cbn [mockFeedback setMockFeedback mockArguments mockDebateTurns useMockData
         workflowStarted mode userInput] in *.
    rewrite A1. cbn. rewrite <- app_assoc. repeat split; assumption.
Qed.

(** X10: from any state the mounted page can reach with a start
    request under way, a failure of that request followed by the firing
    of the registered timers in order appends every item of the
    scenario to the mock state and sets its feedback; the timers of the
    simulator pending afterwards are those that were pending before. *)
Theorem simulator_replays_the_whole_scenario :
  forall (es : list Event) (called : Z) (m : Mode) (input : string),
    let w := run loaded_first loaded_second es initial in
    mounted (page w) = true ->
    awaiting (page w) = Some (m, input) ->
    let r := getMockResponse loaded_first loaded_second called m input in
    let n := List.length (scheduled w) in
    let w' := run loaded_first loaded_second
                (StartFailed called
                 :: map TimerFire
                      (seq (S n) (List.length (scenario_actions r)))) w in
    useMockData (page w') = true /\
    match r with
    | SingleScenario arguments feedback =>
        mockArguments (page w') = (mockArguments (page w) ++ arguments)%list /\
        mockDebateTurns (page w') = mockDebateTurns (page w) /\
        mockFeedback (page w') = Some feedback
    | DebateScenario turns feedback =>
        mockDebateTurns (page w') = (mockDebateTurns (page w) ++ turns)%list /\
        mockArguments (page w') = mockArguments (page w) /\
        mockFeedback (page w') = Some feedback
    end /\
    filter is_simulator (timers w') = filter is_simulator (timers w).
Proof.
  intros es called m input. cbn zeta.
  pose proof (inv_run loaded_first loaded_second es initial inv_initial)
    as Hinv.
  set (w := run loaded_first loaded_second es initial) in *. intros Hm Haw.
  cbn [run step]. rewrite Haw. cbn zeta. rewrite Hm.
  set (w0 := with_page (set_awaiting None) w).
  pose proof (catch_effect loaded_first loaded_second called m input w0) as Hc.
  cbn zeta in Hc.
  set (r := getMockResponse loaded_first loaded_second called m input) in *.
  set (w1 := handleStartWorkflow_catch loaded_first loaded_second called m
               input w0) in *.
  assert (T1 : timers w1
               = (timers w0 ++ timers_from (List.length (scheduled w0))
                                 (interval_of m) 0 (scenario_actions r))%list)
    by now rewrite Hc.
  assert (T6 : page w1 = setUseMockData true (page w0)) by now rewrite Hc.
  assert (T7 : hook w1 = hook w0) by now rewrite Hc.
  clearbody w1. clear Hc.
  change (scheduled w0) with (scheduled w) in T1.
  change (timers w0) with (timers w) in T1.
  change (hook w0) with (hook w) in T7.
  (* the re-render: the hook's argument becomes undefined *)
  assert (Harg : hook_argument (page w1) = None).
  { unfold hook_argument. rewrite T6. cbn. now rewrite andb_false_r. }
  unfold rerender. rewrite Harg.
  set (w2 := render None w1).
  assert (Hw2 : page w2 = page w1 /\
                exists old, timers w2
                  = (old ++ timers_from (List.length (scheduled w))
                              (interval_of m) 0 (scenario_actions r))%list /\
                  Forall (fun t => timer_id t < S (List.length (scheduled w))) old /\
                  filter is_simulator old = filter is_simulator (timers w)).
  { assert (Hold : Forall (fun t => timer_id t < S (List.length (scheduled w)))
                     (timers w)).
    { apply Forall_forall. intros t Hin.
      pose proof (inv_ids w Hinv t Hin). lia. }
    subst w2. unfold render.
    destruct (option_string_eqb None (workflowId (hook w1))).
    - split; [reflexivity|]. exists (timers w). auto.
    - cbn [connect]. split; [apply cleanup_page|].
      change (timers (with_hook (install_effect None) (cleanup w1)))
        with (timers (cleanup w1)).
      rewrite cleanup_timers, T7.
      destruct (reconnectTimeoutRef (hook w)) as [h|] eqn:Hr.
      + destruct (inv_ref w Hinv h Hr) as [Hh Hrec].
        rewrite T1, filter_app, filter_keeps_later by exact Hh.
        eexists. split; [reflexivity|]. split.
        * apply Forall_forall. intros t Hin. apply filter_In in Hin.
          rewrite Forall_forall in Hold. now apply Hold.
        * clear - Hrec. induction (timers w) as [|t ti IH]; [reflexivity|].
          cbn. destruct (Nat.eqb (timer_id t) h) eqn:E; cbn.
          -- apply Nat.eqb_eq in E.
             assert (Hrt : is_reconnect t = true)
               by (apply Hrec; [now left|exact E]).
             unfold is_simulator at 2. rewrite Hrt. cbn.
             apply IH. intros t' Hin. apply Hrec. now right.
          -- destruct (is_simulator t); [f_equal|];
               apply IH; intros t' Hin; apply Hrec; now right.
      + rewrite T1. exists (timers w). auto. }
  destruct Hw2 as (Hp2 & old & Ht2 & Hold & Hsim).
  destruct (firing_in_order (interval_of m) (scenario_actions r)
              (scenario_actions_simulator r) (List.length (scheduled w)) 0%Z
              old w2 Ht2 Hold) as (F1 & F2 & _).
  rewrite F1, F2, Hp2, T6.
  pose proof (scenario_matches_mode loaded_first loaded_second called m input)
    as Hshape. fold r in Hshape.
  destruct r as [args fb|turns fb]; cbn [scenario_actions].
  - destruct (fold_arguments args fb (setUseMockData true (page w0)))
      as (A1 & A2 & A3 & A4 & _).
    rewrite A1, A2, A3, A4. repeat split; auto.
  - destruct (fold_turns turns fb (setUseMockData true (page w0)))
      as (A1 & A2 & A3 & A4 & _).
    rewrite A1, A2, A3, A4. repeat split; auto.
Qed.

End Firing.

Import JSONRef.

Lemma keyword_in_any_case_selects_the_scenario_witness :
  lower_each "PERSONAL Injury" = "personal injury" /\
  getMockResponse 0 0 0 single ("Re: " ++ "PERSONAL Injury" ++ " claim")
  = personalInjury 0 0.
Proof.
  assert (Hk : lower_each "PERSONAL Injury" = "personal injury") by reflexivity.
  split; [exact Hk|].
  exact (proj1 (keyword_in_any_case_selects_the_scenario 0 0 0 "Re: "
                  "PERSONAL Injury" " claim") (or_introl Hk)).
Defined.

Lemma simulator_replays_the_whole_scenario_witness :
  mounted (page (started "texting while walking")) = true /\
  awaiting (page (started "texting while walking"))
  = Some (single, "texting while walking") /\
  let w' := run 0 0 [StartFailed 5; TimerFire 1; TimerFire 2; TimerFire 3]
              (started "texting while walking") in
  useMockData (page w') = true /\
  match personalInjury 0 0 with
  | SingleScenario arguments feedback =>
      mockArguments (page w') = arguments /\
      mockDebateTurns (page w') = [] /\
      mockFeedback (page w') = Some feedback
  | DebateScenario _ _ => False
  end /\
  filter is_simulator (timers w') = [].
Proof.
  assert (Ha : awaiting (page (started "texting while walking"))
               = Some (single, "texting while walking")) by reflexivity.
  assert (Hm : mounted (page (started "texting while walking")) = true)
    by reflexivity.
  split; [exact Hm|]. split; [exact Ha|].
  exact (simulator_replays_the_whole_scenario 0 0
           [SetUserInput "texting while walking"; StartClicked] 5 single
           "texting while walking" Hm Ha).
Defined.

End SimulatorFacts.
(* ================================================================== *)
(** ** Facts about the state of the hook *)
(* ================================================================== *)

Module HookFacts.
Import JS Exn Mock Workflow ChannelSpec Replay HookSpec ChannelFacts
       SimulatorFacts JSArray JSArrayFacts.

Lemma folded_buckets h1 h2 :
  buckets h1 = buckets h2 -> Folded h2 -> Folded h1.
Proof.
  unfold buckets, Folded. intros [= -> -> -> -> ->]. auto.
Qed.

(* ---- what leaves the hook's state alone ---- *)

Lemma hook_socket_close s w : hook (socket_close s w) = hook w.
Proof.
  unfold socket_close. destruct (find_socket s w) as [sk|]; [|reflexivity].
  destruct (readyState sk); reflexivity.
Qed.

Lemma hook_cleanup w : hook (cleanup w) = hook w.
Proof.
  unfold cleanup.
  set (w1 := match cleanup_socket (hook w) with
             | Some s => socket_close s w
             | None => w
             end).
  assert (H1 : hook w1 = hook w).
  { subst w1. destruct (cleanup_socket (hook w)); [apply hook_socket_close|reflexivity]. }
  destruct (reconnectTimeoutRef (hook w1)); exact H1.
Qed.

Lemma buckets_connect id w : buckets (hook (connect id w)) = buckets (hook w).
Proof.
  unfold connect. destruct id as [i|]; [|reflexivity].
  destruct (String.eqb i EmptyString); reflexivity.
Qed.

Lemma buckets_render id w : buckets (hook (render id w)) = buckets (hook w).
Proof.
  unfold render. destruct (option_string_eqb id (workflowId (hook w)));
    [reflexivity|].
  rewrite buckets_connect.
  change (hook (with_hook (install_effect id) (cleanup w)))
    with (install_effect id (hook (cleanup w))).
  rewrite hook_cleanup. reflexivity.
Qed.

Lemma buckets_ws_onopen w : buckets (hook (ws_onopen w)) = buckets (hook w).
Proof.
  unfold ws_onopen. cbn.
  destruct (reconnectTimeoutRef (hook w)); reflexivity.
Qed.

Lemma buckets_ws_onclose id w :
  buckets (hook (ws_onclose id w)) = buckets (hook w).
Proof. reflexivity. Qed.

Lemma buckets_run_action a w :
  buckets (hook (run_action a w)) = buckets (hook w).
Proof.
  destruct a; cbn [run_action]; [|reflexivity..].
  now rewrite buckets_connect.
Qed.

(* ---- sockets that change state ---- *)

Lemma set_first_nth s r l : forall i sk',
  nth_error (set_first s r l) i = Some sk' ->
  exists sk, nth_error l i = Some sk /\ sock_id sk' = sock_id sk /\
             sock_workflowId sk' = sock_workflowId sk /\
             (readyState sk' = readyState sk \/
              (readyState sk' = r /\
               find (fun x => Nat.eqb (sock_id x) s) l = Some sk)).
Proof.
  induction l as [|x l IH]; intros i sk' Hn; [now destruct i|].
  cbn [set_first find] in *. destruct (Nat.eqb (sock_id x) s) eqn:E.
  - destruct i as [|i]; cbn in Hn.
    + injection Hn as <-. exists x. cbn. auto 6.
    + exists sk'. cbn. auto 6.
  - destruct i as [|i]; cbn in Hn.
    + injection Hn as <-. exists x. cbn. auto 6.
    + destruct (IH _ _ Hn) as (sk & A & B & C & D). exists sk. cbn. auto 6.
Qed.

Lemma set_first_nth_fwd s r l : forall i sk,
  nth_error l i = Some sk ->
  exists sk', nth_error (set_first s r l) i = Some sk' /\
              sock_id sk' = sock_id sk /\
              (readyState sk' = readyState sk \/ readyState sk' = r).
Proof.
  induction l as [|x l IH]; intros i sk Hn; [now destruct i|].
  cbn [set_first]. destruct (Nat.eqb (sock_id x) s) eqn:E.
  - destruct i as [|i]; cbn in Hn.
    + injection Hn as <-. eexists. cbn. split; [reflexivity|]. cbn. auto.
    + exists sk. cbn. auto.
  - destruct i as [|i]; cbn in Hn.
    + injection Hn as <-. exists x. cbn. auto.
    + destruct (IH _ _ Hn) as (sk' & A & B & C). exists sk'. cbn. auto.
Qed.

Lemma set_first_found s r l sk :
  find (fun x => Nat.eqb (sock_id x) s) l = Some sk ->
  In {| sock_id := sock_id sk; sock_workflowId := sock_workflowId sk;
        readyState := r |} (set_first s r l).
Proof.
  induction l as [|x l IH]; [discriminate|].
  cbn [find set_first]. destruct (Nat.eqb (sock_id x) s).
  - intros [= ->]. now left.
  - intros Hf. right. now apply IH.
Qed.

Lemma In_set_first s r l sk' :
  In sk' (set_first s r l) ->
  exists sk, In sk l /\ sock_id sk' = sock_id sk /\
             sock_workflowId sk' = sock_workflowId sk /\
             (readyState sk' = readyState sk \/
              (readyState sk' = r /\
               find (fun x => Nat.eqb (sock_id x) s) l = Some sk)).
Proof.
  intros Hin. apply In_nth_error in Hin. destruct Hin as (i & Hn).
  destruct (set_first_nth _ _ _ _ _ Hn) as (sk & A & B & C & D).
  exists sk. split; [eapply nth_error_In; eauto|auto].
Qed.

Lemma In_set_first_fwd s r l sk :
  In sk l ->
  exists sk', In sk' (set_first s r l) /\ sock_id sk' = sock_id sk /\
              (readyState sk' = readyState sk \/ readyState sk' = r).
Proof.
  intros Hin. apply In_nth_error in Hin. destruct Hin as (i & Hn).
  destruct (set_first_nth_fwd s r _ _ _ Hn) as (sk' & A & B & C).
  exists sk'. split; [eapply nth_error_In; eauto|auto].
Qed.



Lemma find_socket_In s w sk :
  find_socket s w = Some sk -> In sk (sockets w) /\ sock_id sk = s.
Proof.
  unfold find_socket. intros Hf. apply find_some in Hf.
  destruct Hf as [Hin He]. apply Nat.eqb_eq in He. auto.
Qed.

Lemma no_live_of_count w :
  List.length (filter live (sockets w)) = 0 ->
  forall sk, In sk (sockets w) -> live sk = false.
Proof.
  intros H0 sk Hin. destruct (live sk) eqn:E; [|reflexivity].
  assert (Hf : In sk (filter live (sockets w))) by (apply filter_In; auto).
  destruct (filter live (sockets w)); [destruct Hf|discriminate].
Qed.

(** What does not touch sockets, timers, [socket] or [isConnected]. *)
Lemma linked_frame w w' :
  sockets w' = sockets w ->
  socket (hook w') = socket (hook w) ->
  isConnected (hook w') = isConnected (hook w) ->
  (forall t, In t (timers w') -> In t (timers w) \/ is_reconnect t = false) ->
  Linked w -> Linked w'.
Proof.
  intros Hs Hk Hc Ht [K1 K2 K3 K4 K5 K6].
  constructor; rewrite ?Hs, ?Hk, ?Hc; eauto.
  intros t id Hin Ha. destruct (Ht t Hin) as [Hold|Hsim]; [eauto|].
  unfold is_reconnect in Hsim. rewrite Ha in Hsim. discriminate.
Qed.

Lemma linked_set_live s r w w' sk :
  find_socket s w = Some sk -> live sk = true ->
  r = OPEN \/ r = CLOSING ->
  sockets w' = set_first s r (sockets w) ->
  socket (hook w') = socket (hook w) ->
  (r = OPEN -> isConnected (hook w') = true) ->
  (isConnected (hook w) = true -> isConnected (hook w') = true) ->
  (forall t, In t (timers w') -> In t (timers w)) ->
  Linked w -> Linked w'.
Proof.
  intros Hf Hl Hr Hs Hk Hopen Hkeep Ht [K1 K2 K3 K4 K5 K6].
  constructor; rewrite ?Hs, ?Hk.
  - intros i sk' Hn. destruct (set_first_nth _ _ _ _ _ Hn) as (x & A & B & _).
    rewrite B. eauto.
  - intros sk' Hin Hlive. destruct (In_set_first _ _ _ _ Hin) as (x & A & B & C & D).
    rewrite B. apply K2; [exact A|].
    destruct D as [D|[_ D]].
    + unfold live in *. now rewrite <- D.
    + unfold find_socket in Hf. congruence.
  - intros _. eexists. split; [apply (set_first_found s r _ sk Hf)|].
    cbn. destruct Hr as [->| ->]; auto.
  - intros sk' Hin Ho. destruct (In_set_first _ _ _ _ Hin) as (x & A & B & C & D).
    destruct D as [D|[D _]].
    + apply Hkeep, (K4 x A). congruence.
    + apply Hopen. congruence.
  - intros sk' Hin. destruct (In_set_first _ _ _ _ Hin) as (x & A & B & C & D).
    rewrite C. eauto.
  - eauto.
Qed.

Lemma linked_socket_close s w : Linked w -> Linked (socket_close s w).
Proof.
  intros L. unfold socket_close.
  destruct (find_socket s w) as [sk|] eqn:Hf; [|exact L].
  destruct (readyState sk) eqn:Hr; try exact L.
  - apply (linked_set_live s CLOSING w _ sk); auto.
    + unfold live. now rewrite Hr.
    + discriminate.
  - apply (linked_set_live s CLOSING w _ sk); auto.
    + unfold live. now rewrite Hr.
    + discriminate.
Qed.

Lemma linked_clearTimeout h w : Linked w -> Linked (clearTimeout h w).
Proof.
  apply linked_frame; try reflexivity.
  intros t Hin. cbn in Hin. left. now apply filter_In in Hin.
Qed.

Lemma linked_cleanup w : Linked w -> Linked (cleanup w).
Proof.
  intros L. unfold cleanup.
  set (w1 := match cleanup_socket (hook w) with
             | Some s => socket_close s w
             | None => w
             end).
  assert (L1 : Linked w1).
  { subst w1. destruct (cleanup_socket (hook w));
      [now apply linked_socket_close|exact L]. }
  destruct (reconnectTimeoutRef (hook w1));
    [now apply linked_clearTimeout|exact L1].
Qed.

Lemma linked_connect w :
  Linked w -> (forall sk, In sk (sockets w) -> live sk = false) ->
  Linked (connect (Some MOCK_WORKFLOW_ID) w).
Proof.
  intros [K1 K2 K3 K4 K5 K6] Hdead.
  change (connect (Some MOCK_WORKFLOW_ID) w)
    with (with_hook (setSocket (Some (List.length (sockets w))))
            (with_sockets
               (fun l => (l ++ [{| sock_id := List.length (sockets w);
                                   sock_workflowId := MOCK_WORKFLOW_ID;
                                   readyState := CONNECTING |}])%list) w)).
  constructor; cbn [with_hook with_sockets sockets hook timers socket
                    isConnected setSocket].
  - intros i sk Hn. destruct (Nat.lt_ge_cases i (List.length (sockets w))).
    + rewrite nth_error_app1 in Hn by assumption. eauto.
    + rewrite nth_error_app2 in Hn by assumption.
      destruct (i - List.length (sockets w)) as [|k] eqn:E; cbn in Hn.
      * injection Hn as <-. cbn. lia.
      * now destruct k.
  - intros sk Hin Hl. apply in_app_iff in Hin. destruct Hin as [Hin|[<-|[]]].
    + rewrite (Hdead _ Hin) in Hl. discriminate.
    + reflexivity.
  - intros Hc. destruct (K3 Hc) as (x & A & B). exists x.
    split; [apply in_app_iff; now left|exact B].
  - intros sk Hin Ho. apply in_app_iff in Hin. destruct Hin as [Hin|[<-|[]]].
    + eauto.
    + discriminate.
  - intros sk Hin. apply in_app_iff in Hin. destruct Hin as [Hin|[<-|[]]].
    + eauto.
    + reflexivity.
  - exact K6.
Qed.

Lemma linked_install id w : Linked w -> Linked (with_hook (install_effect id) w).
Proof. apply linked_frame; try reflexivity. auto. Qed.

Lemma linked_render_none w : Linked w -> Linked (render None w).
Proof.
  intros L. unfold render.
  destruct (option_string_eqb None (workflowId (hook w))); [exact L|].
  cbn [connect]. apply linked_install. now apply linked_cleanup.
Qed.

Lemma sockets_cleanup_nil w : sockets w = [] -> sockets (cleanup w) = [].
Proof.
  intros Hs. unfold cleanup.
  set (w1 := match cleanup_socket (hook w) with
             | Some s => socket_close s w
             | None => w
             end).
  assert (H1 : sockets w1 = []).
  { subst w1. destruct (cleanup_socket (hook w)) as [s|]; [|exact Hs].
    unfold socket_close, find_socket. rewrite Hs. cbn. exact Hs. }
  destruct (reconnectTimeoutRef (hook w1)); exact H1.
Qed.

Lemma linked_render_start w :
  Linked w -> sockets w = [] -> Linked (render (Some MOCK_WORKFLOW_ID) w).
Proof.
  intros L Hs. unfold render.
  destruct (option_string_eqb _ _); [exact L|].
  apply linked_connect.
  - apply linked_install. now apply linked_cleanup.
  - cbn [with_hook sockets]. rewrite (sockets_cleanup_nil w Hs). intros sk [].
Qed.

Lemma linked_ws_onopen s w sk :
  find_socket s w = Some sk -> readyState sk = CONNECTING ->
  Linked w -> Linked (ws_onopen (set_readyState s OPEN w)).
Proof.
  intros Hf Hr L. unfold ws_onopen.
  set (w2 := with_hook (setIsConnected true)
               (log LogConnected (set_readyState s OPEN w))).
  assert (L2 : Linked w2).
  { apply (linked_set_live s OPEN w w2 sk); auto.
    unfold live. now rewrite Hr. }
  destruct (reconnectTimeoutRef (hook w2));
    [now apply linked_clearTimeout|exact L2].
Qed.

Lemma linked_ws_onclose s w sk :
  find_socket s w = Some sk -> live sk = true ->
  Invariant w -> Linked w ->
  Linked (ws_onclose (sock_workflowId sk) (set_readyState s CLOSED w)).
Proof.
  intros Hf Hl Hinv L.
  destruct (inv_set_readyState s CLOSED w sk Hf Hl Hinv) as (_ & Hz & _).
  specialize (Hz eq_refl). unfold chain_count in Hz.
  assert (Hdead : forall x, In x (sockets (set_readyState s CLOSED w)) ->
                            live x = false).
  { apply no_live_of_count. lia. }
  destruct (find_socket_In _ _ _ Hf) as [Hin _].
  destruct L as [K1 K2 K3 K4 K5 K6].
  constructor; cbn [ws_onclose setTimeout with_hook log hook sockets timers
                    socket isConnected setSocket setIsConnected
                    set_reconnectTimeoutRef snd fst].
  - intros i sk' Hn. cbn in Hn.
    destruct (set_first_nth _ _ _ _ _ Hn) as (x & A & B & _).
    rewrite B. eauto.
  - intros sk' Hin' Hlive. rewrite (Hdead _ Hin') in Hlive. discriminate.
  - discriminate.
  - intros sk' Hin' Ho. pose proof (Hdead _ Hin') as Hd.
    unfold live in Hd. rewrite Ho in Hd. discriminate.
  - intros sk' Hin'. cbn in Hin'.
    destruct (In_set_first _ _ _ _ Hin') as (x & A & B & C & D).
    rewrite C. eauto.
  - intros t id Hin' Ha. cbn in Hin'. apply in_app_iff in Hin'.
    destruct Hin' as [Hin'|[<-|[]]]; [eauto|].
    cbn in Ha. injection Ha as <-. eauto.
Qed.

Lemma linked_ws_onerror w : Linked w -> Linked (ws_onerror w).
Proof. apply linked_frame; try reflexivity. auto. Qed.

Section WithPlatform.
Context `{Platform}.

Lemma folded_ws_onmessage raw w :
  Folded (hook w) -> Folded (hook (snd (ws_onmessage raw w))).
Proof.
  intros (F1 & F2 & F3 & F4).
  unfold ws_onmessage, try_catch, route, bind, lift, modify.
  destruct (JSON_parse raw) as [data|]; [|cbn; repeat split; assumption].
  cbn [ret snd fst].
  assert (Hty : forall ty, has_type ty data
                 = match get_prop data "type" with
                   | inr t => strict_eq_str t ty
                   | inl _ => false
                   end) by reflexivity.
  destruct (get_prop data "type") as [e|ty] eqn:Hg.
  { cbn. unfold Folded. cbn. rewrite !filter_snoc, !Hty, !app_nil_r.
    repeat split; assumption. }
  cbn [ret].
  destruct (strict_eq_str ty "workflow_update") eqn:E1.
  { pose proof (JSFacts.strict_eq_str_true _ _ E1) as ->.
    cbn. unfold Folded. cbn. rewrite !filter_snoc, !Hty. cbn.
    rewrite !app_nil_r, last_of_snoc. repeat split; assumption. }
  destruct (strict_eq_str ty "argument_generated") eqn:E2.
  { pose proof (JSFacts.strict_eq_str_true _ _ E2) as ->.
    cbn. unfold Folded. cbn. rewrite !filter_snoc, !Hty. cbn.
    rewrite !app_nil_r, F1. repeat split; assumption. }
  destruct (strict_eq_str ty "debate_turn") eqn:E3.
  { pose proof (JSFacts.strict_eq_str_true _ _ E3) as ->.
    cbn. unfold Folded. cbn. rewrite !filter_snoc, !Hty. cbn.
    rewrite !app_nil_r, F2. repeat split; assumption. }
  destruct (strict_eq_str ty "feedback_ready") eqn:E4.
  { pose proof (JSFacts.strict_eq_str_true _ _ E4) as ->.
    cbn. unfold Folded. cbn. rewrite !filter_snoc, !Hty. cbn.
    rewrite !app_nil_r, last_of_snoc. repeat split; assumption. }
  cbn. unfold Folded. cbn. rewrite !filter_snoc, !Hty, E1, E2, E3, E4, !app_nil_r.
  repeat split; assumption.
Qed.

Lemma ws_onmessage_frame raw w :
  let w' := snd (ws_onmessage raw w) in
  sockets w' = sockets w /\ timers w' = timers w /\
  socket (hook w') = socket (hook w) /\
  isConnected (hook w') = isConnected (hook w).
Proof.
  cbn zeta. unfold ws_onmessage, try_catch, route, bind, lift, modify.
  destruct (JSON_parse raw) as [data|]; [|cbn; auto].
  cbn [ret snd fst].
  destruct (get_prop data "type") as [e|ty]; [cbn; auto|].
  cbn [ret].
  destruct (strict_eq_str ty "workflow_update"); [cbn; auto|].
  destruct (strict_eq_str ty "argument_generated"); [cbn; auto|].
  destruct (strict_eq_str ty "debate_turn"); [cbn; auto|].
  destruct (strict_eq_str ty "feedback_ready"); cbn; auto.
Qed.

Lemma ready_eqb_eq a b : ready_eqb a b = true -> a = b.
Proof. destruct a, b; cbn; congruence. Qed.

Section Reach.
Variables (loaded_first loaded_second : Z).

Lemma linked_step e w :
  Invariant w -> Linked w -> Linked (step loaded_first loaded_second e w).
Proof.
  intros Hinv L. destruct e; cbn [step].
  - destruct (mounted (page w)); [|exact L].
    revert L. apply linked_frame; auto.
  - destruct (_ && _); [|exact L].
    revert L. apply linked_frame; auto.
  - destruct (mounted (page w) && negb (workflowStarted (page w))
              && negb (blank (userInput (page w)))) eqn:E; [|exact L].
    apply andb_true_iff in E. destruct E as [E Hb].
    apply andb_true_iff in E. destruct E as [_ Hst].
    apply negb_true_iff in Hb. apply negb_true_iff in Hst.
    destruct (inv_idle w Hinv Hst) as (Hso & _).
    unfold handleStartWorkflow_begin. rewrite Hb. unfold rerender.
    change (hook_argument _) with (Some MOCK_WORKFLOW_ID).
    apply linked_render_start; [|exact Hso].
    revert L. apply linked_frame; auto.
  - destruct (awaiting (page w)); [|exact L].
    revert L. apply linked_frame; auto.
  - destruct (awaiting (page w)) as [[m input]|]; [|exact L].
    cbn zeta.
    assert (Lc : Linked (handleStartWorkflow_catch loaded_first loaded_second
                           called m input (with_page (set_awaiting None) w))).
    { rewrite catch_effect. cbn zeta. cbn [page with_page].
      revert L. apply linked_frame; try reflexivity.
      cbn [timers with_page]. intros t Hin. apply in_app_iff in Hin.
      destruct Hin as [Hin|Hin]; [now left|right].
      assert (Ha : In (action t)
                     (scenario_actions
                        (getMockResponse loaded_first loaded_second called m
                           input))).
      { rewrite <- (timers_from_action
                      (List.length (scheduled (with_page (set_awaiting None) w)))
                      (interval_of m) 0).
        now apply in_map. }
      pose proof (scenario_actions_simulator
                    (getMockResponse loaded_first loaded_second called m input))
        as Hsim.
      rewrite Forall_forall in Hsim. specialize (Hsim _ Ha).
      unfold is_reconnect. destruct (action t) as [id| | |];
        [now elim (Hsim id)|reflexivity..]. }
    destruct (mounted (page w)); [|exact Lc].
    unfold rerender.
    assert (Harg : hook_argument
                     (page (handleStartWorkflow_catch loaded_first
                              loaded_second called m input
                              (with_page (set_awaiting None) w))) = None).
    { rewrite catch_effect. unfold hook_argument. cbn.
      now rewrite andb_false_r. }
    rewrite Harg. now apply linked_render_none.
  - destruct (mounted (page w)); [|exact L].
    apply linked_cleanup. revert L. apply linked_frame; auto.
  - destruct (find_socket s w) as [sk|] eqn:Hf; [|exact L].
    destruct (ready_eqb (readyState sk) CONNECTING) eqn:Hr; [|exact L].
    apply ready_eqb_eq in Hr. now apply (linked_ws_onopen s w sk).
  - destruct (find_socket s w) as [sk|]; [|exact L].
    destruct (_ || _); [|exact L].
    destruct (ws_onmessage_frame raw w) as (A & B & C & D).
    revert L. apply linked_frame; auto. rewrite B. auto.
  - destruct (find_socket s w) as [sk|] eqn:Hf; [|exact L].
    destruct (ready_eqb (readyState sk) CLOSED) eqn:Hr; [exact L|].
    pose proof (linked_ws_onclose s w sk Hf (live_of_not_closed _ Hr) Hinv L)
      as L'.
    revert L'. apply linked_frame; auto.
  - destruct (find_socket s w) as [sk|] eqn:Hf; [|exact L].
    destruct (ready_eqb (readyState sk) CLOSED) eqn:Hr; [exact L|].
    exact (linked_ws_onclose s w sk Hf (live_of_not_closed _ Hr) Hinv L).
  - destruct (find_timer t w) as [tm|] eqn:Hf; [|exact L].
    unfold find_timer in Hf. destruct (find_some_id _ _ _ Hf) as [Hin Hid].
    destruct (action tm) as [id| | |] eqn:Ha; cbn [run_action].
    + rewrite (lk_retry w L tm id Hin Ha).
      apply linked_connect.
      * apply (linked_frame (clearTimeout t w)); auto.
        now apply linked_clearTimeout.
      * cbn [log clearTimeout with_timers sockets].
        apply no_live_of_count.
        pose proof (inv_chain w Hinv) as Hc. unfold chain_count in Hc.
        assert (Hr : In tm (filter is_reconnect (timers w))).
        { apply filter_In. split; [exact Hin|].
          unfold is_reconnect. now rewrite Ha. }
        destruct (filter is_reconnect (timers w)); [destruct Hr|].
        cbn in Hc. lia.
    + apply (linked_frame (clearTimeout t w)); auto.
      now apply linked_clearTimeout.
    + apply (linked_frame (clearTimeout t w)); auto.
      now apply linked_clearTimeout.
    + apply (linked_frame (clearTimeout t w)); auto.
      now apply linked_clearTimeout.
Qed.

Lemma linked_initial : Linked initial.
Proof.
  constructor; cbn.
  - intros i sk Hn. now destruct i.
  - intros sk [].
  - discriminate.
  - intros sk [].
  - intros sk [].
  - intros t id [].
Qed.

Lemma linked_run es : forall w,
  Invariant w -> Linked w ->
  Linked (run loaded_first loaded_second es w).
Proof.
  induction es as [|e es IH]; intros w Hinv L; [exact L|].
  cbn [run]. apply IH; [now apply inv_step|now apply linked_step].
Qed.


Lemma find_set_first s s' r l sk :
  find (fun x => Nat.eqb (sock_id x) s) l = Some sk ->
  exists sk', find (fun x => Nat.eqb (sock_id x) s) (set_first s' r l) = Some sk' /\
              sock_workflowId sk' = sock_workflowId sk /\
              (readyState sk' = readyState sk \/ readyState sk' = r).
Proof.
  induction l as [|x l IH]; [discriminate|].
  cbn [find set_first]. destruct (Nat.eqb (sock_id x) s') eqn:E';
    destruct (Nat.eqb (sock_id x) s) eqn:E; cbn [find sock_id]; rewrite ?E.
  - intros [= ->]. eexists. split; [reflexivity|]. cbn. auto.
  - intros Hf. exists sk. auto.
  - intros [= ->]. exists sk. auto.
  - exact IH.
Qed.

Lemma cleanup_keeps_socket s w sk :
  find_socket s w = Some sk -> readyState sk <> CLOSED ->
  exists sk', find_socket s (cleanup w) = Some sk' /\
              sock_workflowId sk' = sock_workflowId sk /\
              readyState sk' <> CLOSED.
Proof.
  intros Hf Hr. unfold cleanup.
  set (w1 := match cleanup_socket (hook w) with
             | Some s => socket_close s w
             | None => w
             end).
  assert (H1 : exists sk', find_socket s w1 = Some sk' /\
                 sock_workflowId sk' = sock_workflowId sk /\
                 readyState sk' <> CLOSED).
  { subst w1. destruct (cleanup_socket (hook w)) as [s'|]; [|eauto].
    unfold socket_close. destruct (find_socket s' w) as [x|]; [|eauto].
    destruct (readyState x); eauto;
      destruct (find_set_first s s' CLOSING _ _ Hf) as (sk' & A & B & C);
      exists sk'; (split; [exact A|]); (split; [exact B|]);
      destruct C as [C|C]; rewrite C; [exact Hr|discriminate|exact Hr|discriminate]. }
  destruct (reconnectTimeoutRef (hook w1)); exact H1.
Qed.

Lemma cleanup_scheduled w : scheduled (cleanup w) = scheduled w.
Proof.
  unfold cleanup.
  set (w1 := match cleanup_socket (hook w) with
             | Some s => socket_close s w
             | None => w
             end).
  assert (H1 : scheduled w1 = scheduled w).
  { subst w1. destruct (cleanup_socket (hook w)) as [s'|]; [|reflexivity].
    unfold socket_close. destruct (find_socket s' w) as [x|]; [|reflexivity].
    destruct (readyState x); reflexivity. }
  destruct (reconnectTimeoutRef (hook w1)); exact H1.
Qed.

(** X13: when the page is unmounted while a socket of the workflow is
    not yet closed, the close or error event that follows still runs
    [onclose], which registers a reconnection after 3000 ms; when that
    timer fires, a new socket is created for the unmounted page. *)
Theorem unmount_does_not_stop_reconnection :
  forall (es : list Event) (s : nat) (sk : Socket) (e : Event),
    let w := run loaded_first loaded_second es initial in
    mounted (page w) = true ->
    find_socket s w = Some sk -> readyState sk <> CLOSED ->
    e = SockClose s \/ e = SockError s ->
    let w1 := run loaded_first loaded_second [Unmount; e] w in
    let h := S (List.length (scheduled w)) in
    mounted (page w1) = false /\
    find_timer h w1
    = Some {| timer_id := h; delay := 3000;
              action := Reconnect MOCK_WORKFLOW_ID |} /\
    let w2 := step loaded_first loaded_second (TimerFire h) w1 in
    sockets w2
    = (sockets w1 ++ [{| sock_id := List.length (sockets w1);
                         sock_workflowId := MOCK_WORKFLOW_ID;
                         readyState := CONNECTING |}])%list /\
    socket (hook w2) = Some (List.length (sockets w1)).
Proof.
  intros es s sk e. cbn zeta.
  pose proof (inv_run loaded_first loaded_second es initial inv_initial)
    as Hinv.
  pose proof (linked_run es initial inv_initial linked_initial) as L.
  set (w := run loaded_first loaded_second es initial) in *.
  intros Hm Hf Hr He.
  pose proof (inv_step loaded_first loaded_second Unmount w Hinv) as Hinv1.
  cbn [run].
  change (step loaded_first loaded_second Unmount w)
    with (if mounted (page w)
          then cleanup (with_page (set_mounted false) w) else w) in *.
  rewrite Hm in *.
  set (w0 := cleanup (with_page (set_mounted false) w)) in *.
  destruct (cleanup_keeps_socket s (with_page (set_mounted false) w) sk Hf Hr)
    as (sk' & Hf' & Hwf & Hr').
  fold w0 in Hf'.
  assert (Hid : sock_workflowId sk' = MOCK_WORKFLOW_ID).
  { rewrite Hwf. destruct (find_socket_In _ _ _ Hf) as [Hin _].
    exact (lk_workflow w L sk Hin). }
  assert (Hsc : scheduled w0 = scheduled w)
    by (subst w0; now rewrite cleanup_scheduled).
  assert (Hp0 : mounted (page w0) = false).
  { subst w0. now rewrite cleanup_page. }
  assert (Hnc : ready_eqb (readyState sk') CLOSED = false)
    by (destruct (readyState sk'); try reflexivity; congruence).
  set (t := {| timer_id := S (List.length (scheduled w)); delay := 3000;
               action := Reconnect MOCK_WORKFLOW_ID |}).
  assert (Hold : Forall (fun x => timer_id x < S (List.length (scheduled w)))
                   (timers w0)).
  { apply Forall_forall. intros x Hin.
    pose proof (inv_ids w0 Hinv1 x Hin). rewrite Hsc in *. lia. }
  set (w1 := step loaded_first loaded_second e w0).
  assert (Hw1 : page w1 = page w0 /\ timers w1 = (timers w0 ++ [t])%list /\
                sockets w1 = set_first s CLOSED (sockets w0)).
  { subst w1. destruct He as [-> | ->]; cbn [step]; rewrite Hf', Hnc, Hid;
      cbn; rewrite Hsc; auto. }
  destruct Hw1 as (P1 & P2 & P3).
  split; [now rewrite P1|].
  assert (Hft : find_timer (S (List.length (scheduled w))) w1 = Some t).
  { unfold find_timer. rewrite P2, find_skips_earlier by exact Hold.
    cbn. now rewrite Nat.eqb_refl. }
  split; [exact Hft|].
  cbn [step]. rewrite Hft. cbn [action t run_action]. split; reflexivity.
Qed.

Lemma folded_step e w :
  Folded (hook w) -> Folded (hook (step loaded_first loaded_second e w)).
Proof.
  intros HF.
  assert (Hsame : forall w', buckets (hook w') = buckets (hook w) ->
                             Folded (hook w')).
  { intros w' Hb. exact (folded_buckets _ _ Hb HF). }
  destruct e; cbn [step].
  - destruct (mounted (page w)); apply Hsame; reflexivity.
  - destruct (_ && _); apply Hsame; reflexivity.
  - destruct (_ && _); apply Hsame; [|reflexivity].
    unfold rerender. rewrite buckets_render. unfold handleStartWorkflow_begin.
    destruct (blank _); reflexivity.
  - destruct (awaiting (page w)); apply Hsame; reflexivity.
  - destruct (awaiting (page w)) as [[m input]|]; apply Hsame; [|reflexivity].
    cbn zeta. destruct (mounted (page w));
      [unfold rerender; rewrite buckets_render|];
      rewrite catch_effect; reflexivity.
  - destruct (mounted (page w)); apply Hsame; [|reflexivity].
    now rewrite hook_cleanup.
  - destruct (find_socket s w) as [sk|]; [|exact HF].
    destruct (ready_eqb _ _); [|exact HF].
    apply Hsame. now rewrite buckets_ws_onopen.
  - destruct (find_socket s w) as [sk|]; [|exact HF].
    destruct (_ || _); [|exact HF].
    now apply folded_ws_onmessage.
  - destruct (find_socket s w) as [sk|]; [|exact HF].
    destruct (ready_eqb _ _); [exact HF|].
    apply Hsame. reflexivity.
  - destruct (find_socket s w) as [sk|]; [|exact HF].
    destruct (ready_eqb _ _); [exact HF|].
    apply Hsame. reflexivity.
  - destruct (find_timer t w) as [tm|]; [|exact HF].
    apply Hsame. now rewrite buckets_run_action.
Qed.

(** X11: in every state the page can reach, the four typed pieces of
    the hook's state are functions of its message log: [wsArguments] and
    [debateTurns] are the logged messages of their type in order, and
    [workflowStatus] and [feedback] are the last logged message of
    their type, if any. *)
Theorem buckets_are_projections_of_the_message_log :
  forall (es : list Event),
    let h := hook (run loaded_first loaded_second es initial) in
    wsArguments h = filter (has_type "argument_generated") (messages h) /\
    debateTurns h = filter (has_type "debate_turn") (messages h) /\
    workflowStatus h
    = last_of (filter (has_type "workflow_update") (messages h)) /\
    feedback h = last_of (filter (has_type "feedback_ready") (messages h)).
Proof.
  intros es. cbn zeta.
  change (Folded (hook (run loaded_first loaded_second es initial))).
  assert (Hgen : forall w, Folded (hook w) ->
                   Folded (hook (run loaded_first loaded_second es w))).
  { induction es as [|e es IH]; intros w HF; [exact HF|].
    cbn [run]. apply IH. now apply folded_step. }
  apply Hgen. repeat split.
Qed.

End Reach.
End WithPlatform.

Import JSONRef.

Lemma unmount_does_not_stop_reconnection_witness :
  mounted (page (run 0 0 opened initial)) = true /\
  find_socket 0 (run 0 0 opened initial)
  = Some {| sock_id := 0; sock_workflowId := MOCK_WORKFLOW_ID;
            readyState := OPEN |} /\
  let w1 := run 0 0 [Unmount; SockClose 0] (run 0 0 opened initial) in
  let h := S (List.length (scheduled (run 0 0 opened initial))) in
  mounted (page w1) = false /\
  find_timer h w1
  = Some {| timer_id := h; delay := 3000;
            action := Reconnect MOCK_WORKFLOW_ID |} /\
  let w2 := step 0 0 (TimerFire h) w1 in
  sockets w2
  = (sockets w1 ++ [{| sock_id := List.length (sockets w1);
                       sock_workflowId := MOCK_WORKFLOW_ID;
                       readyState := CONNECTING |}])%list /\
  socket (hook w2) = Some (List.length (sockets w1)).
Proof.
  assert (Hm : mounted (page (run 0 0 opened initial)) = true)
    by (vm_compute; reflexivity).
  assert (Hf : find_socket 0 (run 0 0 opened initial)
               = Some {| sock_id := 0; sock_workflowId := MOCK_WORKFLOW_ID;
                         readyState := OPEN |}) by (vm_compute; reflexivity).
  split; [exact Hm|]. split; [exact Hf|].
  apply (unmount_does_not_stop_reconnection 0 0 opened 0 _ (SockClose 0) Hm Hf).
  - vm_compute. discriminate.
  - left. reflexivity.
Defined.

End HookFacts.
(* ================================================================== *)
(** ** Facts about the notification channel *)
(* ================================================================== *)

Module NotificationFacts.
Import JS Exn Workflow ChannelSpec ChannelFacts NotificationSpec.

Lemma nth_error_closed_then n r s x :
  nth_error (repeat CLOSED n ++ [r]) s = Some x -> x <> CLOSED ->
  s = n /\ x = r.
Proof.
  intros Hn Hx. destruct (Nat.lt_trichotomy s n) as [Hlt|[->|Hgt]].
  - rewrite nth_error_app1 in Hn by now rewrite repeat_length.
    apply nth_error_In, repeat_spec in Hn. congruence.
  - rewrite nth_error_after_repeat in Hn. split; congruence.
  - rewrite nth_error_app2 in Hn by (rewrite repeat_length; lia).
    rewrite repeat_length in Hn.
    destruct (s - n) as [|[|k]] eqn:E; cbn in Hn; try discriminate. lia.
Qed.

Lemma repeat_snoc {A : Type} (x : A) n : (repeat x n ++ [x])%list = repeat x (S n).
Proof. induction n as [|n IH]; [reflexivity|]. cbn. now rewrite IH. Qed.

Section WithPlatform.
Context `{Platform}.

Lemma handle_frame data w :
  let w' := snd (Notification.handleWebSocketMessage data w) in
  Notification.websocket w' = Notification.websocket w /\
  Notification.sockets w' = Notification.sockets w /\
  Notification.timers w' = Notification.timers w /\
  Notification.scheduled w' = Notification.scheduled w /\
  Notification.console w' = Notification.console w /\
  match fst (Notification.handleWebSocketMessage data w) with
  | Ret _ =>
      Notification.effects w' = Notification.effects w \/
      exists e, Notification.effects w' = (Notification.effects w ++ [e])%list
  | Throw _ => Notification.effects w' = Notification.effects w
  end.
Proof.
  cbn zeta. unfold Notification.handleWebSocketMessage, bind, lift, modify.
  destruct (get_prop data "type") as [e|ty]; [cbn; auto 10|].
  cbn [ret].
  destruct (strict_eq_str ty "analysis_update").
  { destruct (get_prop data "analysis"); cbn; eauto 10. }
  destruct (strict_eq_str ty "case_update").
  { destruct (get_prop data "cases"); cbn; eauto 10. }
  destruct (strict_eq_str ty "notification").
  { destruct (get_prop data "message"); cbn; [auto 10|].
    destruct (get_prop data "level"); cbn; eauto 10. }
  cbn. auto 10.
Qed.

Lemma chain_step e n r w :
  chain n r w ->
  exists n' r', chain n' r' (Notification.step e w).
Proof.
  intros (Hs & Hw & Ht & Hsc). destruct e as [s|s raw|s|s|t]; cbn [Notification.step].
  - destruct (nth_error (Notification.sockets w) s) as [x|] eqn:Hn;
      [|exists n, r; repeat split; assumption].
    destruct x; try (exists n, r; repeat split; assumption).
    rewrite Hs in Hn.
    destruct (nth_error_closed_then _ _ _ _ Hn) as [-> <-]; [discriminate|].
    exists n, OPEN. unfold chain. cbn. rewrite Hs, set_nth_after_repeat.
    cbn in Ht, Hsc. auto.
  - destruct (nth_error (Notification.sockets w) s) as [x|] eqn:Hn;
      [|exists n, r; repeat split; assumption].
    destruct x; try (exists n, r; repeat split; assumption).
    exists n, r. unfold Notification.onmessage, bind, lift.
    destruct (JSON_parse raw) as [data|]; [|cbn; repeat split; assumption].
    cbn [ret].
    destruct (handle_frame data w) as (A & B & C & D & _).
    destruct (Notification.handleWebSocketMessage data w) as [[u|err] w'];
      cbn [snd fst] in *; unfold chain; cbn; rewrite ?A, ?B, ?C, ?D; auto.
  - destruct (nth_error (Notification.sockets w) s) as [x|] eqn:Hn;
      [|exists n, r; repeat split; assumption].
    rewrite Hs in Hn.
    assert (Hcase : x <> CLOSED ->
              chain n CLOSED
                (Notification.onclose
                   (Notification.onerror
                      (Notification.set_readyState s CLOSED w)))).
    { intros Hx. destruct (nth_error_closed_then _ _ _ _ Hn Hx) as [-> <-].
      assert (Hr : ready_eqb x CLOSED = false) by (destruct x; cbn; congruence).
      rewrite Hr in Ht, Hsc.
      unfold chain. cbn. rewrite Hs, set_nth_after_repeat, Ht, Hsc.
      rewrite length_app, Hsc, Nat.add_1_r. repeat split; auto. }
    destruct x; try (exists n, CLOSED; apply Hcase; discriminate).
    exists n, r. rewrite <- Hs in Hn. repeat split; assumption.
  - destruct (nth_error (Notification.sockets w) s) as [x|] eqn:Hn;
      [|exists n, r; repeat split; assumption].
    rewrite Hs in Hn.
    assert (Hcase : x <> CLOSED ->
              chain n CLOSED
                (Notification.onclose
                   (Notification.set_readyState s CLOSED w))).
    { intros Hx. destruct (nth_error_closed_then _ _ _ _ Hn Hx) as [-> <-].
      assert (Hr : ready_eqb x CLOSED = false) by (destruct x; cbn; congruence).
      rewrite Hr in Ht, Hsc.
      unfold chain. cbn. rewrite Hs, set_nth_after_repeat, Ht, Hsc.
      rewrite length_app, Hsc, Nat.add_1_r. repeat split; auto. }
    destruct x; try (exists n, CLOSED; apply Hcase; discriminate).
    exists n, r. rewrite <- Hs in Hn. repeat split; assumption.
  - rewrite Ht. destruct (ready_eqb r CLOSED) eqn:Hr;
      [|exists n, r; unfold chain; rewrite Hr; auto].
    cbn [existsb notify_timer Notification.timer_id orb].
    destruct (Nat.eqb (S n) t) eqn:E;
      [|exists n, r; unfold chain; rewrite Hr; auto].
    apply Nat.eqb_eq in E. subst t.
    assert (r = CLOSED) by (destruct r; cbn in Hr; congruence). subst r.
    exists (S n), CONNECTING. unfold chain. cbn.
    rewrite Hs, Ht, Hsc. cbn. rewrite Nat.eqb_refl. cbn.
    rewrite length_app, repeat_length, Nat.add_1_r, <- app_assoc.
    change ([CLOSED] ++ [CONNECTING])%list with [CLOSED; CONNECTING].
    replace (repeat CLOSED n ++ [CLOSED; CONNECTING])%list
      with ((repeat CLOSED n ++ [CLOSED]) ++ [CONNECTING])%list
      by now rewrite <- app_assoc.
    rewrite repeat_snoc. auto.
Qed.

(** X14: after any sequence of events, the notification channel has
    created a chain of sockets of which all but the last are closed,
    [AppState.websocket] is the last one, and a reconnection timer of
    5000 ms is pending exactly when the last one is closed. *)
Theorem notification_channel_keeps_exactly_one_attempt :
  forall (es : list Notification.Event),
    let w := Notification.run es Notification.initial in
    exists (n : nat) (r : ReadyState),
      Notification.sockets w = (repeat CLOSED n ++ [r])%list /\
      Notification.websocket w = Some n /\
      Notification.timers w
      = (if ready_eqb r CLOSED
         then [{| Notification.timer_id := S n; Notification.delay := 5000 |}]
         else []) /\
      List.length (Notification.scheduled w)
      = (if ready_eqb r CLOSED then S n else n).
Proof.
  intros es. cbn zeta.
  assert (Hgen : forall w n r, chain n r w ->
            exists n' r', chain n' r' (Notification.run es w)).
  { induction es as [|e es IH]; intros w n r Hc; [eauto|].
    cbn [Notification.run].
    destruct (chain_step e n r w Hc) as (n' & r' & Hc'). eauto. }
  destruct (Hgen Notification.initial 0 CONNECTING) as (n & r & Hc).
  { repeat split. }
  exists n, r. exact Hc.
Qed.

(** X15: a message on the notification channel changes neither the
    sockets, the timers nor [AppState.websocket]; it has at most one
    effect on the page, or logs the exception that left the handler. *)
Theorem notification_message_leaves_the_connection_alone :
  forall (s : nat) (raw : string) (w : Notification.World),
    let w' := Notification.step (Notification.SockMessage s raw) w in
    Notification.websocket w' = Notification.websocket w /\
    Notification.sockets w' = Notification.sockets w /\
    Notification.timers w' = Notification.timers w /\
    Notification.scheduled w' = Notification.scheduled w /\
    ((Notification.effects w' = Notification.effects w /\
      Notification.console w' = Notification.console w) \/
     (exists e, Notification.effects w' = (Notification.effects w ++ [e])%list
                /\ Notification.console w' = Notification.console w) \/
     (exists err, Notification.effects w' = Notification.effects w /\
        Notification.console w'
        = (Notification.console w ++ [Notification.LogUncaught err])%list)).
Proof.
  intros s raw w. cbn zeta. cbn [Notification.step].
  destruct (nth_error (Notification.sockets w) s) as [x|]; [|auto 10].
  destruct x; auto 10.
  unfold Notification.onmessage, bind, lift.
  destruct (JSON_parse raw) as [data|]; [|cbn; eauto 10].
  cbn [ret].
  destruct (handle_frame data w) as (A & B & C & D & E & F).
  destruct (Notification.handleWebSocketMessage data w) as [[u|err] w'];
    cbn [snd fst] in *; cbn; rewrite ?A, ?B, ?C, ?D, ?E.
  - repeat split. destruct F as [F|(e & F)]; [left; auto|right; left; eauto].
  - repeat split. right. right. exists err. rewrite F. auto.
Qed.

End WithPlatform.
End NotificationFacts.
(* ================================================================== *)
(** ** Facts about [debounce] and [throttle] *)
(* ================================================================== *)

Module TimingFacts.
Import Timing.

Section Facts.
Variable A : Type.

Lemma settled_step wait (e : DebounceEvent A) d :
  settled wait d -> settled wait (debounce_step wait e d).
Proof.
  intros [Hw Hh]. destruct e as [args|h]; cbn [debounce_step].
  - split.
    + right. exists args. cbn. split; [reflexivity|].
      destruct Hw as [->|(a & Ht & ->)].
      * now destruct (timeout d).
      * rewrite Ht. cbn. now rewrite Nat.eqb_refl.
    + cbn. intros h [= <-]. lia.
  - destruct (find _ (waiting d)) as [t|] eqn:Hf; [|now split].
    split; [|exact Hh]. left. cbn.
    destruct Hw as [Hw|(a & Ht & Hw)]; rewrite Hw in *; [discriminate|].
    cbn in Hf |- *. destruct (Nat.eqb (issued d) h) eqn:E; [|discriminate].
    cbn. now destruct (timeout d).
Qed.

Lemma settled_run wait (es : list (DebounceEvent A)) : forall d,
  settled wait d -> settled wait (debounce_run wait es d).
Proof.
  induction es as [|e es IH]; intros d Hd; [exact Hd|].
  cbn [debounce_run]. apply IH. now apply settled_step.
Qed.

Lemma settled_initial wait : settled wait (@debounced A).
Proof. split; [now left|discriminate]. Qed.

Lemma debounce_run_app wait (es1 es2 : list (DebounceEvent A)) d :
  debounce_run wait (es1 ++ es2) d
  = debounce_run wait es2 (debounce_run wait es1 d).
Proof.
  revert d. induction es1 as [|e es1 IH]; intros d; [reflexivity|].
  cbn. apply IH.
Qed.

Lemma burst_effect wait (burst : list A) : forall d,
  settled wait d ->
  let d' := debounce_run wait (map Call burst) d in
  invoked d' = invoked d /\
  issued d' = issued d + List.length burst.
Proof.
  induction burst as [|a burst IH]; intros d Hd; cbn zeta.
  - cbn. auto.
  - cbn [map debounce_run].
    destruct (IH _ (settled_step wait (Call a) d Hd)) as [I1 I2].
    rewrite I1, I2. cbn. split; [reflexivity|lia].
Qed.

(** X16: after any history of a debounced function, a burst of calls
    with no timer firing in between invokes nothing and leaves exactly
    one timer waiting, that of the last call; when it fires, the
    function is invoked once, with the arguments of the last call. *)
Theorem debounce_runs_only_the_last_call_of_a_burst :
  forall (wait : Z) (es : list (DebounceEvent A)) (burst : list A) (last : A),
    let d := debounce_run wait es debounced in
    let d1 := debounce_run wait (map Call (burst ++ [last])) d in
    let h := issued d + List.length burst + 1 in
    invoked d1 = invoked d /\
    waiting d1
    = [{| later_id := h; later_delay := wait; later_args := last |}] /\
    (forall k, k <> h -> debounce_step wait (Fire k) d1 = d1) /\
    invoked (debounce_step wait (Fire h) d1)
    = (invoked d ++ [last])%list /\
    waiting (debounce_step wait (Fire h) d1) = [].
Proof.
  intros wait es burst last. cbn zeta.
  pose proof (settled_run wait es _ (settled_initial wait)) as Hd.
  set (d := debounce_run wait es debounced) in *.
  rewrite map_app, debounce_run_app.
  destruct (burst_effect wait burst d Hd) as [I1 I2]. cbn zeta in I1, I2.
  pose proof (settled_run wait (map Call burst) d Hd) as Hd0.
  set (d0 := debounce_run wait (map Call burst) d) in *.
  cbn [map debounce_run debounce_step].
  assert (Hw : waiting (executedFunction wait last d0)
               = [{| later_id := issued d + List.length burst + 1;
                     later_delay := wait; later_args := last |}]).
  { cbn. rewrite I2, Nat.add_1_r. destruct Hd0 as [[Hw|(a & Ht & Hw)] _].
    - rewrite Hw. now destruct (timeout d0).
    - rewrite Hw, Ht. cbn. now rewrite Nat.eqb_refl. }
  split; [exact I1|]. split; [exact Hw|]. split; [|split].
  - intros k Hk. cbn [debounce_step]. rewrite Hw. cbn.
    destruct (Nat.eqb_spec (issued d + List.length burst + 1) k);
      [congruence|reflexivity].
  - cbn [debounce_step]. rewrite Hw. cbn. rewrite Nat.eqb_refl. cbn.
    now rewrite I1.
  - cbn [debounce_step]. rewrite Hw. cbn. rewrite Nat.eqb_refl. cbn.
    reflexivity.
Qed.

(* ---- throttle ---- *)

Lemma paced_step (e : ThrottleEvent A) t :
  paced t -> paced (throttle_step e t).
Proof.
  intros [[Hi Hr]|[Hi Hr]]; destruct e as [args|h];
    cbn [throttle_step]; unfold throttled_call; rewrite ?Hi, ?Hr.
  - left. auto.
  - cbn. destruct (Nat.eqb h (handles t)) eqn:E; cbn.
    + right. cbn. rewrite Nat.eqb_sym, E. auto.
    + left. auto.
  - left. cbn. auto.
  - cbn. right. auto.
Qed.

Lemma paced_run (es : list (ThrottleEvent A)) : forall t,
  paced t -> paced (throttle_run es t).
Proof.
  induction es as [|e es IH]; intros t Ht; [exact Ht|].
  cbn [throttle_run]. apply IH. now apply paced_step.
Qed.

Lemma passed_bound (es : list (ThrottleEvent A)) : forall t,
  paced t ->
  List.length (passed (throttle_run es t))
  + (if inThrottle t then 1 else 0)
  <= List.length (passed t) + 1 + List.length (filter is_fire es).
Proof.
  induction es as [|e es IH]; intros t Ht.
  - cbn. destruct (inThrottle t); lia.
  - cbn [throttle_run]. pose proof (IH _ (paced_step e t Ht)) as IH'.
    revert IH'. generalize (throttle_run es (throttle_step e t)).
    intros t' IH'.
    clear IH.
    destruct Ht as [[Hi Hr]|[Hi Hr]]; destruct e as [args|h];
      cbn [throttle_step filter is_fire List.length] in IH' |- *;
      unfold throttled_call in IH'; rewrite Hi; try rewrite Hi in IH';
      try rewrite Hr in IH'.
    + cbn in IH'. rewrite Hi in IH'. lia.
    + cbn [existsb] in IH'.
      destruct (Nat.eqb h (handles t)); cbn in IH'; rewrite ?Hi in IH'; lia.
    + cbn in IH'. rewrite length_app in IH'. cbn in IH'. lia.
    + cbn in IH'. rewrite Hi in IH'. lia.
Qed.

(** X17: while a throttled function is in its window a call does
    nothing and exactly one reset timer is pending; outside the window
    a call is passed on; and the calls passed on never exceed the
    timer firings by more than one. *)
Theorem throttle_passes_one_call_per_window :
  forall (es : list (ThrottleEvent A)) (args : A),
    let t := throttle_run es throttled in
    (inThrottle t = true ->
       throttle_step (TCall args) t = t /\ resets t = [handles t]) /\
    (inThrottle t = false ->
       resets t = [] /\
       passed (throttle_step (TCall args) t) = (passed t ++ [args])%list) /\
    List.length (passed t) <= 1 + List.length (filter is_fire es).
Proof.
  intros es args. cbn zeta.
  assert (H0 : paced (@throttled A)) by (right; auto).
  pose proof (paced_run es _ H0) as Ht.
  pose proof (passed_bound es _ H0) as Hb. cbn in Hb.
  set (t := throttle_run es throttled) in *.
  split; [|split].
  - intros Hi. destruct Ht as [[_ Hr]|[Hi' _]]; [|congruence].
    split; [|exact Hr]. cbn. unfold throttled_call. now rewrite Hi.
  - intros Hi. destruct Ht as [[Hi' _]|[_ Hr]]; [congruence|].
    split; [exact Hr|]. cbn. unfold throttled_call. now rewrite Hi.
  - lia.
Qed.

End Facts.
End TimingFacts.
(* ================================================================== *)
(** ** Facts about the chat of the main script *)
(* ================================================================== *)

Module MainChatFacts.
Import JS Exn Workflow MainChat.

(* ---- trim ---- *)

Lemma blank_unfold c r :
  blank (String c r)
  = if ascii_space c then blank r
    else
      match r with
      | String c1 r1 =>
          if Nat.eqb (nat_of_ascii c) 194 && Nat.eqb (nat_of_ascii c1) 160
          then blank r1
          else
            match r1 with
            | String c2 r2 => if wide_space c c1 c2 then blank r2 else false
            | EmptyString => false
            end
      | EmptyString => false
      end.
Proof. reflexivity. Qed.

Lemma trimStart_unfold c r :
  trimStart (String c r)
  = if ascii_space c then trimStart r
    else
      match r with
      | String c1 r1 =>
          if Nat.eqb (nat_of_ascii c) 194 && Nat.eqb (nat_of_ascii c1) 160
          then trimStart r1
          else
            match r1 with
            | String c2 r2 =>
                if wide_space c c1 c2 then trimStart r2 else String c r
            | EmptyString => String c r
            end
      | EmptyString => String c r
      end.
Proof. reflexivity. Qed.

Lemma blank_trimStart : forall n s,
  String.length s <= n -> blank (trimStart s) = blank s.
Proof.
  induction n as [n IH] using lt_wf_ind. intros s Hn.
  destruct s as [|c r]; [reflexivity|].
  cbn [String.length] in Hn.
  rewrite trimStart_unfold, (blank_unfold c r).
  destruct (ascii_space c) eqn:Ea.
  { apply (IH (String.length r)); lia. }
  destruct r as [|c1 r1]; [now rewrite blank_unfold, Ea|].
  cbn [String.length] in Hn.
  destruct (Nat.eqb (nat_of_ascii c) 194 && Nat.eqb (nat_of_ascii c1) 160)
    eqn:En.
  { apply (IH (String.length r1)); lia. }
  destruct r1 as [|c2 r2]; [now rewrite blank_unfold, Ea, En|].
  cbn [String.length] in Hn.
  destruct (wide_space c c1 c2) eqn:Ew;
    [|now rewrite blank_unfold, Ea, En, Ew].
  apply (IH (String.length r2)); lia.
Qed.

Lemma trimEnd_empty s : trimEnd s = EmptyString <-> blank s = true.
Proof.
  destruct s as [|c r]; [cbn; tauto|].
  cbn [trimEnd]. destruct (blank (String c r)); split; congruence.
Qed.

Lemma trim_empty s : trim s = EmptyString <-> blank s = true.
Proof.
  unfold trim. rewrite trimEnd_empty, (blank_trimStart (String.length s)) by lia.
  tauto.
Qed.

(* ---- what the chat shows ---- *)

Lemma shown_app l1 l2 : shown (l1 ++ l2) = (shown l1 ++ shown l2)%list.
Proof.
  induction l1 as [|n l1 IH]; [reflexivity|].
  destruct n; cbn; now rewrite IH.
Qed.

Lemma shown_remove_first p l :
  (forall t c, p (Bubble t c) = false) ->
  shown (remove_first p l) = shown l.
Proof.
  intros Hp. induction l as [|n l IH]; [reflexivity|].
  cbn [remove_first]. destruct (p n) eqn:E.
  - destruct n; [reflexivity| |reflexivity]. now rewrite Hp in E.
  - destruct n; cbn; now rewrite IH.
Qed.

Lemma consistent_addMessage t c w : consistent w -> consistent (addMessage t c w).
Proof.
  unfold consistent. intros Hc. cbn.
  rewrite shown_app, shown_remove_first by reflexivity. now rewrite Hc.
Qed.

Lemma consistent_hide w : consistent w -> consistent (hideTypingIndicator w).
Proof.
  unfold consistent. intros Hc. cbn.
  now rewrite shown_remove_first by reflexivity.
Qed.

Lemma consistent_show w : consistent w -> consistent (showTypingIndicator w).
Proof.
  unfold consistent. intros Hc. cbn. rewrite shown_app. cbn.
  now rewrite app_nil_r.
Qed.

Lemma consistent_catch e w :
  consistent w -> consistent (snd (sendMessage_catch e w)).
Proof.
  intros Hc. unfold sendMessage_catch, bind, modify. cbn [snd fst].
  apply consistent_addMessage, consistent_hide. exact Hc.
Qed.

Lemma consistent_update a w :
  consistent w -> consistent (snd (updateAnalysisPanel a w)).
Proof.
  intros Hc. unfold updateAnalysisPanel, bind, gets, modify, throw, ret.
  cbn [fst snd]. destruct (has_analysisTab w); [|exact Hc].
  destruct (renders a); exact Hc.
Qed.

Lemma consistent_resume a w : consistent w -> consistent (sendMessage_resume a w).
Proof.
  intros Hc. unfold sendMessage_resume.
  set (w0 := set_flight (posted w) (pred (in_flight w)) w).
  assert (H0 : consistent w0) by exact Hc.
  destruct a as [|data]; [now apply consistent_catch|].
  unfold try_catch, sendMessage_try, bind, modify, lift.
  cbn [fst snd].
  destruct (get_prop data "response") as [e|response].
  { cbn [fst snd]. apply consistent_catch, consistent_hide, H0. }
  cbn [fst snd ret].
  set (w1 := addMessage "assistant" response (hideTypingIndicator w0)).
  assert (H1 : consistent w1)
    by (apply consistent_addMessage, consistent_hide, H0).
  destruct (get_prop data "analysis") as [e|analysis].
  { cbn [fst snd]. now apply consistent_catch. }
  cbn [fst snd ret].
  destruct analysis as [a|]; [|exact H1].
  destruct (truthy (Some a)); [|exact H1].
  pose proof (consistent_update a w1 H1) as H2.
  destruct (updateAnalysisPanel a w1) as [[u|e] w2]; cbn [fst snd] in *;
    [exact H2|now apply consistent_catch].
Qed.

Lemma consistent_step e w : consistent w -> consistent (step e w).
Proof.
  intros Hc. destruct e as [text| |a|confirmed| |]; cbn [step].
  - exact Hc.
  - unfold sendMessage_begin.
    destruct (String.eqb (trim (input w)) EmptyString); [exact Hc|].
    cbn zeta.
    apply (consistent_show (set_input EmptyString
                              (addMessage "user" (Some (JStr (trim (input w)))) w))).
    apply (consistent_addMessage "user" _ w Hc).
  - destruct (in_flight w); [exact Hc|now apply consistent_resume].
  - unfold clearChatHistory. destruct confirmed; [reflexivity|exact Hc].
  - unfold exportChatHistory. unfold consistent in *.
    destruct (store w) eqn:E; cbn; rewrite ?E; exact Hc.
  - exact Hc.
Qed.

(** X18: if the chat shows exactly the stored messages, in order,
    it still does after any sequence of typing, sending, answers,
    clearing, exporting and theme changes. *)
Theorem chat_shows_exactly_the_stored_messages :
  forall (es : list Event) (w : World),
    shown (chat w) = store w ->
    shown (chat (run es w)) = store (run es w).
Proof.
  induction es as [|e es IH]; intros w Hc; [exact Hc|].
  cbn [run]. apply IH. now apply consistent_step.
Qed.


(* ---- the typing indicator ---- *)

Lemma count_remove_welcome l :
  List.length (filter is_typing (remove_first is_welcome l))
  = List.length (filter is_typing l).
Proof.
  induction l as [|n l IH]; [reflexivity|].
  destruct n; cbn; auto.
Qed.

Lemma count_remove_typing l :
  List.length (filter is_typing (remove_first is_typing l))
  = pred (List.length (filter is_typing l)).
Proof.
  induction l as [|n l IH]; [reflexivity|].
  destruct n; cbn; auto.
Qed.

Lemma indicators_addMessage t c w : indicators (addMessage t c w) = indicators w.
Proof.
  unfold indicators. cbn. rewrite filter_app, length_app, count_remove_welcome.
  cbn. lia.
Qed.

Lemma indicators_hide w : indicators (hideTypingIndicator w) = pred (indicators w).
Proof. unfold indicators. cbn. apply count_remove_typing. Qed.

Lemma indicators_catch e w :
  indicators (snd (sendMessage_catch e w)) = pred (indicators w) /\
  in_flight (snd (sendMessage_catch e w)) = in_flight w.
Proof.
  unfold sendMessage_catch, bind, modify. cbn [snd fst].
  rewrite indicators_addMessage, indicators_hide. auto.
Qed.

Lemma indicators_update a w :
  indicators (snd (updateAnalysisPanel a w)) = indicators w /\
  in_flight (snd (updateAnalysisPanel a w)) = in_flight w.
Proof.
  unfold updateAnalysisPanel, bind, gets, modify, throw, ret.
  cbn [fst snd]. destruct (has_analysisTab w); [|auto].
  destruct (renders a); auto.
Qed.

Lemma sendMessage_try_raises data e w :
  get_prop data "response" = inl e ->
  try_catch (sendMessage_try data) sendMessage_catch w
  = sendMessage_catch e (hideTypingIndicator w).
Proof.
  intros Hr. unfold try_catch, sendMessage_try, bind, modify, lift.
  rewrite Hr. reflexivity.
Qed.

Lemma sendMessage_try_answers data r w :
  get_prop data "response" = inr r ->
  exists an, get_prop data "analysis" = inr an /\
    try_catch (sendMessage_try data) sendMessage_catch w
    = let w1 := addMessage "assistant" r (hideTypingIndicator w) in
      match an with
      | Some a =>
          if truthy an
          then try_catch (updateAnalysisPanel a) sendMessage_catch w1
          else (Ret tt, w1)
      | None => (Ret tt, w1)
      end.
Proof.
  intros Hr.
  assert (Han : exists an, get_prop data "analysis" = inr an).
  { destruct data; cbn in Hr |- *; try discriminate; eauto. }
  destruct Han as (an & Han). exists an. split; [exact Han|].
  unfold try_catch, sendMessage_try, bind, modify, lift.
  rewrite Hr, Han. cbn [ret]. cbn zeta.
  destruct an as [a|]; [|reflexivity].
  destruct (truthy (Some a)); reflexivity.
Qed.

Lemma indicators_resume a w :
  indicators (sendMessage_resume a w) <= pred (indicators w) /\
  in_flight (sendMessage_resume a w) = pred (in_flight w).
Proof.
  unfold sendMessage_resume.
  set (w0 := set_flight (posted w) (pred (in_flight w)) w).
  change (indicators w) with (indicators w0).
  change (pred (in_flight w)) with (in_flight w0).
  generalize w0. clear w w0. intros w.
  destruct a as [|data].
  { destruct (indicators_catch OtherError w) as [A B]. rewrite A, B. auto. }
  destruct (get_prop data "response") as [e|r] eqn:Hr.
  { rewrite (sendMessage_try_raises data e w Hr).
    destruct (indicators_catch e (hideTypingIndicator w)) as [A B].
    rewrite A, B, indicators_hide. split; [lia|reflexivity]. }
  destruct (sendMessage_try_answers data r w Hr) as (an & _ & ->). cbn zeta.
  set (w1 := addMessage "assistant" r (hideTypingIndicator w)).
  assert (H1 : indicators w1 = pred (indicators w) /\ in_flight w1 = in_flight w).
  { subst w1. rewrite indicators_addMessage, indicators_hide. auto. }
  destruct H1 as [I1 F1].
  destruct an as [a|]; [|cbn [snd]; split; [lia|exact F1]].
  destruct (truthy (Some a)); [|cbn [snd]; split; [lia|exact F1]].
  unfold try_catch.
  destruct (indicators_update a w1) as [A B].
  destruct (updateAnalysisPanel a w1) as [[u|e] w2]; cbn [fst snd] in *.
  - rewrite A, B. split; [lia|exact F1].
  - destruct (indicators_catch e w2) as [C D]. rewrite C, D, A, B.
    split; [lia|exact F1].
Qed.

Lemma indicators_step e w :
  indicators w <= in_flight w ->
  indicators (step e w) <= in_flight (step e w).
Proof.
  intros Hle. destruct e as [text| |a|confirmed| |]; cbn [step].
  - exact Hle.
  - unfold sendMessage_begin.
    destruct (String.eqb (trim (input w)) EmptyString); [exact Hle|].
    cbn zeta. unfold indicators in *. cbn.
    rewrite filter_app, length_app, filter_app, length_app,
      count_remove_welcome. cbn. lia.
  - destruct (in_flight w) as [|k] eqn:Ek; [now rewrite Ek|].
    destruct (indicators_resume a w) as [A B]. rewrite B, Ek. cbn. lia.
  - unfold clearChatHistory. destruct confirmed; [|exact Hle].
    unfold indicators. cbn. lia.
  - unfold exportChatHistory. destruct (store w); exact Hle.
  - exact Hle.
Qed.

(** X20: the typing indicators on the page never outnumber the
    requests that are under way. *)
Theorem typing_indicators_never_outnumber_pending_requests :
  forall (es : list Event) (w : World),
    List.length (filter is_typing (chat w)) <= in_flight w ->
    List.length (filter is_typing (chat (run es w))) <= in_flight (run es w).
Proof.
  induction es as [|e es IH]; intros w Hle; [exact Hle|].
  cbn [run]. apply IH. now apply indicators_step.
Qed.


(** X22: [sendMessage] does nothing when the input is empty or white
    space only; otherwise it stores and posts the trimmed input, clears
    the input box and has one more request under way. *)
Theorem white_space_only_input_is_not_sent :
  forall (w : World),
    (blank (input w) = true -> sendMessage_begin w = w) /\
    (blank (input w) = false ->
     let w' := sendMessage_begin w in
     trim (input w) <> EmptyString /\
     posted w' = (posted w ++ [trim (input w)])%list /\
     store w'
     = (store w ++ [{| st_type := "user";
                       st_content := Some (JStr (trim (input w))) |}])%list /\
     input w' = EmptyString /\ in_flight w' = S (in_flight w)).
Proof.
  intros w. unfold sendMessage_begin. split.
  - intros Hb. apply trim_empty in Hb. now rewrite Hb.
  - intros Hb. cbn zeta.
    assert (Hne : trim (input w) <> EmptyString).
    { intros E. apply trim_empty in E. congruence. }
    apply String.eqb_neq in Hne as Hne'. rewrite Hne'.
    repeat split. exact Hne.
Qed.

(** X23: after [toggleTheme] the theme is [light] or [dark] and is the
    one saved; any theme other than [light] toggles to [light]; from
    then on toggling alternates between the two. *)
Theorem toggle_theme_settles_on_light_and_dark :
  forall (w : World),
    let w1 := toggleTheme w in
    saved_theme w1 = Some (theme w1) /\
    (theme w1 = "light" \/ theme w1 = "dark") /\
    (theme w <> "light" -> theme w1 = "light") /\
    theme (toggleTheme w1) <> theme w1 /\
    toggleTheme (toggleTheme w1) = w1.
Proof.
  intros w. cbn zeta. unfold toggleTheme. cbn.
  destruct (String.eqb (theme w) "light") eqn:E; cbn.
  - repeat split; auto; try discriminate.
    intros Hne. apply String.eqb_eq in E. congruence.
  - repeat split; auto; discriminate.
Qed.

Lemma chat_shows_exactly_the_stored_messages_witness :
  shown (chat (loaded None)) = store (loaded None) /\
  shown (chat (run [Type_ "  hello "; Send; Resume (Answered JNull)]
                 (loaded None)))
  = store (run [Type_ "  hello "; Send; Resume (Answered JNull)]
             (loaded None)).
Proof.
  assert (H0 : shown (chat (loaded None)) = store (loaded None))
    by reflexivity.
  split; [exact H0|].
  exact (chat_shows_exactly_the_stored_messages
           [Type_ "  hello "; Send; Resume (Answered JNull)] (loaded None) H0).
Defined.


Lemma typing_indicators_never_outnumber_pending_requests_witness :
  List.length (filter is_typing (chat (loaded None)))
  <= in_flight (loaded None) /\
  List.length
    (filter is_typing
       (chat (run [Type_ "a"; Send; Type_ "b"; Send; Resume (Answered JNull)]
                (loaded None))))
  <= in_flight (run [Type_ "a"; Send; Type_ "b"; Send;
                     Resume (Answered JNull)] (loaded None)).
Proof.
  assert (H0 : List.length (filter is_typing (chat (loaded None)))
               <= in_flight (loaded None)) by (vm_compute; lia).
  split; [exact H0|].
  exact (typing_indicators_never_outnumber_pending_requests
           [Type_ "a"; Send; Type_ "b"; Send; Resume (Answered JNull)]
           (loaded None) H0).
Defined.


End MainChatFacts.